(** * Difusion de calor 2D: embedding of [feb13/calculo_disipacion_calor.py]

    The simulator keeps an N x N [numpy] array of temperatures, advances it
    with an explicit five-point stencil and re-imposes fixed (Dirichlet)
    borders after every step.  This file embeds the configuration record, the
    engine class [DifusionCalor2D] with its methods, the command-line loader
    [parsear_argumentos], and proves the properties stated about them.

    Effects.  Every function that can raise returns a [resultado].  A run
    leaves a trace of the frames drawn and the pauses made; the frame and the
    pause are embedded with the exceptions they raise ([np.min] on an empty
    grid, [int] on a NaN level, [time.sleep] on a pause it refuses), while
    the text printed and the time waited are not modelled.

    Numbers.  Every temperature and model parameter of the program is a
    binary64 float.  The embedding is written once over an interface
    [Numerico] of the scalar operations the program performs, and is
    instantiated twice: [binario64] (Rocq's primitive floats: the arithmetic
    the program really runs) and [exacto] (the rationals [Q]: the same
    formulas without rounding).  Properties about the shape of the
    computation are proved for every instance; properties about magnitudes
    are examined in both. *)

From Stdlib Require Import ZArith QArith Qround Qminmax Floats Lqa Lia String.
From stdpp Require Import base option list list_numbers.

Local Open Scope Z_scope.

(** ** Exceptions and results *)

(** The Python exceptions the modelled code can raise. *)
Inductive excepcion : Type :=
  | ValueError
  | IndexError
  | ZeroDivisionError
  | OverflowError
  | SystemExit.

(** A computation either returns or raises. *)
Inductive resultado (A : Type) : Type :=
  | Ok (a : A)
  | Lanza (ex : excepcion).
Arguments Ok {A} a.
Arguments Lanza {A} ex.

#[global] Instance resultado_ret : MRet resultado := fun A a => Ok a.
#[global] Instance resultado_bind : MBind resultado := fun A B f m =>
  match m with
  | Ok a => f a
  | Lanza ex => Lanza ex
  end.

(** ** The scalar arithmetic of the program *)

Class Numerico (T : Type) : Type := {
  (** the literal [num/den] of the source text, e.g. [0.95] is [lit 95 100] *)
  lit : Z -> positive -> T;
  suma : T -> T -> T;
  resta : T -> T -> T;
  mult : T -> T -> T;
  divi : T -> T -> T;
  (** [x ** 2] where it does not overflow *)
  cuadrado : T -> T;
  igual : T -> T -> bool;
  menor : T -> T -> bool;
  menor_igual : T -> T -> bool;
  es_nan : T -> bool;
  es_inf : T -> bool;
  (** [int(x)]: truncation toward zero, undefined on NaN and infinities *)
  truncar : T -> option Z
}.

(** *** binary64 *)

(** [float(z)] for a Python integer: round to nearest, ties to even. *)
Definition Z_a_float (z : Z) : float :=
  SF2Prim (binary_normalize prec emax z 0 false).

(** [int(x)] on a binary64 value. *)
Definition float_a_Z (x : float) : option Z :=
  match Prim2SF x with
  | S754_zero _ => Some 0
  | S754_finite s m e =>
      let a := if 0 <=? e then Z.shiftl (Zpos m) e else Z.shiftr (Zpos m) (- e) in
      Some (if s then - a else a)
  | S754_infinity _ | S754_nan => None
  end.

(** The program's own arithmetic, given the function that stands for
    [x ** 2].  A decimal literal is the correctly rounded quotient of its
    numerator and denominator (both exact below 2^53).  Python computes
    [x ** 2] with the C library's [pow (x, 2.0)], whose result is within one
    unit in the last place of the square but is not always its correctly
    rounded value (for 2.759 it is not); [potencia2] is that function. *)
Definition binario64_con (potencia2 : float -> float) : Numerico float := {|
  lit := fun a b => PrimFloat.div (Z_a_float a) (Z_a_float (Zpos b));
  suma := PrimFloat.add;
  resta := PrimFloat.sub;
  mult := PrimFloat.mul;
  divi := PrimFloat.div;
  cuadrado := potencia2;
  igual := PrimFloat.eqb;
  menor := PrimFloat.ltb;
  menor_igual := PrimFloat.leb;
  es_nan := PrimFloat.is_nan;
  es_inf := PrimFloat.is_infinity;
  truncar := float_a_Z
|}.

(** The instance used for the runs on concrete inputs: [binario64_con] with
    the rounded product [x * x] for [x ** 2].  The two agree wherever the
    square is a binary64 number (1, 1.5, ...), and wherever the value of the
    square plays no part. *)
#[global] Instance binario64 : Numerico float := {|
  lit := fun a b => PrimFloat.div (Z_a_float a) (Z_a_float (Zpos b));
  suma := PrimFloat.add;
  resta := PrimFloat.sub;
  mult := PrimFloat.mul;
  divi := PrimFloat.div;
  cuadrado := fun x => PrimFloat.mul x x;
  igual := PrimFloat.eqb;
  menor := PrimFloat.ltb;
  menor_igual := PrimFloat.leb;
  es_nan := PrimFloat.is_nan;
  es_inf := PrimFloat.is_infinity;
  truncar := float_a_Z
|}.

(** *** exact rationals *)

#[global] Instance exacto : Numerico Q := {|
  lit := fun a b => Qmake a b;
  suma := Qplus;
  resta := Qminus;
  mult := Qmult;
  divi := Qdiv;
  cuadrado := fun x => Qmult x x;
  igual := Qeq_bool;
  menor := fun x y => negb (Qle_bool y x);
  menor_igual := Qle_bool;
  es_nan := fun _ => false;
  es_inf := fun _ => false;
  truncar := fun x => Some (Z.quot (Qnum x) (Zpos (Qden x)))
|}.

(** A two-dimensional array of scalars, row by row. *)
Abbreviation malla T := (list (list T)).

Section Programa.

Context {T : Type} `{Numerico T}.

Definition cero : T := lit 0 1.

(** ** Python scalar operations that can raise *)

(** [a / b] on Python floats. *)
Definition py_div (a b : T) : resultado T :=
  if igual b cero then Lanza ZeroDivisionError else Ok (divi a b).

(** [a ** 2] on a Python float: an overflow of a finite base raises. *)
Definition py_pot2 (a : T) : resultado T :=
  let y := cuadrado a in
  if es_inf y && negb (es_inf a) then Lanza OverflowError else Ok y.

(** [a % b] on Python integers (the sign follows the divisor). *)
Definition py_mod (a b : Z) : resultado Z :=
  if b =? 0 then Lanza ZeroDivisionError else Ok (a mod b).

(** [int(x)] on a Python float. *)
Definition py_int (x : T) : resultado Z :=
  match truncar x with
  | Some z => Ok z
  | None => Lanza (if es_nan x then ValueError else OverflowError)
  end.

(** ** numpy arrays *)

Definition filas (m : malla T) : nat := length m.

Definition columnas (m : malla T) : nat :=
  match m with
  | [] => 0%nat
  | f :: _ => length f
  end.

(** An array of shape (p, q). *)
Definition forma (p q : nat) (m : malla T) : Prop :=
  length m = p /\ Forall (fun f => length f = q) m.

(** A square array of shape (k, k). *)
Definition es_malla (k : nat) (m : malla T) : Prop := forma k k m.

(** [m[i][j]], when inside the array. *)
Definition celda (m : malla T) (i j : nat) : option T :=
  m !! i ≫= fun f => f !! j.

(** [m[i][j]] with [0.0] outside the array. *)
Definition cel (m : malla T) (i j : nat) : T :=
  default cero (celda m i j).

(** Resolution of one bound of a slice against an axis of length [len]. *)
Definition ajustar (len i : Z) : Z :=
  if i <? 0 then Z.max (i + len) 0 else Z.min i len.

(** [l[ini:fin]]. *)
Definition rebanada {A : Type} (ini fin : option Z) (l : list A) : list A :=
  let len := Z.of_nat (length l) in
  let a := ajustar len (default 0 ini) in
  let b := ajustar len (default len fin) in
  take (Z.to_nat (b - a)) (drop (Z.to_nat a) l).

(** [l[ini:fin] = nuevos], for [nuevos] as long as the slice. *)
Definition asignar_rebanada {A : Type} (ini fin : option Z) (nuevos l : list A) : list A :=
  let len := Z.of_nat (length l) in
  let a := ajustar len (default 0 ini) in
  let b := ajustar len (default len fin) in
  take (Z.to_nat a) l ++ nuevos ++ drop (Z.to_nat (Z.max a b)) l.

(** [m[fi:ff, ci:cf]]. *)
Definition sub (fi ff ci cf : option Z) (m : malla T) : malla T :=
  rebanada ci cf <$> rebanada fi ff m.

(** [m[fi:ff, ci:cf] = v]. *)
Definition asignar_sub (fi ff ci cf : option Z) (v m : malla T) : malla T :=
  asignar_rebanada fi ff
    (zip_with (asignar_rebanada ci cf) v (rebanada fi ff m)) m.

(** Resolution of an integer index against an axis of length [len]. *)
Definition indice (len : nat) (i : Z) : resultado nat :=
  let j := if i <? 0 then i + Z.of_nat len else i in
  if (0 <=? j) && (j <? Z.of_nat len) then Ok (Z.to_nat j) else Lanza IndexError.

(** [m[i, :] = v]. *)
Definition fijar_fila (i : Z) (v : T) (m : malla T) : resultado (malla T) :=
  k ← indice (filas m) i;
  Ok (alter (fun f => replicate (length f) v) k m).

(** [m[:, j] = v]. *)
Definition fijar_columna (j : Z) (v : T) (m : malla T) : resultado (malla T) :=
  k ← indice (columnas m) j;
  Ok ((fun f => <[k := v]> f) <$> m).

(** [np.zeros((k, k))]: a negative dimension raises.  numpy also refuses
    dimensions beyond the size of the address space (and the allocation can
    run out of memory); those limits are not part of this model, which
    speaks of the array that is produced. *)
Definition np_zeros (k : Z) : resultado (malla T) :=
  if k <? 0 then Lanza ValueError
  else Ok (replicate (Z.to_nat k) (replicate (Z.to_nat k) cero)).

(** Element-wise operations on arrays of one shape, and scalar broadcast. *)
Definition mas (a b : malla T) : malla T := zip_with (zip_with suma) a b.
Definition menos (a b : malla T) : malla T := zip_with (zip_with resta) a b.
Definition por (k : T) (a : malla T) : malla T :=
  (fun f : list T => mult k <$> f) <$> a.

(** [np.clip(x, lo, hi)] on a scalar: a NaN [x] is returned as it is. *)
Definition np_clip (x lo hi : T) : T :=
  let a := if es_nan x then x else if menor lo x then x else lo in
  if es_nan a then a else if menor a hi then a else hi.

(** ** The configuration *)

(** The frozen dataclass [ConfiguracionSimulacion]. *)
Record ConfiguracionSimulacion : Type := {
  n : Z;
  alpha : T;
  dx : T;
  pasos : Z;
  cada_render : Z;
  pausa : T;
  factor_seguridad_cfl : T;
  t_arriba : T;
  t_abajo : T;
  t_izquierda : T;
  t_derecha : T
}.

(** The defaults of the dataclass ([ConfiguracionSimulacion()]). *)
Definition config_por_defecto : ConfiguracionSimulacion :=
  {| n := 20; alpha := lit 1 1; dx := lit 1 1; pasos := 500; cada_render := 5;
     pausa := lit 3 100; factor_seguridad_cfl := lit 95 100;
     t_arriba := lit 100 1; t_abajo := lit 0 1;
     t_izquierda := lit 30 1; t_derecha := lit 30 1 |}.

(** ** The engine *)

(** The attributes of an instance of [DifusionCalor2D]. *)
Record DifusionCalor2D : Type := {
  cfg : ConfiguracionSimulacion;
  dt : T;
  r : T;
  u : malla T;
  iteracion : Z
}.

(** [_calcular_dt_estable]: reads only [self.cfg]. *)
Definition _calcular_dt_estable (c : ConfiguracionSimulacion) : resultado T :=
  d2 ← py_pot2 (dx c);
  dt_max ← py_div d2 (mult (lit 4 1) (alpha c));
  Ok (mult (factor_seguridad_cfl c) dt_max).

(** [_aplicar_contornos]: the in-place writes, in program order. *)
Definition _aplicar_contornos (c : ConfiguracionSimulacion) (matriz : malla T)
  : resultado (malla T) :=
  m1 ← fijar_fila 0 (t_arriba c) matriz;
  m2 ← fijar_fila (-1) (t_abajo c) m1;
  m3 ← fijar_columna 0 (t_izquierda c) m2;
  fijar_columna (-1) (t_derecha c) m3.

(** [inicializar_placa]. *)
Definition inicializar_placa (c : ConfiguracionSimulacion) : resultado (malla T) :=
  z ← np_zeros (n c);
  _aplicar_contornos c z.

(** [__init__] (the colour library's start-up has no effect on the state). *)
Definition __init__ (c : ConfiguracionSimulacion) : resultado DifusionCalor2D :=
  dt0 ← _calcular_dt_estable c;
  d2 ← py_pot2 (dx c);
  r0 ← py_div (mult (alpha c) dt0) d2;
  u0 ← inicializar_placa c;
  Ok {| cfg := c; dt := dt0; r := r0; u := u0; iteracion := 0 |}.

(** The slice bounds [1], [2], [-1], [-2]; an omitted bound is [None]. *)
Definition b1 : option Z := Some 1.
Definition b2 : option Z := Some 2.
Definition bm1 : option Z := Some (-1).
Definition bm2 : option Z := Some (-2).

(** The right-hand side of the interior assignment of [actualizar_paso]. *)
Definition interior_nuevo (k : T) (v : malla T) : malla T :=
  mas (sub b1 bm1 b1 bm1 v)
      (por k
         (menos
            (mas (mas (mas (sub b2 None b1 bm1 v) (sub None bm2 b1 bm1 v))
                      (sub b1 bm1 b2 None v))
                 (sub b1 bm1 None bm2 v))
            (por (lit 4 1) (sub b1 bm1 b1 bm1 v)))).

(** [actualizar_paso]. *)
Definition actualizar_paso (e : DifusionCalor2D) : resultado DifusionCalor2D :=
  let u_new := u e in
  let u_new := asignar_sub b1 bm1 b1 bm1 (interior_nuevo (r e) (u e)) u_new in
  u_new ← _aplicar_contornos (cfg e) u_new;
  Ok {| cfg := cfg e; dt := dt e; r := r e; u := u_new;
        iteracion := iteracion e + 1 |}.

(** [k] successive calls of [actualizar_paso]. *)
Fixpoint pasos_sucesivos (k : nat) (e : DifusionCalor2D) : resultado DifusionCalor2D :=
  match k with
  | O => Ok e
  | S k' => e1 ← actualizar_paso e; pasos_sucesivos k' e1
  end.

(** ** The renderer's mapping *)

Inductive color : Type := BLUE | CYAN | GREEN | YELLOW | LIGHTRED_EX | RED.

(** A display token: an index into the grey scale [" .:-=+*#%@"], or a
    coloured block. *)
Inductive bloque : Type :=
  | Gris (idx : Z)
  | Bloque (c : color).

(** The variable [nivel] of [_bloque_por_temperatura]. *)
Definition nivel (temp t_min t_max : T) : resultado T :=
  if menor_igual t_max t_min then Ok (lit 0 1)
  else
    q ← py_div (resta temp t_min) (resta t_max t_min);
    Ok (np_clip q (lit 0 1) (lit 1 1)).

(** [_bloque_por_temperatura]; [colorama] is [COLORAMA_DISPONIBLE]. *)
Definition _bloque_por_temperatura (colorama : bool) (temp t_min t_max : T)
  : resultado bloque :=
  nv ← nivel temp t_min t_max;
  if negb colorama then
    idx ← py_int (mult nv (lit 9 1));
    Ok (Gris (Z.min idx 9))
  else if menor nv (lit 15 100) then Ok (Bloque BLUE)
  else if menor nv (lit 30 100) then Ok (Bloque CYAN)
  else if menor nv (lit 50 100) then Ok (Bloque GREEN)
  else if menor nv (lit 70 100) then Ok (Bloque YELLOW)
  else if menor nv (lit 85 100) then Ok (Bloque LIGHTRED_EX)
  else Ok (Bloque RED).

(** ** The frame *)

(** The scalar loops of [np.minimum] and [np.maximum]: a NaN operand wins. *)
Definition np_minimum (a b : T) : T := if menor_igual a b || es_nan a then a else b.
Definition np_maximum (a b : T) : T := if menor_igual b a || es_nan a then a else b.

(** [np.min] and [np.max] over all the elements of an array: an array
    without elements raises.  numpy reduces in an order of its own; the
    result is the same number (NaN as soon as one element is NaN), up to the
    sign of a zero. *)
Definition np_min (m : malla T) : resultado T :=
  match concat m with
  | [] => Lanza ValueError
  | x :: resto => Ok (foldl np_minimum x resto)
  end.

Definition np_max (m : malla T) : resultado T :=
  match concat m with
  | [] => Lanza ValueError
  | x :: resto => Ok (foldl np_maximum x resto)
  end.

(** [renderizar_terminal], as far as the state and the exceptions go: the
    extremes of the grid, then one block per cell, row by row.  The result
    is the list [filas_render] before it is joined and printed.  The mean and
    the header lines are only formatted and printed; clearing the console
    and printing are taken to return. *)
Definition renderizar_terminal (colorama : bool) (e : DifusionCalor2D)
  : resultado (list (list bloque)) :=
  t_min ← np_min (u e);
  t_max ← np_max (u e);
  mapM (mapM (fun temp => _bloque_por_temperatura colorama temp t_min t_max)) (u e).

(** ** The run loop *)

(** [time.sleep(x)] on a float, as CPython 3.11 has it.  A NaN is refused.
    The duration is turned into nanoseconds, [x * 1e9] rounded away from
    zero, which must lie within [-2^63, 2^63] (OverflowError otherwise); a
    negative number of nanoseconds is refused with ValueError, and so is
    2^63 itself, which the conversion to a 64-bit integer wraps to -2^63
    (later versions raise OverflowError there).  The wait itself is taken to
    return. *)
Definition time_sleep (x : T) : resultado unit :=
  if es_nan x then Lanza ValueError
  else
    let d := mult x (lit 1000000000 1) in
    match truncar d with
    | None => Lanza OverflowError
    | Some z =>
        let ns := if igual (lit z 1) d then z
                  else if menor d cero then z - 1 else z + 1 in
        if (ns <? - 2 ^ 63) || (2 ^ 63 <? ns) then Lanza OverflowError
        else if (ns <? 0) || (ns =? 2 ^ 63) then Lanza ValueError
        else Ok tt
    end.

(** What a run that returns has left on the terminal and the clock.  A frame
    is recorded by the value of the iteration counter when
    [renderizar_terminal] was called; the text of the frame is not part of
    the trace. *)
Inductive evento : Type :=
  | Render (it : Z)
  | Pausa (segundos : T)
  | Fin.

(** The body of the [for] loop, [k] more times.  An exception of the step,
    of the modulus, of the frame or of the pause ends the run. *)
Fixpoint bucle (colorama : bool) (k : nat) (e : DifusionCalor2D) (tr : list evento)
  : resultado (DifusionCalor2D * list evento) :=
  match k with
  | O => Ok (e, tr)
  | S k' =>
      e1 ← actualizar_paso e;
      resto ← py_mod (iteracion e1) (cada_render (cfg e1));
      if (resto =? 0) || (iteracion e1 =? 1) then
        _ ← renderizar_terminal colorama e1;
        _ ← time_sleep (pausa (cfg e1));
        bucle colorama k' e1 (tr ++ [Render (iteracion e1); Pausa (pausa (cfg e1))])
      else bucle colorama k' e1 tr
  end.

(** [ejecutar]: [range(pasos)] is empty for a non-positive [pasos]. *)
Definition ejecutar (colorama : bool) (e : DifusionCalor2D)
  : resultado (DifusionCalor2D * list evento) :=
  '(e1, tr) ← bucle colorama (Z.to_nat (pasos (cfg e))) e [];
  _ ← renderizar_terminal colorama e1;
  Ok (e1, tr ++ [Render (iteracion e1); Fin]).

(** The iterations at which frames were drawn, in order. *)
Definition renders (tr : list evento) : list Z :=
  omap (fun ev => match ev with Render it => Some it | _ => None end) tr.

(** ** The command line *)

(** The argument vector is taken as a list of options, each with its value,
    as in [--opcion=valor].  argparse reads the two tokens [--opcion valor]
    in the same way when the value does not start with [-] or is a plain
    negative number such as [-1] or [-0.5]; any other separate token that
    starts with [-] ([-inf], [-1e5]) is taken for an option string and makes
    the parser exit.

    One value, as Python's converters read it: a text that [int] accepts, a
    text that only [float] accepts, or any other text. *)
Inductive valor : Type :=
  | VEntero (z : Z)
  | VReal (x : T)
  | VOtro.

(** The options declared with [add_argument], and the [--help] that
    [ArgumentParser] adds itself. *)
Inductive opcion : Type :=
  | op_help
  | op_n
  | op_alpha
  | op_dx
  | op_pasos
  | op_cada_render
  | op_pausa
  | op_factor_cfl.

Definition opciones : list (string * opcion) :=
  [ ("--help", op_help);
    ("--n", op_n);
    ("--alpha", op_alpha);
    ("--dx", op_dx);
    ("--pasos", op_pasos);
    ("--cada-render", op_cada_render);
    ("--pausa", op_pausa);
    ("--factor-cfl", op_factor_cfl) ]%string.

(** Resolution of an option string: an exact name, or an abbreviation that
    is a prefix of exactly one declared long option.  Everything else makes
    the parser exit. *)
Definition buscar_opcion (s : string) : resultado opcion :=
  match List.filter (fun p => String.eqb s (fst p)) opciones with
  | p :: _ => Ok (snd p)
  | [] =>
      match List.filter (fun p => String.prefix "--" s && String.prefix s (fst p)) opciones with
      | [p] => Ok (snd p)
      | _ => Lanza SystemExit
      end
  end.

(** [type=int] and [type=float]. *)
Definition conv_int (v : valor) : resultado Z :=
  match v with
  | VEntero z => Ok z
  | _ => Lanza SystemExit
  end.

Definition conv_float (v : valor) : resultado T :=
  match v with
  | VEntero z => Ok (lit z 1)
  | VReal x => Ok x
  | VOtro => Lanza SystemExit
  end.

(** The namespace returned by [parse_args]: one attribute per [dest]. *)
Record Namespace : Type := {
  a_n : Z;
  a_alpha : T;
  a_dx : T;
  a_pasos : Z;
  a_cada_render : Z;
  a_pausa : T;
  a_factor_seguridad_cfl : T
}.

(** The declared defaults. *)
Definition ns_defecto : Namespace :=
  {| a_n := 20; a_alpha := lit 1 1; a_dx := lit 1 1; a_pasos := 500;
     a_cada_render := 5; a_pausa := lit 3 100;
     a_factor_seguridad_cfl := lit 95 100 |}.

(** The store action of one option. *)
Definition guardar (o : opcion) (v : valor) (a : Namespace) : resultado Namespace :=
  match o with
  | op_help => Lanza SystemExit
  | op_n => z ← conv_int v;
      Ok {| a_n := z; a_alpha := a_alpha a; a_dx := a_dx a; a_pasos := a_pasos a;
            a_cada_render := a_cada_render a; a_pausa := a_pausa a;
            a_factor_seguridad_cfl := a_factor_seguridad_cfl a |}
  | op_alpha => x ← conv_float v;
      Ok {| a_n := a_n a; a_alpha := x; a_dx := a_dx a; a_pasos := a_pasos a;
            a_cada_render := a_cada_render a; a_pausa := a_pausa a;
            a_factor_seguridad_cfl := a_factor_seguridad_cfl a |}
  | op_dx => x ← conv_float v;
      Ok {| a_n := a_n a; a_alpha := a_alpha a; a_dx := x; a_pasos := a_pasos a;
            a_cada_render := a_cada_render a; a_pausa := a_pausa a;
            a_factor_seguridad_cfl := a_factor_seguridad_cfl a |}
  | op_pasos => z ← conv_int v;
      Ok {| a_n := a_n a; a_alpha := a_alpha a; a_dx := a_dx a; a_pasos := z;
            a_cada_render := a_cada_render a; a_pausa := a_pausa a;
            a_factor_seguridad_cfl := a_factor_seguridad_cfl a |}
  | op_cada_render => z ← conv_int v;
      Ok {| a_n := a_n a; a_alpha := a_alpha a; a_dx := a_dx a; a_pasos := a_pasos a;
            a_cada_render := z; a_pausa := a_pausa a;
            a_factor_seguridad_cfl := a_factor_seguridad_cfl a |}
  | op_pausa => x ← conv_float v;
      Ok {| a_n := a_n a; a_alpha := a_alpha a; a_dx := a_dx a; a_pasos := a_pasos a;
            a_cada_render := a_cada_render a; a_pausa := x;
            a_factor_seguridad_cfl := a_factor_seguridad_cfl a |}
  | op_factor_cfl => x ← conv_float v;
      Ok {| a_n := a_n a; a_alpha := a_alpha a; a_dx := a_dx a; a_pasos := a_pasos a;
            a_cada_render := a_cada_render a; a_pausa := a_pausa a;
            a_factor_seguridad_cfl := x |}
  end.

(** [parser.parse_args()] on an argument vector of options with their
    values ([--opcion=valor]). *)
Fixpoint parse_args (argv : list (string * valor)) (a : Namespace) : resultado Namespace :=
  match argv with
  | [] => Ok a
  | (s, v) :: resto =>
      o ← buscar_opcion s;
      a1 ← guardar o v a;
      parse_args resto a1
  end.

(** [parsear_argumentos].  The constructor call names seven fields; the four
    border temperatures keep the defaults of the dataclass. *)
Definition parsear_argumentos (argv : list (string * valor))
  : resultado ConfiguracionSimulacion :=
  args ← parse_args argv ns_defecto;
  if a_n args <? 3 then Lanza ValueError
  else if menor_igual (a_alpha args) (lit 0 1) then Lanza ValueError
  else if menor_igual (a_dx args) (lit 0 1) then Lanza ValueError
  else if a_pasos args <=? 0 then Lanza ValueError
  else if a_cada_render args <=? 0 then Lanza ValueError
  else if negb (menor (lit 0 1) (a_factor_seguridad_cfl args)
                && menor_igual (a_factor_seguridad_cfl args) (lit 1 1))
  then Lanza ValueError
  else
    Ok {| n := a_n args; alpha := a_alpha args; dx := a_dx args;
          pasos := a_pasos args; cada_render := a_cada_render args;
          pausa := a_pausa args;
          factor_seguridad_cfl := a_factor_seguridad_cfl args;
          t_arriba := lit 100 1; t_abajo := lit 0 1;
          t_izquierda := lit 30 1; t_derecha := lit 30 1 |}.

(** [main]. *)
Definition main (colorama : bool) (argv : list (string * valor))
  : resultado (DifusionCalor2D * list evento) :=
  c ← parsear_argumentos argv;
  simulador ← __init__ c;
  ejecutar colorama simulador.

(** ** Reference values used in the statements *)

(** The five-point formula of the docstring of [actualizar_paso], read at the
    cell [(i, j)] of [v] with diffusion number [x]. *)
Definition plantilla (x : T) (v : malla T) (i j : nat) : T :=
  suma (cel v i j)
    (mult x
       (resta
          (suma (suma (suma (cel v (i + 1) j) (cel v (i - 1) j)) (cel v i (j + 1)))
                (cel v i (j - 1)))
          (mult (lit 4 1) (cel v i j)))).

(** The array left by the four writes of [_aplicar_contornos] when none of
    them raises. *)
Definition bordes_fijos (c : ConfiguracionSimulacion) (m : malla T) : malla T :=
  (fun f => <[(columnas m - 1)%nat := t_derecha c]> f) <$>
    ((fun f => <[0%nat := t_izquierda c]> f) <$>
       alter (fun f => replicate (length f) (t_abajo c)) (filas m - 1)%nat
         (alter (fun f => replicate (length f) (t_arriba c)) 0%nat m)).

(** The content of the cell [(i, j)] of a (p, q) array after the border
    writes, given its content [x] before: the later write wins. *)
Definition valor_borde (c : ConfiguracionSimulacion) (p q i j : nat) (x : T) : T :=
  if decide (j = q - 1)%nat then t_derecha c
  else if decide (j = 0)%nat then t_izquierda c
  else if decide (i = p - 1)%nat then t_abajo c
  else if decide (i = 0)%nat then t_arriba c
  else x.

(** The four edges of a (k, k) array hold the configured temperatures, the
    corners those of the columns. *)
Definition contornos_puestos (c : ConfiguracionSimulacion) (k : nat) (m : malla T) : Prop :=
  forall i j : nat, (i < k)%nat -> (j < k)%nat ->
    (j = 0%nat -> celda m i j = Some (t_izquierda c)) /\
    (j = (k - 1)%nat -> celda m i j = Some (t_derecha c)) /\
    (i = 0%nat -> (0 < j < k - 1)%nat -> celda m i j = Some (t_arriba c)) /\
    (i = (k - 1)%nat -> (0 < j < k - 1)%nat -> celda m i j = Some (t_abajo c)).

(** The state after one successful call of [actualizar_paso]. *)
Definition siguiente (e : DifusionCalor2D) : DifusionCalor2D :=
  {| cfg := cfg e; dt := dt e; r := r e;
     u := bordes_fijos (cfg e)
            (asignar_sub b1 bm1 b1 bm1 (interior_nuevo (r e) (u e)) (u e));
     iteracion := iteracion e + 1 |}.

(** Whether the loop of [ejecutar] draws a frame at iteration [it]. *)
Definition toca_render (cr it : Z) : bool := (it mod cr =? 0) || (it =? 1).

(** The events the loop of [ejecutar] leaves for the iterations in [its]. *)
Definition eventos_bucle (c : ConfiguracionSimulacion) (its : list Z) : list evento :=
  flat_map (fun it => if toca_render (cada_render c) it
                      then [Render it; Pausa (pausa c)] else []) its.

(** Every frame of the run of [ejecutar] from [e] can be drawn:
    [renderizar_terminal] returns on the state after [j] steps whenever the
    loop draws there ([1 <= j <= pasos] and the iteration reached is a
    multiple of [cada_render] or is 1), and on the state the run ends in
    ([j = max (pasos, 0)]). *)
Definition cuadros_dibujables (colorama : bool) (e : DifusionCalor2D) : Prop :=
  forall (j : nat) (ej : DifusionCalor2D),
    (j <= Z.to_nat (pasos (cfg e)))%nat ->
    ((1 <= j)%nat /\ toca_render (cada_render (cfg e)) (iteracion e + Z.of_nat j) = true)
    \/ j = Z.to_nat (pasos (cfg e)) ->
    pasos_sucesivos j e = Ok ej ->
    exists filas_render, renderizar_terminal colorama ej = Ok filas_render.

(** [np.sum] and [np.mean] over all the elements of an array, added in
    row-major order.  The claims speak of the mean of the interior cells,
    [u[1:-1, 1:-1]]. *)
Definition np_sum (m : malla T) : T := foldl suma cero (concat m).

Definition np_mean (m : malla T) : T :=
  divi (np_sum m) (lit (Z.of_nat (length (concat m))) 1).

Definition media_interior (m : malla T) : T := np_mean (sub b1 bm1 b1 bm1 m).

End Programa.

(** ** Reference data for the statements *)

(** *** Over the rationals *)

Section DatosExactos.
Local Open Scope Q_scope.
Implicit Types c : @ConfiguracionSimulacion Q.

(** A configuration that the validation of [parsear_argumentos] accepts. *)
Definition config_valida c : Prop :=
  (3 <= n c)%Z /\ 0 < alpha c /\ 0 < dx c /\
  0 < factor_seguridad_cfl c /\ factor_seguridad_cfl c <= 1.

(** The border temperatures of the reference scenario. *)
Definition contornos_de_referencia c : Prop :=
  t_arriba c == 100 /\ t_abajo c == 0 /\ t_izquierda c == 30 /\ t_derecha c == 30.

(** Every cell of a (k, k) array lies within [lo, hi]. *)
Definition acotada (k : nat) (lo hi : Q) (m : malla Q) : Prop :=
  forall i j : nat, (i < k)%nat -> (j < k)%nat -> lo <= cel m i j /\ cel m i j <= hi.

End DatosExactos.

(** *** Over binary64 *)

Section DatosBinario64.
Local Open Scope float_scope.

(** An engine over binary64 that differs from [e] in the counter only. *)
Definition con_iteracion (e : @DifusionCalor2D float) (it : Z) : @DifusionCalor2D float :=
  {| cfg := cfg e; dt := dt e; r := r e; u := u e; iteracion := it |}.

(** [--n 3 --alpha 1.01 --dx 1.5 --factor-cfl 1]. *)
Definition argv_cfl_uno : list (string * @valor float) :=
  [("--n", VEntero 3); ("--alpha", VReal (lit 101 100)); ("--dx", VReal (lit 3 2));
   ("--factor-cfl", VEntero 1)]%string.

(** [--n 3 --alpha 4.49423283715579e+307] (alpha = 2^1022). *)
Definition argv_alpha_enorme : list (string * @valor float) :=
  [("--n", VEntero 3); ("--alpha", VReal 0x1p1022)]%string.

(** The engine built from [argv_alpha_enorme]: 4 * alpha overflows, so
    dt_max = dx^2 / inf = 0, dt = 0 and r = alpha * 0 / dx^2 = 0. *)
Definition motor_alpha_enorme : @DifusionCalor2D float :=
  {| cfg := {| n := 3; alpha := 0x1p1022; dx := lit 1 1; pasos := 500;
               cada_render := 5; pausa := lit 3 100;
               factor_seguridad_cfl := lit 95 100;
               t_arriba := lit 100 1; t_abajo := lit 0 1;
               t_izquierda := lit 30 1; t_derecha := lit 30 1 |};
     dt := 0; r := 0;
     u := [[30; 100; 30]; [30; 0; 30]; [30; 0; 30]];
     iteracion := 0 |}.

(** A 3 x 3 plate run for 10 steps with a frame every 5, over binary64. *)
Definition config_3x3 : @ConfiguracionSimulacion float :=
  {| n := 3; alpha := 1; dx := 1; pasos := 10; cada_render := 5;
     pausa := lit 3 100; factor_seguridad_cfl := lit 95 100;
     t_arriba := 100; t_abajo := 0; t_izquierda := 30; t_derecha := 30 |}.

(** Whether every cell lies within [0, 100] now and after each of the next
    [k] steps. *)
Fixpoint siempre_acotada (k : nat) (e : @DifusionCalor2D float) : bool :=
  forallb (forallb (fun x => PrimFloat.leb 0 x && PrimFloat.leb x 100)) (u e) &&
  match k with
  | O => true
  | S k' =>
      match actualizar_paso e with
      | Ok e1 => siempre_acotada k' e1
      | Lanza _ => false
      end
  end.

Definition motor_3x3 : @DifusionCalor2D float :=
  {| cfg := config_3x3; dt := lit 2375 10000; r := lit 2375 10000;
     u := [[30; 100; 30]; [30; 0; 30]; [30; 0; 30]]; iteracion := 0 |}.

(** The same plate with another step budget, frame period and pause. *)
Definition motor_3x3_con (p cr : Z) (pa : float) : @DifusionCalor2D float :=
  {| cfg := {| n := 3; alpha := 1; dx := 1; pasos := p; cada_render := cr;
               pausa := pa; factor_seguridad_cfl := lit 95 100;
               t_arriba := 100; t_abajo := 0; t_izquierda := 30; t_derecha := 30 |};
     dt := lit 2375 10000; r := lit 2375 10000;
     u := [[30; 100; 30]; [30; 0; 30]; [30; 0; 30]]; iteracion := 0 |}.

(** [--n=3 --pasos=10 --pausa=-1]. *)
Definition argv_pausa_negativa : list (string * @valor float) :=
  [("--n", VEntero 3); ("--pasos", VEntero 10); ("--pausa", VEntero (-1))]%string.

End DatosBinario64.

(** The same plate over the rationals. *)
Definition config_3x3_exacta : @ConfiguracionSimulacion Q :=
  {| n := 3; alpha := 1; dx := 1; pasos := 10; cada_render := 5;
     pausa := 3 # 100; factor_seguridad_cfl := 95 # 100;
     t_arriba := 100; t_abajo := 0; t_izquierda := 30; t_derecha := 30 |}%Q.

(** * Properties *)

(** ** Slices of one axis *)

Section Rebanadas.
Context {A : Type}.
Implicit Types l : list A.

Lemma ajustar_pos len i : 0 <= i -> ajustar len i = Z.min i len.
Proof. intros Hi. unfold ajustar. destruct (Z.ltb_spec i 0); [lia | reflexivity]. Qed.

Lemma ajustar_neg len i : i < 0 -> ajustar len i = Z.max (i + len) 0.
Proof. intros Hi. unfold ajustar. destruct (Z.ltb_spec i 0); [reflexivity | lia]. Qed.

Ltac resolver_rebanada l :=
  unfold rebanada, asignar_rebanada, b1, b2, bm1, bm2; cbn [default from_option id];
  repeat match goal with
    | |- context [ajustar ?len ?i] =>
        first [rewrite (ajustar_pos len i) by lia | rewrite (ajustar_neg len i) by lia]
    end;
  destruct (decide (length l = 0%nat)) as [E|E];
  [ apply nil_length_inv in E; subst l; reflexivity
  | repeat (f_equal; try lia) ].

Lemma rebanada_1_m1 l :
  (2 <= length l)%nat -> rebanada b1 bm1 l = take (length l - 2) (drop 1 l).
Proof. intros Hl. resolver_rebanada l. Qed.

Lemma rebanada_2_fin l :
  (2 <= length l)%nat -> rebanada b2 None l = take (length l - 2) (drop 2 l).
Proof. intros Hl. resolver_rebanada l. Qed.

Lemma rebanada_ini_m2 l :
  (2 <= length l)%nat -> rebanada None bm2 l = take (length l - 2) (drop 0 l).
Proof. intros Hl. resolver_rebanada l. Qed.

Lemma asignar_rebanada_1_m1 (v l : list A) :
  (2 <= length l)%nat ->
  asignar_rebanada b1 bm1 v l = take 1 l ++ v ++ drop (length l - 1) l.
Proof. intros Hl. resolver_rebanada l. Qed.

Lemma length_rebanada_1_m1 l :
  (2 <= length l)%nat -> length (rebanada b1 bm1 l) = (length l - 2)%nat.
Proof. intros Hl. rewrite rebanada_1_m1, length_take, length_drop by done. lia. Qed.

Lemma length_rebanada_2_fin l :
  (2 <= length l)%nat -> length (rebanada b2 None l) = (length l - 2)%nat.
Proof. intros Hl. rewrite rebanada_2_fin, length_take, length_drop by done. lia. Qed.

Lemma length_rebanada_ini_m2 l :
  (2 <= length l)%nat -> length (rebanada None bm2 l) = (length l - 2)%nat.
Proof. intros Hl. rewrite rebanada_ini_m2, length_take, length_drop by done. lia. Qed.

Lemma lookup_rebanada_1_m1 l i :
  (i < length l - 2)%nat -> rebanada b1 bm1 l !! i = l !! S i.
Proof. intros Hi. rewrite rebanada_1_m1, lookup_take_lt, lookup_drop by lia. reflexivity. Qed.

Lemma lookup_rebanada_2_fin l i :
  (i < length l - 2)%nat -> rebanada b2 None l !! i = l !! S (S i).
Proof. intros Hi. rewrite rebanada_2_fin, lookup_take_lt, lookup_drop by lia. reflexivity. Qed.

Lemma lookup_rebanada_ini_m2 l i :
  (i < length l - 2)%nat -> rebanada None bm2 l !! i = l !! i.
Proof. intros Hi. rewrite rebanada_ini_m2, lookup_take_lt, lookup_drop by lia. reflexivity. Qed.

Lemma length_asignar_rebanada_1_m1 (v l : list A) :
  (2 <= length l)%nat -> length v = (length l - 2)%nat ->
  length (asignar_rebanada b1 bm1 v l) = length l.
Proof.
  intros Hl Hv. rewrite asignar_rebanada_1_m1 by done.
  rewrite !length_app, length_take, length_drop. lia.
Qed.

Lemma lookup_asignar_rebanada_1_m1 (v l : list A) i :
  (2 <= length l)%nat -> length v = (length l - 2)%nat ->
  asignar_rebanada b1 bm1 v l !! i =
    if decide (i = 0)%nat then l !! i
    else if decide (i < length l - 1)%nat then v !! (i - 1)%nat
    else l !! i.
Proof.
  intros Hl Hv. rewrite asignar_rebanada_1_m1 by done.
  assert (Ht : length (take 1 l) = 1%nat) by (rewrite length_take; lia).
  destruct (decide (i = 0)%nat) as [->|Hi0].
  - rewrite lookup_app_l by lia. apply lookup_take_lt. lia.
  - rewrite lookup_app_r by lia. rewrite Ht.
    destruct (decide (i < length l - 1)%nat) as [Hi|Hi].
    + rewrite lookup_app_l by lia. reflexivity.
    + rewrite lookup_app_r by lia. rewrite lookup_drop. f_equal. lia.
Qed.

End Rebanadas.

(** ** Arrays *)

Section Mallas.
Context {T : Type} `{Numerico T}.
Implicit Types (m v a b : malla T) (i j k p q : nat).

Lemma forma_fila p q m i f : forma p q m -> m !! i = Some f -> length f = q.
Proof. intros [_ Hf] Hi. exact (proj1 (Forall_lookup _ _) Hf i f Hi). Qed.

Lemma celda_forma p q m i j :
  forma p q m -> (i < p)%nat -> (j < q)%nat -> celda m i j = Some (cel m i j).
Proof.
  intros Hm Hi Hj. unfold cel, celda.
  destruct (lookup_lt_is_Some_2 m i) as [f Hf]; [destruct Hm; lia|].
  rewrite Hf. simpl.
  destruct (lookup_lt_is_Some_2 f j) as [x Hx].
  { rewrite (forma_fila _ _ _ _ _ Hm Hf). exact Hj. }
  rewrite Hx. reflexivity.
Qed.

Lemma celda_sub_gen fi ff ci cf v i j :
  celda (sub fi ff ci cf v) i j = rebanada fi ff v !! i ≫= fun f => rebanada ci cf f !! j.
Proof.
  unfold celda, sub. rewrite list_lookup_fmap.
  destruct (rebanada fi ff v !! i); reflexivity.
Qed.

Lemma celda_mas a b i j :
  celda (mas a b) i j = x ← celda a i j; y ← celda b i j; Some (suma x y).
Proof.
  unfold celda, mas. rewrite lookup_zip_with.
  destruct (a !! i) as [fa|]; simpl; [|reflexivity].
  destruct (b !! i) as [fb|]; simpl.
  - rewrite lookup_zip_with. reflexivity.
  - destruct (fa !! j); reflexivity.
Qed.

Lemma celda_menos a b i j :
  celda (menos a b) i j = x ← celda a i j; y ← celda b i j; Some (resta x y).
Proof.
  unfold celda, menos. rewrite lookup_zip_with.
  destruct (a !! i) as [fa|]; simpl; [|reflexivity].
  destruct (b !! i) as [fb|]; simpl.
  - rewrite lookup_zip_with. reflexivity.
  - destruct (fa !! j); reflexivity.
Qed.

Lemma celda_por x a i j : celda (por x a) i j = mult x <$> celda a i j.
Proof.
  unfold celda, por. rewrite list_lookup_fmap.
  destruct (a !! i) as [fa|]; simpl; [|reflexivity].
  apply list_lookup_fmap.
Qed.

Lemma forma_zip (g : T -> T -> T) p q a b :
  forma p q a -> forma p q b -> forma p q (zip_with (zip_with g) a b).
Proof.
  intros [La Fa] [Lb Fb]. split.
  - rewrite length_zip_with. lia.
  - apply Forall_lookup. intros i f Hi.
    apply lookup_zip_with_Some in Hi as (fa & fb & -> & Ha & Hb).
    rewrite length_zip_with.
    rewrite (proj1 (Forall_lookup _ _) Fa i fa Ha), (proj1 (Forall_lookup _ _) Fb i fb Hb).
    lia.
Qed.

Lemma forma_por p q x a : forma p q a -> forma p q (por x a).
Proof.
  intros [La Fa]. split.
  - unfold por. rewrite length_fmap. exact La.
  - apply Forall_lookup. intros i f Hi. unfold por in Hi.
    rewrite list_lookup_fmap in Hi.
    destruct (a !! i) as [fa|] eqn:Ha; simpl in Hi; [|discriminate].
    injection Hi as <-. rewrite length_fmap.
    exact (proj1 (Forall_lookup _ _) Fa i fa Ha).
Qed.

Lemma forma_sub_interior fi ff ci cf k v :
  (forall (A : Type) (l : list A), (2 <= length l)%nat ->
     length (rebanada fi ff l) = (length l - 2)%nat) ->
  (forall (A : Type) (l : list A), (2 <= length l)%nat ->
     length (rebanada ci cf l) = (length l - 2)%nat) ->
  (forall (A : Type) (l : list A) x, x ∈ rebanada fi ff l -> x ∈ l) ->
  (2 <= k)%nat -> es_malla k v -> forma (k - 2) (k - 2) (sub fi ff ci cf v).
Proof.
  intros Hf Hc Hin Hk [Lv Fv]. split.
  - unfold sub. rewrite length_fmap, Hf by lia. lia.
  - unfold sub. apply Forall_fmap, Forall_forall. intros f Hfv. simpl.
    assert (length f = k) as Lf.
    { exact (proj1 (Forall_forall _ _) Fv f (Hin _ _ _ Hfv)). }
    rewrite Hc by lia. lia.
Qed.

Lemma rebanada_elem {A : Type} ini fin (l : list A) x : x ∈ rebanada ini fin l -> x ∈ l.
Proof.
  unfold rebanada. intros Hx.
  apply list_elem_of_lookup in Hx as [i Hi].
  apply lookup_take_Some in Hi as [Hi _].
  rewrite lookup_drop in Hi. apply list_elem_of_lookup. eauto.
Qed.

Lemma celda_sub_cuadrada fi ff ci cf k v i j (di dj : nat) :
  (forall (A : Type) (l : list A) i, (i < length l - 2)%nat ->
     rebanada fi ff l !! i = l !! (di + i)%nat) ->
  (forall (A : Type) (l : list A) i, (i < length l - 2)%nat ->
     rebanada ci cf l !! i = l !! (dj + i)%nat) ->
  (di <= 2)%nat -> (dj <= 2)%nat ->
  es_malla k v -> (i < k - 2)%nat -> (j < k - 2)%nat ->
  celda (sub fi ff ci cf v) i j = Some (cel v (di + i) (dj + j)).
Proof.
  intros Hf Hc Hdi Hdj Hv Hi Hj. rewrite celda_sub_gen.
  pose proof Hv as [Lv Fv].
  rewrite Hf by lia.
  destruct (lookup_lt_is_Some_2 v (di + i)) as [f Hfi]; [lia|].
  rewrite Hfi. simpl.
  pose proof (forma_fila _ _ _ _ _ Hv Hfi) as Lf.
  rewrite Hc by lia.
  rewrite <- (celda_forma k k v (di + i) (dj + j)) by (done || lia).
  unfold celda. rewrite Hfi. reflexivity.
Qed.


Lemma celda_interior_nuevo x k v i j :
  es_malla k v -> (i < k - 2)%nat -> (j < k - 2)%nat ->
  celda (interior_nuevo x v) i j = Some (plantilla x v (S i) (S j)).
Proof.
  intros Hv Hi Hj. unfold interior_nuevo.
  rewrite celda_mas, celda_por, celda_menos, !celda_mas, celda_por.
  rewrite (celda_sub_cuadrada b1 bm1 b1 bm1 k v i j 1 1);
    auto using @lookup_rebanada_1_m1.
  rewrite (celda_sub_cuadrada b2 None b1 bm1 k v i j 2 1);
    auto using @lookup_rebanada_1_m1, @lookup_rebanada_2_fin.
  rewrite (celda_sub_cuadrada None bm2 b1 bm1 k v i j 0 1);
    auto using @lookup_rebanada_1_m1, @lookup_rebanada_ini_m2 with lia.
  rewrite (celda_sub_cuadrada b1 bm1 b2 None k v i j 1 2);
    auto using @lookup_rebanada_1_m1, @lookup_rebanada_2_fin.
  rewrite (celda_sub_cuadrada b1 bm1 None bm2 k v i j 1 0);
    auto using @lookup_rebanada_1_m1, @lookup_rebanada_ini_m2 with lia.
  simpl. unfold plantilla.
  replace (S i + 1)%nat with (S (S i)) by lia.
  replace (S j + 1)%nat with (S (S j)) by lia.
  replace (S i - 1)%nat with i by lia.
  replace (S j - 1)%nat with j by lia.
  reflexivity.
Qed.

Lemma forma_interior_nuevo x k v :
  (2 <= k)%nat -> es_malla k v -> forma (k - 2) (k - 2) (interior_nuevo x v).
Proof.
  intros Hk Hv. unfold interior_nuevo, mas, menos.
  repeat first
    [ apply forma_zip | apply forma_por
    | apply forma_sub_interior;
        eauto using @length_rebanada_1_m1, @length_rebanada_2_fin,
                    @length_rebanada_ini_m2, @rebanada_elem ].
Qed.

Lemma asignar_sub_interior k v m :
  (2 <= k)%nat -> es_malla k m -> forma (k - 2) (k - 2) v ->
  es_malla k (asignar_sub b1 bm1 b1 bm1 v m) /\
  forall i j, (1 <= i < k - 1)%nat -> (1 <= j < k - 1)%nat ->
    celda (asignar_sub b1 bm1 b1 bm1 v m) i j = celda v (i - 1) (j - 1).
Proof.
  intros Hk Hm Hv. pose proof Hm as [Lm Fm]. pose proof Hv as [Lv Fv].
  unfold asignar_sub.
  set (nuevas := zip_with (asignar_rebanada b1 bm1) v (rebanada b1 bm1 m)).
  assert (Ln : length nuevas = (length m - 2)%nat).
  { unfold nuevas. rewrite length_zip_with, length_rebanada_1_m1 by lia. lia. }
  assert (Hfilas : forall i f, nuevas !! i = Some f ->
            exists fv fm, v !! i = Some fv /\ m !! S i = Some fm /\
                          f = asignar_rebanada b1 bm1 fv fm).
  { intros i f Hi. unfold nuevas in Hi.
    apply lookup_zip_with_Some in Hi as (fv & fm & -> & Hfv & Hfm).
    exists fv, fm. split; [done|]. split; [|done].
    rewrite <- Hfm. symmetry. apply lookup_rebanada_1_m1.
    apply lookup_lt_Some in Hfv. lia. }
  split.
  - split.
    + rewrite length_asignar_rebanada_1_m1; lia.
    + apply Forall_lookup. intros i f Hi.
      rewrite lookup_asignar_rebanada_1_m1 in Hi by lia.
      destruct (decide (i = 0)%nat).
      { exact (forma_fila _ _ _ _ _ Hm Hi). }
      destruct (decide (i < length m - 1)%nat).
      2:{ exact (forma_fila _ _ _ _ _ Hm Hi). }
      apply Hfilas in Hi as (fv & fm & Hfv & Hfm & ->).
      pose proof (forma_fila _ _ _ _ _ Hm Hfm) as Lfm.
      pose proof (forma_fila _ _ _ _ _ Hv Hfv) as Lfv.
      rewrite length_asignar_rebanada_1_m1; lia.
  - intros i j Hi Hj. unfold celda at 1.
    rewrite lookup_asignar_rebanada_1_m1 by lia.
    destruct (decide (i = 0)%nat); [lia|].
    destruct (decide (i < length m - 1)%nat); [|lia].
    destruct (lookup_lt_is_Some_2 nuevas (i - 1)) as [f Hf]; [lia|].
    rewrite Hf. simpl.
    apply Hfilas in Hf as (fv & fm & Hfv & Hfm & ->).
    pose proof (forma_fila _ _ _ _ _ Hm Hfm) as Lfm.
    pose proof (forma_fila _ _ _ _ _ Hv Hfv) as Lfv.
    rewrite lookup_asignar_rebanada_1_m1 by lia.
    destruct (decide (j = 0)%nat); [lia|].
    destruct (decide (j < length fm - 1)%nat); [|lia].
    unfold celda. rewrite Hfv. reflexivity.
Qed.

(** *** The border writes *)


Lemma indice_0 len : (1 <= len)%nat -> indice len 0 = Ok 0%nat.
Proof.
  intros Hl. unfold indice. simpl.
  destruct (Z.ltb_spec 0 (Z.of_nat len)); [reflexivity | lia].
Qed.

Lemma indice_m1 len : (1 <= len)%nat -> indice len (-1) = Ok (len - 1)%nat.
Proof.
  intros Hl. unfold indice. simpl.
  destruct (Z.leb_spec 0 (-1 + Z.of_nat len)); [|lia].
  destruct (Z.ltb_spec (-1 + Z.of_nat len) (Z.of_nat len)); [|lia].
  simpl. f_equal. lia.
Qed.

Lemma indice_vacio (z : Z) : indice 0 z = Lanza IndexError.
Proof.
  unfold indice. destruct (z <? 0) eqn:E.
  - destruct (Z.leb_spec 0 (z + Z.of_nat 0)); [|reflexivity].
    apply Z.ltb_lt in E. lia.
  - destruct (Z.leb_spec 0 z); [|reflexivity].
    destruct (Z.ltb_spec z (Z.of_nat 0)); [lia | reflexivity].
Qed.

Lemma columnas_alter (g : list T -> list T) i (m : malla T) :
  (forall f, length (g f) = length f) -> columnas (alter g i m) = columnas m.
Proof.
  intros Hg. destruct m as [|f m']; [reflexivity|].
  destruct i; simpl; [apply Hg | reflexivity].
Qed.

Lemma columnas_fmap (g : list T -> list T) (m : malla T) :
  (forall f, length (g f) = length f) -> columnas (g <$> m) = columnas m.
Proof. intros Hg. destruct m as [|f m']; [reflexivity | apply Hg]. Qed.

Lemma aplicar_contornos_explicito c m :
  _aplicar_contornos c m =
    if decide (1 <= filas m /\ 1 <= columnas m)%nat
    then Ok (bordes_fijos c m) else Lanza IndexError.
Proof.
  unfold _aplicar_contornos, fijar_fila, fijar_columna.
  destruct (decide (1 <= filas m)%nat) as [Hf|Hf].
  2:{ assert (filas m = 0%nat) as E by lia. rewrite E, indice_vacio.
      case_decide; [lia | reflexivity]. }
  rewrite indice_0 by done. simpl.
  unfold filas at 1. rewrite length_alter. fold (filas m).
  rewrite indice_m1 by done. simpl.
  rewrite !columnas_alter by (intros; apply length_replicate).
  destruct (decide (1 <= columnas m)%nat) as [Hc|Hc].
  2:{ assert (columnas m = 0%nat) as E by lia. rewrite E, indice_vacio.
      case_decide; [lia | reflexivity]. }
  rewrite indice_0 by done. simpl.
  rewrite columnas_fmap by (intros; apply length_insert).
  rewrite !columnas_alter by (intros; apply length_replicate).
  rewrite indice_m1 by done.
  case_decide; [reflexivity | lia].
Qed.

Lemma filas_bordes_fijos c m : filas (bordes_fijos c m) = filas m.
Proof. unfold bordes_fijos, filas. rewrite !length_fmap, !length_alter. reflexivity. Qed.

Lemma columnas_bordes_fijos c m : columnas (bordes_fijos c m) = columnas m.
Proof.
  unfold bordes_fijos.
  rewrite !columnas_fmap by (intros; apply length_insert).
  rewrite !columnas_alter by (intros; apply length_replicate). reflexivity.
Qed.

(** Row [i] of the array with its borders written. *)
Lemma lookup_bordes_fijos c m i :
  bordes_fijos c m !! i =
    (fun f =>
       <[(columnas m - 1)%nat := t_derecha c]>
         (<[0%nat := t_izquierda c]>
            (if decide (i = filas m - 1)%nat then replicate (length f) (t_abajo c)
             else if decide (i = 0)%nat then replicate (length f) (t_arriba c)
             else f))) <$> m !! i.
Proof.
  unfold bordes_fijos. rewrite !list_lookup_fmap.
  rewrite !list_lookup_alter.
  destruct (decide (i = filas m - 1)%nat) as [->|Hi].
  - rewrite decide_True by reflexivity.
    destruct (decide (0 = filas m - 1)%nat) as [E|E].
    + rewrite <- E. destruct (m !! 0%nat); simpl; [|reflexivity].
      rewrite length_replicate. reflexivity.
    + destruct (m !! (filas m - 1)%nat); reflexivity.
  - rewrite decide_False by (intros E; apply Hi; symmetry; exact E).
    destruct (decide (i = 0)%nat) as [->|Hi0].
    + rewrite decide_True by reflexivity. destruct (m !! 0%nat); reflexivity.
    + rewrite decide_False by (intros E; apply Hi0; symmetry; exact E).
      destruct (m !! i); reflexivity.
Qed.

Lemma bordes_fijos_idem c m : bordes_fijos c (bordes_fijos c m) = bordes_fijos c m.
Proof.
  apply list_eq. intros i.
  rewrite (lookup_bordes_fijos c (bordes_fijos c m)).
  rewrite filas_bordes_fijos, columnas_bordes_fijos.
  rewrite (lookup_bordes_fijos c m).
  destruct (m !! i) as [f|]; simpl; [|reflexivity]. f_equal.
  destruct (decide (i = filas m - 1)%nat).
  { rewrite !length_insert, length_replicate. reflexivity. }
  destruct (decide (i = 0)%nat).
  { rewrite !length_insert, length_replicate. reflexivity. }
  destruct (decide (columnas m - 1 = 0)%nat) as [E|E].
  - rewrite E. rewrite !list_insert_insert_eq. reflexivity.
  - rewrite (list_insert_insert_ne _ 0%nat (columnas m - 1)%nat) by (intros E'; apply E; symmetry; exact E').
    rewrite !list_insert_insert_eq. reflexivity.
Qed.


Lemma columnas_forma p q m : forma p q m -> (1 <= p)%nat -> columnas m = q.
Proof.
  intros [Lm Fm] Hp. destruct m as [|f m']; simpl in *; [lia|].
  exact (Forall_inv Fm).
Qed.

Lemma forma_bordes_fijos c p q m : forma p q m -> forma p q (bordes_fijos c m).
Proof.
  intros [Lm Fm]. split.
  - rewrite <- Lm. apply filas_bordes_fijos.
  - apply Forall_lookup. intros i f Hi.
    rewrite lookup_bordes_fijos in Hi.
    destruct (m !! i) as [g|] eqn:Hg; simpl in Hi; [|discriminate].
    injection Hi as <-.
    pose proof (proj1 (Forall_lookup _ _) Fm i g Hg) as Lg.
    rewrite !length_insert.
    repeat case_decide; rewrite ?length_replicate; exact Lg.
Qed.

Lemma celda_bordes_fijos c p q m i j :
  forma p q m -> (i < p)%nat -> (j < q)%nat ->
  celda (bordes_fijos c m) i j = Some (valor_borde c p q i j (cel m i j)).
Proof.
  intros Hm Hi Hj. pose proof Hm as [Lm Fm].
  pose proof (celda_forma p q m i j Hm Hi Hj) as Hx.
  generalize dependent (cel m i j). intros x Hx.
  unfold celda in *. rewrite lookup_bordes_fijos.
  rewrite (columnas_forma p q m Hm) by lia.
  unfold filas. rewrite Lm.
  destruct (m !! i) as [f|] eqn:Hf; simpl in *; [|discriminate].
  pose proof (forma_fila _ _ _ _ _ Hm Hf) as Lf.
  unfold valor_borde.
  rewrite list_lookup_insert, length_insert.
  destruct (decide (j = q - 1)%nat) as [->|Hjq].
  { rewrite decide_True; [reflexivity|].
    split; [reflexivity|].
    repeat case_decide; rewrite ?length_replicate; lia. }
  rewrite decide_False by (intros [E _]; apply Hjq; symmetry; exact E).
  rewrite list_lookup_insert.
  destruct (decide (j = 0)%nat) as [->|Hj0].
  { rewrite decide_True; [reflexivity|].
    split; [reflexivity|].
    repeat case_decide; rewrite ?length_replicate; lia. }
  rewrite decide_False by (intros [E _]; apply Hj0; symmetry; exact E).
  destruct (decide (i = p - 1)%nat).
  { rewrite lookup_replicate_2 by lia. reflexivity. }
  destruct (decide (i = 0)%nat).
  { rewrite lookup_replicate_2 by lia. reflexivity. }
  exact Hx.
Qed.

(** On a non-empty array the border writes succeed. *)
Lemma aplicar_contornos_forma c p q m :
  forma p q m -> (1 <= p)%nat -> (1 <= q)%nat ->
  _aplicar_contornos c m = Ok (bordes_fijos c m).
Proof.
  intros Hm Hp Hq. rewrite aplicar_contornos_explicito.
  rewrite (columnas_forma p q m Hm Hp). unfold filas.
  destruct Hm as [-> _]. case_decide; [reflexivity | lia].
Qed.



(** *** One step *)

Lemma actualizar_paso_siguiente e k :
  (2 <= k)%nat -> es_malla k (u e) ->
  actualizar_paso e = Ok (siguiente e) /\ es_malla k (u (siguiente e)).
Proof.
  intros Hk Hu. unfold actualizar_paso, siguiente. simpl.
  destruct (asignar_sub_interior k (interior_nuevo (r e) (u e)) (u e) Hk Hu
              (forma_interior_nuevo (r e) k (u e) Hk Hu)) as [Hs _].
  rewrite (aplicar_contornos_forma (cfg e) k k _ Hs) by lia. simpl.
  split; [reflexivity|]. apply forma_bordes_fijos. exact Hs.
Qed.

(** Every cell after the step, from the array before it. *)
Lemma celda_siguiente e k i j :
  (2 <= k)%nat -> es_malla k (u e) -> (i < k)%nat -> (j < k)%nat ->
  celda (u (siguiente e)) i j =
    Some (valor_borde (cfg e) k k i j (plantilla (r e) (u e) i j)).
Proof.
  intros Hk Hu Hi Hj. unfold siguiente. simpl.
  destruct (asignar_sub_interior k (interior_nuevo (r e) (u e)) (u e) Hk Hu
              (forma_interior_nuevo (r e) k (u e) Hk Hu)) as [Hs Hc].
  rewrite (celda_bordes_fijos (cfg e) k k _ i j Hs Hi Hj).
  f_equal. unfold valor_borde.
  repeat (case_decide; [reflexivity|]).
  unfold cel at 1. rewrite Hc by lia.
  rewrite (celda_interior_nuevo (r e) k (u e) (i - 1) (j - 1) Hu) by lia.
  simpl. replace (S (i - 1)) with i by lia. replace (S (j - 1)) with j by lia.
  reflexivity.
Qed.

Lemma contornos_siguiente e k :
  (2 <= k)%nat -> es_malla k (u e) -> contornos_puestos (cfg e) k (u (siguiente e)).
Proof.
  intros Hk Hu i j Hi Hj.
  rewrite (celda_siguiente e k i j Hk Hu Hi Hj). unfold valor_borde.
  repeat split; intros; repeat case_decide; try reflexivity; lia.
Qed.

(** *** Several steps *)

Lemma pasos_sucesivos_ok q e k :
  (2 <= k)%nat -> es_malla k (u e) ->
  exists e', pasos_sucesivos q e = Ok e' /\ es_malla k (u e') /\
    cfg e' = cfg e /\ dt e' = dt e /\ r e' = r e /\
    iteracion e' = iteracion e + Z.of_nat q /\
    ((1 <= q)%nat -> contornos_puestos (cfg e) k (u e')).
Proof.
  intros Hk. revert e. induction q as [|q IH]; intros e Hu.
  - exists e. simpl.
    split; [reflexivity|]. split; [exact Hu|].
    do 3 (split; [reflexivity|]). split; lia.
  - destruct (actualizar_paso_siguiente e k Hk Hu) as [Hp Hs].
    destruct (IH (siguiente e) Hs) as (e' & He' & Hu' & Hc & Hd & Hr & Hi & Hb).
    exists e'. simpl. rewrite Hp. simpl.
    split; [exact He'|]. split; [exact Hu'|].
    do 3 (split; [assumption|]). split.
    + simpl in Hi. lia.
    + intros _. destruct q as [|q'].
      * simpl in He'. injection He' as <-. apply contornos_siguiente; done.
      * apply Hb. lia.
Qed.



Lemma actualizar_paso_conserva e e' :
  actualizar_paso e = Ok e' -> cfg e' = cfg e /\ dt e' = dt e /\ r e' = r e.
Proof.
  unfold actualizar_paso. intros Hp.
  destruct (_aplicar_contornos (cfg e) _) as [m'|]; simpl in Hp; [|discriminate].
  injection Hp as <-. simpl. repeat split; reflexivity.
Qed.

Lemma pasos_sucesivos_conserva q e e' :
  pasos_sucesivos q e = Ok e' -> cfg e' = cfg e /\ dt e' = dt e /\ r e' = r e.
Proof.
  revert e. induction q as [|q IH]; intros e Hq; simpl in Hq.
  - injection Hq as <-. repeat split; reflexivity.
  - destruct (actualizar_paso e) as [e1|] eqn:Hp; simpl in Hq; [|discriminate].
    destruct (actualizar_paso_conserva e e1 Hp) as (Hc & Hd & Hr).
    destruct (IH e1 Hq) as (Hc' & Hd' & Hr').
    rewrite Hc', Hd', Hr'. repeat split; assumption.
Qed.

(** *** The run loop *)

Lemma renders_app (t1 t2 : list (@evento T)) : renders (t1 ++ t2) = renders t1 ++ renders t2.
Proof. unfold renders. apply omap_app. Qed.

Lemma renders_eventos_bucle (c : @ConfiguracionSimulacion T) its :
  renders (eventos_bucle c its) = List.filter (toca_render (cada_render c)) its.
Proof.
  induction its as [|it its IH]; [reflexivity|].
  unfold eventos_bucle in *. simpl.
  destruct (toca_render (cada_render c) it); simpl.
  - unfold renders in *. simpl. f_equal. exact IH.
  - exact IH.
Qed.

Lemma bucle_ok (colorama : bool) q e k tr :
  (2 <= k)%nat -> es_malla k (u e) -> cada_render (cfg e) <> 0 ->
  time_sleep (pausa (cfg e)) = Ok tt ->
  (forall (j : nat) ej, (1 <= j <= q)%nat ->
     toca_render (cada_render (cfg e)) (iteracion e + Z.of_nat j) = true ->
     pasos_sucesivos j e = Ok ej ->
     exists f, renderizar_terminal colorama ej = Ok f) ->
  exists e', pasos_sucesivos q e = Ok e' /\
    bucle colorama q e tr =
      Ok (e', tr ++ eventos_bucle (cfg e) (seqZ (iteracion e + 1) (Z.of_nat q))).
Proof.
  intros Hk. revert e tr. induction q as [|q IH]; intros e tr Hu Hcr Hsl Hre.
  - exists e. split; [reflexivity|]. simpl. rewrite app_nil_r. reflexivity.
  - destruct (actualizar_paso_siguiente e k Hk Hu) as [Hp Hs].
    assert (Hcr' : cada_render (cfg (siguiente e)) <> 0) by exact Hcr.
    assert (Hsl' : time_sleep (pausa (cfg (siguiente e))) = Ok tt) by exact Hsl.
    assert (Hre' : forall (j : nat) ej, (1 <= j <= q)%nat ->
              toca_render (cada_render (cfg (siguiente e)))
                (iteracion (siguiente e) + Z.of_nat j) = true ->
              pasos_sucesivos j (siguiente e) = Ok ej ->
              exists f, renderizar_terminal colorama ej = Ok f).
    { intros j ej Hj Ht Hj'. apply (Hre (S j) ej); [lia| |].
      - change (iteracion (siguiente e)) with (iteracion e + 1) in Ht.
        change (cfg (siguiente e)) with (cfg e) in Ht.
        replace (iteracion e + Z.of_nat (S j)) with (iteracion e + 1 + Z.of_nat j) by lia.
        exact Ht.
      - cbn [pasos_sucesivos]. rewrite Hp. exact Hj'. }
    set (tr1 := if toca_render (cada_render (cfg e)) (iteracion e + 1)
                then tr ++ [Render (iteracion e + 1); Pausa (pausa (cfg e))]
                else tr).
    destruct (IH (siguiente e) tr1 Hs Hcr' Hsl' Hre') as (e' & He' & Hb).
    exists e'. split.
    + simpl. rewrite Hp. exact He'.
    + cbn [bucle]. rewrite Hp. cbn [mbind resultado_bind].
      unfold py_mod. destruct (Z.eqb_spec (cada_render (cfg (siguiente e))) 0) as [E|_].
      { simpl in E. lia. }
      cbn [mbind resultado_bind].
      change (iteracion (siguiente e)) with (iteracion e + 1) in *.
      change (cfg (siguiente e)) with (cfg e) in *.
      fold (toca_render (cada_render (cfg e)) (iteracion e + 1)).
      assert (Hfin : tr1 ++ eventos_bucle (cfg e) (seqZ (iteracion e + 1 + 1) (Z.of_nat q))
                     = tr ++ eventos_bucle (cfg e) (seqZ (iteracion e + 1) (Z.of_nat (S q)))).
      { rewrite (seqZ_cons (iteracion e + 1) (Z.of_nat (S q))) by lia.
        replace (Z.pred (Z.of_nat (S q))) with (Z.of_nat q) by lia.
        replace (Z.succ (iteracion e + 1)) with (iteracion e + 1 + 1) by lia.
        unfold eventos_bucle at 2. cbn [flat_map]. fold (eventos_bucle (cfg e)).
        unfold tr1. destruct (toca_render _ _).
        - rewrite <- app_assoc. reflexivity.
        - reflexivity. }
      rewrite <- Hfin. unfold tr1 in *.
      destruct (toca_render (cada_render (cfg e)) (iteracion e + 1)) eqn:Ht.
      * destruct (Hre 1%nat (siguiente e) ltac:(lia)) as [f Hf].
        { replace (iteracion e + Z.of_nat 1) with (iteracion e + 1) by lia. exact Ht. }
        { cbn [pasos_sucesivos]. rewrite Hp. reflexivity. }
        rewrite Hf. cbn [mbind resultado_bind]. rewrite Hsl.
        cbn [mbind resultado_bind]. exact Hb.
      * exact Hb.
Qed.

(** *** The initial plate *)

Lemma forma_ceros k : es_malla k (replicate k (replicate k (cero (T:=T)))).
Proof.
  split; [apply length_replicate|].
  apply Forall_forall. intros f Hf.
  apply elem_of_replicate in Hf as [-> _]. apply length_replicate.
Qed.

Lemma celda_ceros k i j :
  (i < k)%nat -> (j < k)%nat ->
  celda (replicate k (replicate k (cero (T:=T)))) i j = Some cero.
Proof.
  intros Hi Hj. unfold celda.
  rewrite lookup_replicate_2 by exact Hi. simpl.
  apply lookup_replicate_2. exact Hj.
Qed.

Lemma inicializar_placa_ok (c : @ConfiguracionSimulacion T) :
  1 <= n c ->
  inicializar_placa c =
    Ok (bordes_fijos c (replicate (Z.to_nat (n c)) (replicate (Z.to_nat (n c)) cero))).
Proof.
  intros Hn. unfold inicializar_placa, np_zeros.
  destruct (Z.ltb_spec (n c) 0); [lia|]. simpl.
  apply (aplicar_contornos_forma c (Z.to_nat (n c)) (Z.to_nat (n c))); [|lia|lia].
  apply forma_ceros.
Qed.

End Mallas.

(** ** The claims that hold for every arithmetic *)

Section Estructura.
Context {T : Type} `{Numerico T}.

(** C1.  On an engine whose grid is N x N with N >= 3, [actualizar_paso]
    returns; every interior cell (i, j), 1 <= i, j <= N-2, of the new grid is
    old[i,j] + r * (old[i+1,j] + old[i-1,j] + old[i,j+1] + old[i,j-1]
    - 4 * old[i,j]), every operand being a cell of the grid before the call;
    the iteration counter has grown by exactly 1. *)
Theorem actualizar_paso_plantilla (e : @DifusionCalor2D T) (N : nat) :
  (3 <= N)%nat -> es_malla N (u e) ->
  exists e', actualizar_paso e = Ok e' /\ es_malla N (u e') /\
    (forall i j : nat, (1 <= i <= N - 2)%nat -> (1 <= j <= N - 2)%nat ->
       celda (u e') i j =
         Some (suma (cel (u e) i j)
                 (mult (r e)
                    (resta
                       (suma (suma (suma (cel (u e) (i + 1) j) (cel (u e) (i - 1) j))
                                   (cel (u e) i (j + 1)))
                             (cel (u e) i (j - 1)))
                       (mult (lit 4 1) (cel (u e) i j)))))) /\
    iteracion e' = iteracion e + 1.
Proof.
  intros HN Hu.
  destruct (actualizar_paso_siguiente e N ltac:(lia) Hu) as [Hp Hs].
  exists (siguiente e). split; [exact Hp|]. split; [exact Hs|]. split; [|reflexivity].
  intros i j Hi Hj.
  rewrite (celda_siguiente e N i j) by (done || lia).
  unfold valor_borde. repeat (case_decide; [lia|]). reflexivity.
Qed.

(** C3.  For a configuration with n >= 3, [inicializar_placa] returns an
    n x n grid whose interior cells are all 0 and whose edges hold the
    configured temperatures (corners: those of the columns); and on any engine
    started with that grid, whatever its dt and r, every number of calls of
    [actualizar_paso] returns a grid whose edges still hold them. *)
Theorem contornos_invariantes (c : @ConfiguracionSimulacion T) :
  3 <= n c ->
  exists g0, inicializar_placa c = Ok g0 /\
    es_malla (Z.to_nat (n c)) g0 /\
    (forall i j : nat, (1 <= i <= Z.to_nat (n c) - 2)%nat ->
                       (1 <= j <= Z.to_nat (n c) - 2)%nat ->
       celda g0 i j = Some (lit 0 1)) /\
    forall (dt0 r0 : T) (k : nat),
      exists ek,
        pasos_sucesivos k {| cfg := c; dt := dt0; r := r0; u := g0; iteracion := 0 |}
          = Ok ek /\
        es_malla (Z.to_nat (n c)) (u ek) /\
        contornos_puestos c (Z.to_nat (n c)) (u ek).
Proof.
  intros Hn. set (N := Z.to_nat (n c)).
  assert (HN : (3 <= N)%nat) by (unfold N; lia).
  exists (bordes_fijos c (replicate N (replicate N cero))).
  pose proof (forma_ceros N) as Hz.
  pose proof (forma_bordes_fijos c N N _ Hz) as Hg.
  assert (Hb : contornos_puestos c N (bordes_fijos c (replicate N (replicate N cero)))).
  { intros i j Hi Hj. rewrite (celda_bordes_fijos c N N _ i j Hz Hi Hj).
    unfold valor_borde.
    repeat split; intros; repeat case_decide; try reflexivity; lia. }
  split; [apply inicializar_placa_ok; lia|]. split; [exact Hg|]. split.
  - intros i j Hi Hj.
    rewrite (celda_bordes_fijos c N N _ i j Hz) by lia.
    unfold valor_borde. repeat (case_decide; [lia|]).
    unfold cel. rewrite celda_ceros by lia. reflexivity.
  - intros dt0 r0 k.
    destruct (pasos_sucesivos_ok k
                {| cfg := c; dt := dt0; r := r0;
                   u := bordes_fijos c (replicate N (replicate N cero));
                   iteracion := 0 |} N ltac:(lia) Hg)
      as (ek & Hk & Hu & _ & _ & _ & _ & Hc).
    exists ek. split; [exact Hk|]. split; [exact Hu|].
    destruct k as [|k'].
    + simpl in Hk. injection Hk as <-. exact Hb.
    + apply Hc. lia.
Qed.

(** C5 (with the condition it needs).  On an engine at iteration 0 whose
    configuration has pasos > 0 and cada_render > 0, provided that the pause
    is one [time.sleep] accepts and that every frame of the run can be drawn
    ([cuadros_dibujables]), [ejecutar] returns the state reached by exactly
    [pasos] successive calls of [actualizar_paso]; in the loop it draws a
    frame (followed by the pause) exactly at the iterations k of 1..pasos
    with k % cada_render == 0 or k == 1, and after the loop it draws one more
    frame, of iteration [pasos], whether or not that iteration was drawn in
    the loop. *)
Theorem ejecutar_traza (colorama : bool) (e : @DifusionCalor2D T) (N : nat) :
  (3 <= N)%nat -> es_malla N (u e) -> iteracion e = 0 ->
  0 < pasos (cfg e) -> 0 < cada_render (cfg e) ->
  time_sleep (pausa (cfg e)) = Ok tt ->
  cuadros_dibujables colorama e ->
  exists e' tr, ejecutar colorama e = Ok (e', tr) /\
    pasos_sucesivos (Z.to_nat (pasos (cfg e))) e = Ok e' /\
    iteracion e' = pasos (cfg e) /\
    tr = flat_map (fun k => if (k mod cada_render (cfg e) =? 0) || (k =? 1)
                            then [Render k; Pausa (pausa (cfg e))] else [])
                  (seqZ 1 (pasos (cfg e)))
         ++ [Render (pasos (cfg e)); Fin] /\
    renders tr =
      List.filter (fun k => (k mod cada_render (cfg e) =? 0) || (k =? 1))
                  (seqZ 1 (pasos (cfg e)))
      ++ [pasos (cfg e)].
Proof.
  intros HN Hu Hit Hp Hcr Hsl Hdib.
  destruct (bucle_ok colorama (Z.to_nat (pasos (cfg e))) e N [] ltac:(lia) Hu
              ltac:(lia) Hsl) as (e' & He' & Hb).
  { intros j ej Hj Ht Hs. apply (Hdib j ej); [lia | left; split; [lia | exact Ht] | exact Hs]. }
  destruct (pasos_sucesivos_ok (Z.to_nat (pasos (cfg e))) e N ltac:(lia) Hu)
    as (e'' & He'' & _ & _ & _ & _ & Hi & _).
  rewrite He' in He''. injection He'' as <-.
  assert (Hfin : iteracion e' = pasos (cfg e)) by lia.
  destruct (Hdib (Z.to_nat (pasos (cfg e))) e' ltac:(lia) ltac:(right; reflexivity) He')
    as [f Hf].
  rewrite Hit, Z2Nat.id in Hb by lia. simpl in Hb.
  exists e', (eventos_bucle (cfg e) (seqZ 1 (pasos (cfg e)))
              ++ [Render (pasos (cfg e)); Fin]).
  split; [|split; [exact He'|split; [exact Hfin|split; [reflexivity|]]]].
  - unfold ejecutar. rewrite Hb. cbn [mbind resultado_bind]. rewrite Hf.
    cbn [mbind resultado_bind]. rewrite Hfin. reflexivity.
  - rewrite renders_app, renders_eventos_bucle. reflexivity.
Qed.

(** C7.  [_aplicar_contornos] is idempotent: on every array and for every
    configuration, running it on its own result gives that result again (and
    where the first run raises, so does the pair). *)
Theorem aplicar_contornos_idempotente (c : @ConfiguracionSimulacion T) (m : malla T) :
  (_aplicar_contornos c m ≫= _aplicar_contornos c) = _aplicar_contornos c m.
Proof.
  rewrite (aplicar_contornos_explicito c m).
  case_decide as Hm; [|reflexivity].
  cbn [mbind resultado_bind].
  rewrite aplicar_contornos_explicito.
  rewrite filas_bordes_fijos, columnas_bordes_fijos.
  rewrite decide_True by exact Hm.
  rewrite bordes_fijos_idem. reflexivity.
Qed.

(** C8.  [_aplicar_contornos] is the four writes top row, bottom row, left
    column, right column, in this order; on an N x N array, N >= 2, it
    returns, and the corners (0,0) and (N-1,0) hold the left temperature, the
    corners (0,N-1) and (N-1,N-1) the right one. *)
Theorem aplicar_contornos_esquinas (c : @ConfiguracionSimulacion T) (m : malla T) (N : nat) :
  (2 <= N)%nat -> es_malla N m ->
  exists m', _aplicar_contornos c m = Ok m' /\
    (x1 ← fijar_fila 0 (t_arriba c) m;
     x2 ← fijar_fila (-1) (t_abajo c) x1;
     x3 ← fijar_columna 0 (t_izquierda c) x2;
     fijar_columna (-1) (t_derecha c) x3) = Ok m' /\
    celda m' 0 0 = Some (t_izquierda c) /\
    celda m' (N - 1) 0 = Some (t_izquierda c) /\
    celda m' 0 (N - 1) = Some (t_derecha c) /\
    celda m' (N - 1) (N - 1) = Some (t_derecha c).
Proof.
  intros HN Hm. exists (bordes_fijos c m).
  pose proof (aplicar_contornos_forma c N N m Hm ltac:(lia) ltac:(lia)) as Ha.
  split; [exact Ha|]. split.
  - exact Ha.
  - rewrite !(celda_bordes_fijos c N N m) by (done || lia).
    unfold valor_borde.
    repeat split; repeat case_decide; try reflexivity; lia.
Qed.

(** C10.  A call of [actualizar_paso] that returns leaves [cfg], [dt] and [r]
    as they were (only [u] and [iteracion] are rebuilt); and they are still
    the same after any number [k] of further calls: the time step and the
    diffusion number are fixed for the whole run. *)
Theorem actualizar_paso_marco (e e1 e' : @DifusionCalor2D T) (k : nat) :
  actualizar_paso e = Ok e1 -> pasos_sucesivos k e1 = Ok e' ->
  (cfg e1 = cfg e /\ dt e1 = dt e /\ r e1 = r e) /\
  (cfg e' = cfg e /\ dt e' = dt e /\ r e' = r e).
Proof.
  intros H1 Hk.
  destruct (actualizar_paso_conserva e e1 H1) as (Hc & Hd & Hr).
  destruct (pasos_sucesivos_conserva k e1 e' Hk) as (Hc' & Hd' & Hr').
  split; [auto|]. rewrite Hc', Hd', Hr'. auto.
Qed.

End Estructura.

(** ** The command line *)

Section LineaDeOrdenes.
Context {T : Type} `{Numerico T}.

Lemma parsear_argumentos_defectos (argv : list (string * valor)) (c : @ConfiguracionSimulacion T) :
  parsear_argumentos argv = Ok c ->
  t_arriba c = lit 100 1 /\ t_abajo c = lit 0 1 /\
  t_izquierda c = lit 30 1 /\ t_derecha c = lit 30 1.
Proof.
  unfold parsear_argumentos. intros Hc.
  destruct (parse_args argv ns_defecto) as [a|]; simpl in Hc; [|discriminate].
  repeat match type of Hc with
         | (if ?b then _ else _) = _ => destruct b; [discriminate|]
         end.
  injection Hc as <-. simpl. repeat split; reflexivity.
Qed.

Lemma parse_args_desconocida (argv : list (string * valor)) (a : @Namespace T) s v :
  In (s, v) argv ->
  (forall p, In p opciones -> String.prefix s (fst p) = false) ->
  parse_args argv a = Lanza SystemExit.
Proof.
  intros Hin Hs. revert a. induction argv as [|[s' v'] resto IH]; intros a.
  - destruct Hin.
  - simpl.
    destruct (buscar_opcion s') as [o|ex] eqn:Hb.
    2:{ unfold buscar_opcion in Hb.
        destruct (List.filter _ opciones); [|discriminate].
        destruct (List.filter _ opciones) as [|? [|? ?]]; try discriminate;
          injection Hb as <-; reflexivity. }
    destruct Hin as [E|Hin].
    + injection E as -> ->. exfalso.
      unfold buscar_opcion in Hb.
      assert (Hfil : forall g, (forall p, In p opciones -> g p = true -> String.prefix s (fst p) = true) ->
                List.filter g opciones = []).
      { intros g Hg. destruct (List.filter g opciones) as [|p l] eqn:Ef; [reflexivity|].
        assert (Hp : In p (List.filter g opciones)) by (rewrite Ef; left; reflexivity).
        apply filter_In in Hp as [Hp1 Hp2].
        specialize (Hg p Hp1 Hp2). rewrite (Hs p Hp1) in Hg. discriminate. }
      rewrite Hfil in Hb.
      2:{ intros p _ Hp. apply String.eqb_eq in Hp. rewrite <- Hp.
          clear. induction s as [|a s IHs]; [reflexivity|]. simpl.
          destruct (Ascii.ascii_dec a a); [exact IHs | congruence]. }
      rewrite Hfil in Hb; [discriminate|].
      intros p _ Hp. apply andb_true_iff in Hp as [_ Hp]. exact Hp.
    + simpl. destruct (guardar o v' a) as [a1|ex] eqn:Hg; simpl.
      * apply IH. exact Hin.
      * destruct o, v'; simpl in Hg; try discriminate; injection Hg as <-; reflexivity.
Qed.

(** C6 (as the program has it).  The parser declares options for n, alpha,
    dx, pasos, cada-render, pausa and factor-cfl only.  Every configuration
    that [parsear_argumentos] returns carries the border temperatures 100, 0,
    30 and 30 of the dataclass defaults, and an argument vector that names
    any other option (none of the declared names starts with it) makes the
    parser exit before a configuration is built. *)
Theorem parsear_argumentos_contornos_fijos (argv : list (string * valor)) :
  (forall c : @ConfiguracionSimulacion T, parsear_argumentos argv = Ok c ->
     t_arriba c = lit 100 1 /\ t_abajo c = lit 0 1 /\
     t_izquierda c = lit 30 1 /\ t_derecha c = lit 30 1) /\
  (forall s v, In (s, v) argv ->
     (forall p, In p opciones -> String.prefix s (fst p) = false) ->
     parsear_argumentos argv = Lanza SystemExit).
Proof.
  split.
  - intros c. apply parsear_argumentos_defectos.
  - intros s v Hin Hs. unfold parsear_argumentos.
    rewrite (parse_args_desconocida argv ns_defecto s v Hin Hs). reflexivity.
Qed.

End LineaDeOrdenes.

(** ** Exact arithmetic *)

Section Exacto.
Local Open Scope Q_scope.

Implicit Types c : @ConfiguracionSimulacion Q.

Lemma py_div_exacto (a b : Q) : ~ b == 0 -> py_div a b = Ok (a / b).
Proof.
  intros Hb. unfold py_div, cero. simpl.
  destruct (Qeq_bool b 0) eqn:E; [|reflexivity].
  apply Qeq_bool_iff in E. contradiction.
Qed.

Lemma py_pot2_exacto (a : Q) : py_pot2 a = Ok (a * a).
Proof. reflexivity. Qed.

Lemma calcular_dt_estable_exacto c :
  0 < alpha c -> 
  _calcular_dt_estable c =
    Ok (factor_seguridad_cfl c * (dx c * dx c / ((4 # 1) * alpha c))).
Proof.
  intros Ha. unfold _calcular_dt_estable. rewrite py_pot2_exacto.
  cbn [mbind resultado_bind].
  rewrite py_div_exacto; [reflexivity|]. simpl. lra.
Qed.

Lemma init_exacto c :
  config_valida c ->
  exists g0, inicializar_placa c = Ok g0 /\
    __init__ c =
      Ok {| cfg := c;
            dt := factor_seguridad_cfl c * (dx c * dx c / ((4 # 1) * alpha c));
            r := alpha c * (factor_seguridad_cfl c * (dx c * dx c / ((4 # 1) * alpha c)))
                 / (dx c * dx c);
            u := g0; iteracion := 0 |}.
Proof.
  intros (Hn & Ha & Hd & Hs0 & Hs1).
  exists (bordes_fijos c (replicate (Z.to_nat (n c)) (replicate (Z.to_nat (n c)) cero))).
  assert (Hi : inicializar_placa c = Ok (bordes_fijos c (replicate (Z.to_nat (n c)) (replicate (Z.to_nat (n c)) cero))))
    by (apply inicializar_placa_ok; lia).
  split; [exact Hi|].
  unfold __init__. rewrite calcular_dt_estable_exacto by exact Ha.
  cbn [mbind resultado_bind]. rewrite py_pot2_exacto.
  cbn [mbind resultado_bind]. rewrite py_div_exacto by nra.
  cbn [mbind resultado_bind]. rewrite Hi. reflexivity.
Qed.

(** C2 (in exact arithmetic).  For a valid configuration the constructor
    returns; the time step it stores is the one [_calcular_dt_estable]
    computes, equal to s * dx^2 / (4 * alpha); and the diffusion number
    r = alpha * dt / dx^2 satisfies 0 < r <= s / 4 <= 1 / 4 (it equals s / 4). *)
Theorem dt_estable_exacto c :
  config_valida c ->
  exists e0, __init__ c = Ok e0 /\
    _calcular_dt_estable c = Ok (dt e0) /\
    dt e0 == factor_seguridad_cfl c * (dx c * dx c) / (4 * alpha c) /\
    r e0 == alpha c * dt e0 / (dx c * dx c) /\
    r e0 == factor_seguridad_cfl c / 4 /\
    0 < r e0 /\ r e0 <= factor_seguridad_cfl c / 4 /\
    factor_seguridad_cfl c / 4 <= 1 / 4.
Proof.
  intros Hv. destruct (init_exacto c Hv) as (g0 & _ & Hi).
  destruct Hv as (Hn & Ha & Hd & Hs0 & Hs1).
  eexists. split; [exact Hi|]. cbn [dt r].
  split; [apply calcular_dt_estable_exacto; exact Ha|].
  split; [field; lra|]. split; [reflexivity|].
  assert (Hr : alpha c * (factor_seguridad_cfl c * (dx c * dx c / ((4 # 1) * alpha c)))
                 / (dx c * dx c) == factor_seguridad_cfl c / 4).
  { field. split; lra. }
  split; [exact Hr|].
  rewrite Hr. clear Hr.
  assert (E1 : factor_seguridad_cfl c / 4 == factor_seguridad_cfl c * (1 # 4)) by field.
  assert (E2 : 1 / 4 == 1 # 4) by reflexivity.
  rewrite E1, E2. repeat split; lra.
Qed.

(** *** The maximum principle *)

Lemma plantilla_acotada (x v a b p q : Q) :
  0 <= x -> 4 * x <= 1 ->
  0 <= v <= 100 -> 0 <= a <= 100 -> 0 <= b <= 100 -> 0 <= p <= 100 -> 0 <= q <= 100 ->
  0 <= v + x * (a + b + p + q - 4 * v) <= 100.
Proof. intros. split; nra. Qed.

Lemma plantilla_positiva (x v a b p q : Q) :
  0 < x -> 4 * x <= 1 -> 0 <= v -> 0 <= a -> 0 < b -> 0 <= p -> 0 <= q ->
  0 < v + x * (a + b + p + q - 4 * v).
Proof. intros. nra. Qed.

Lemma cel_siguiente (e : @DifusionCalor2D Q) k i j :
  (2 <= k)%nat -> es_malla k (u e) -> (i < k)%nat -> (j < k)%nat ->
  cel (u (siguiente e)) i j = valor_borde (cfg e) k k i j (plantilla (r e) (u e) i j).
Proof.
  intros Hk Hu Hi Hj. unfold cel at 1.
  rewrite (celda_siguiente e k i j Hk Hu Hi Hj). reflexivity.
Qed.

Lemma cel_contornos c k (m : malla Q) i j :
  contornos_puestos c k m -> (i < k)%nat -> (j < k)%nat ->
  (j = 0%nat -> cel m i j = t_izquierda c) /\
  (i = 0%nat -> (0 < j < k - 1)%nat -> cel m i j = t_arriba c).
Proof.
  intros Hc Hi Hj. destruct (Hc i j Hi Hj) as (H1 & _ & H3 & _).
  split; intros; unfold cel; [rewrite H1 | rewrite H3]; auto.
Qed.

(** One step keeps the grid within [0, 100] and makes the cell (1, 1)
    positive. *)
Lemma paso_acotado (e : @DifusionCalor2D Q) k :
  (3 <= k)%nat -> es_malla k (u e) ->
  contornos_de_referencia (cfg e) -> 0 < r e -> 4 * r e <= 1 ->
  contornos_puestos (cfg e) k (u e) -> acotada k 0 100 (u e) ->
  acotada k 0 100 (u (siguiente e)) /\ 0 < cel (u (siguiente e)) 1 1.
Proof.
  intros Hk Hu (Ha & Hb & Hl & Hd) Hr0 Hr1 Hc Hac.
  assert (Hcel : forall i j, (1 <= i <= k - 2)%nat -> (1 <= j <= k - 2)%nat ->
            cel (u (siguiente e)) i j =
              cel (u e) i j + r e * (cel (u e) (i + 1) j + cel (u e) (i - 1) j
                + cel (u e) i (j + 1) + cel (u e) i (j - 1) - (4 # 1) * cel (u e) i j)).
  { intros i j Hi Hj. rewrite (cel_siguiente e k i j) by (done || lia).
    unfold valor_borde. repeat (case_decide; [lia|]). reflexivity. }
  split.
  - intros i j Hi Hj.
    destruct (decide ((1 <= i <= k - 2)%nat /\ (1 <= j <= k - 2)%nat)) as [[Hi' Hj']|Hb'].
    + rewrite (Hcel i j Hi' Hj').
      apply plantilla_acotada; try lra; apply Hac; lia.
    + rewrite (cel_siguiente e k i j) by (done || lia).
      unfold valor_borde. repeat case_decide; try lra; lia.
  - rewrite (Hcel 1%nat 1%nat) by lia.
    destruct (cel_contornos (cfg e) k (u e) 0 1 Hc ltac:(lia) ltac:(lia)) as [_ Harr].
    simpl. rewrite (Harr eq_refl) by lia.
    pose proof (Hac 1%nat 1%nat ltac:(lia) ltac:(lia)).
    pose proof (Hac 2%nat 1%nat ltac:(lia) ltac:(lia)).
    pose proof (Hac 1%nat 2%nat ltac:(lia) ltac:(lia)).
    pose proof (Hac 1%nat 0%nat ltac:(lia) ltac:(lia)).
    apply plantilla_positiva; lra.
Qed.

Lemma pasos_acotados q (e : @DifusionCalor2D Q) k :
  (3 <= k)%nat -> es_malla k (u e) ->
  contornos_de_referencia (cfg e) -> 0 < r e -> 4 * r e <= 1 ->
  contornos_puestos (cfg e) k (u e) -> acotada k 0 100 (u e) ->
  exists e', pasos_sucesivos q e = Ok e' /\ es_malla k (u e') /\
    acotada k 0 100 (u e') /\ ((1 <= q)%nat -> 0 < cel (u e') 1 1).
Proof.
  intros Hk. revert e. induction q as [|q IH]; intros e Hu Href Hr0 Hr1 Hc Hac.
  - exists e. split; [reflexivity|]. split; [exact Hu|]. split; [exact Hac|]. lia.
  - destruct (actualizar_paso_siguiente e k ltac:(lia) Hu) as [Hp Hs].
    destruct (paso_acotado e k Hk Hu Href Hr0 Hr1 Hc Hac) as [Hac' Hpos].
    pose proof (contornos_siguiente e k ltac:(lia) Hu) as Hc'.
    destruct q as [|q'].
    + exists (siguiente e). simpl. rewrite Hp. simpl.
      split; [reflexivity|]. split; [exact Hs|]. split; [exact Hac'|]. intros _. exact Hpos.
    + destruct (IH (siguiente e) Hs Href Hr0 Hr1 Hc' Hac') as (e' & He' & Hu' & Hb' & Hp').
      exists e'. split.
      { change (pasos_sucesivos (S (S q')) e)
          with (e1 ← actualizar_paso e; pasos_sucesivos (S q') e1).
        rewrite Hp. exact He'. }
      split; [exact Hu'|]. split; [exact Hb'|]. intros _. apply Hp'. lia.
Qed.

(** *** Sums and means *)

Lemma foldl_suma_monotona (l : list Q) :
  (forall x, In x l -> 0 <= x) -> forall a, a <= foldl Qplus a l.
Proof.
  induction l as [|y l IH]; intros Hl a; simpl; [lra|].
  assert (0 <= y) by (apply Hl; left; reflexivity).
  assert (a + y <= foldl Qplus (a + y) l) by (apply IH; intros; apply Hl; right; assumption).
  lra.
Qed.

Lemma foldl_suma_positiva (l : list Q) y :
  In y l -> 0 < y -> (forall x, In x l -> 0 <= x) -> forall a, a < foldl Qplus a l.
Proof.
  induction l as [|z l IH]; intros Hy Hpos Hl a; simpl; [destruct Hy|].
  destruct Hy as [->|Hy].
  - assert (a + y <= foldl Qplus (a + y) l)
      by (apply foldl_suma_monotona; intros; apply Hl; right; assumption).
    lra.
  - assert (0 <= z) by (apply Hl; left; reflexivity).
    assert (a + z < foldl Qplus (a + z) l)
      by (apply IH; auto; intros; apply Hl; right; assumption).
    lra.
Qed.

Lemma foldl_suma_nula (l : list Q) :
  (forall x, In x l -> x == 0) -> forall a, foldl Qplus a l == a.
Proof.
  induction l as [|y l IH]; intros Hl a; simpl; [reflexivity|].
  rewrite IH by (intros; apply Hl; right; assumption).
  rewrite (Hl y) by (left; reflexivity). lra.
Qed.

(** The elements of the interior block are the interior cells. *)
Lemma en_interior k (m : malla Q) x :
  (2 <= k)%nat -> es_malla k m ->
  In x (concat (sub b1 bm1 b1 bm1 m)) ->
  exists i j, (1 <= i <= k - 2)%nat /\ (1 <= j <= k - 2)%nat /\ x = cel m i j.
Proof.
  intros Hk Hm Hx. apply in_concat in Hx as (f & Hf & Hx).
  apply list_elem_of_In, list_elem_of_lookup in Hf as [i Hi].
  apply list_elem_of_In, list_elem_of_lookup in Hx as [j Hj].
  pose proof (forma_sub_interior b1 bm1 b1 bm1 k m
                (@length_rebanada_1_m1) (@length_rebanada_1_m1)
                (fun A => @rebanada_elem A b1 bm1)
                Hk Hm) as Hs.
  pose proof (lookup_lt_Some _ _ _ Hi) as Li. destruct Hs as [Ls Fs].
  pose proof (proj1 (Forall_lookup _ _) Fs i f Hi) as Lf.
  pose proof (lookup_lt_Some _ _ _ Hj) as Lj.
  simpl in Lf. exists (S i), (S j). split; [lia|]. split; [lia|].
  pose proof (celda_sub_cuadrada b1 bm1 b1 bm1 k m i j 1 1
                (@lookup_rebanada_1_m1) (@lookup_rebanada_1_m1)
                ltac:(lia) ltac:(lia) Hm ltac:(lia) ltac:(lia)) as Hc.
  unfold celda in Hc at 1. rewrite Hi in Hc. simpl in Hc. rewrite Hj in Hc.
  injection Hc as ->. reflexivity.
Qed.

Lemma interior_contiene k (m : malla Q) :
  (3 <= k)%nat -> es_malla k m -> In (cel m 1 1) (concat (sub b1 bm1 b1 bm1 m)).
Proof.
  intros Hk Hm.
  pose proof (celda_sub_cuadrada b1 bm1 b1 bm1 k m 0 0 1 1
                (@lookup_rebanada_1_m1) (@lookup_rebanada_1_m1)
                ltac:(lia) ltac:(lia) Hm ltac:(lia) ltac:(lia)) as Hc.
  unfold celda in Hc.
  destruct (sub b1 bm1 b1 bm1 m !! 0%nat) as [f|] eqn:Hf; simpl in Hc; [|discriminate].
  apply in_concat. exists f. split; apply list_elem_of_In, list_elem_of_lookup; eauto.
Qed.

Lemma media_interior_positiva k (m : malla Q) :
  (3 <= k)%nat -> es_malla k m -> acotada k 0 100 m -> 0 < cel m 1 1 ->
  0 < media_interior m.
Proof.
  intros Hk Hm Hac Hpos. unfold media_interior, np_mean, np_sum. simpl.
  pose proof (interior_contiene k m Hk Hm) as Hin.
  assert (Hs : 0 < foldl Qplus 0 (concat (sub b1 bm1 b1 bm1 m))).
  { apply (foldl_suma_positiva _ (cel m 1 1)); [exact Hin | exact Hpos |].
    intros x Hx. apply (en_interior k) in Hx as (i & j & Hi & Hj & ->); [|lia|exact Hm].
    apply Hac; lia. }
  assert (Hl : (0 < length (concat (sub b1 bm1 b1 bm1 m)))%nat).
  { destruct (concat (sub b1 bm1 b1 bm1 m)); [destruct Hin | simpl; lia]. }
  apply Qlt_shift_div_l; [|lra].
  unfold Qlt. simpl. lia.
Qed.

Lemma media_interior_nula k (m : malla Q) :
  (2 <= k)%nat -> es_malla k m ->
  (forall i j : nat, (1 <= i <= k - 2)%nat -> (1 <= j <= k - 2)%nat -> cel m i j == 0) ->
  media_interior m == 0.
Proof.
  intros Hk Hm Hz. unfold media_interior, np_mean, np_sum. simpl.
  rewrite foldl_suma_nula.
  - unfold Qdiv. lra.
  - intros x Hx. apply (en_interior k) in Hx as (i & j & Hi & Hj & ->); auto.
Qed.

(** *** The reference scenario *)

Lemma placa_inicial_exacta c (k : nat) :
  k = Z.to_nat (n c) -> (3 <= k)%nat -> contornos_de_referencia c ->
  let g0 := bordes_fijos c (replicate k (replicate k cero)) in
  es_malla k g0 /\ contornos_puestos c k g0 /\ acotada k 0 100 g0 /\
  (forall i j : nat, (1 <= i <= k - 2)%nat -> (1 <= j <= k - 2)%nat -> cel g0 i j = 0).
Proof.
  intros -> Hk (Ha & Hb & Hl & Hd). set (k := Z.to_nat (n c)) in *. intros g0.
  pose proof (forma_ceros (T:=Q) k) as Hz.
  assert (Hcel : forall i j, (i < k)%nat -> (j < k)%nat ->
            cel g0 i j = valor_borde c k k i j 0).
  { intros i j Hi Hj. unfold cel at 1, g0.
    rewrite (celda_bordes_fijos c k k _ i j Hz Hi Hj).
    unfold cel. rewrite celda_ceros by lia. reflexivity. }
  split; [apply forma_bordes_fijos; exact Hz|]. split; [|split].
  - intros i j Hi Hj. unfold g0.
    rewrite (celda_bordes_fijos c k k _ i j Hz Hi Hj). unfold valor_borde.
    repeat split; intros; repeat case_decide; try reflexivity; lia.
  - intros i j Hi Hj. rewrite (Hcel i j Hi Hj). unfold valor_borde.
    repeat case_decide; lra.
  - intros i j Hi Hj. rewrite (Hcel i j) by lia. unfold valor_borde.
    repeat (case_decide; [lia|]). reflexivity.
Qed.

(** C4 (in exact arithmetic).  For a valid configuration with the border
    temperatures 100, 0, 30, 30 the constructor returns an engine whose
    interior mean is 0; every number k of steps returns, every cell of the
    grid then lies within [0, 100], and from the first step on (k >= 1) the
    mean of the interior cells is strictly positive. *)
Theorem principio_del_maximo_exacto c :
  config_valida c -> contornos_de_referencia c ->
  exists e0, __init__ c = Ok e0 /\
    media_interior (u e0) == 0 /\
    forall k : nat, exists ek, pasos_sucesivos k e0 = Ok ek /\
      (forall i j : nat, (i < Z.to_nat (n c))%nat -> (j < Z.to_nat (n c))%nat ->
         0 <= cel (u ek) i j /\ cel (u ek) i j <= 100) /\
      ((1 <= k)%nat -> 0 < media_interior (u ek)).
Proof.
  intros Hv Href.
  destruct (init_exacto c Hv) as (g0 & Hg0 & Hi).
  destruct Hv as (Hn & Ha & Hd & Hs0 & Hs1).
  rewrite inicializar_placa_ok in Hg0 by lia. injection Hg0 as <-.
  set (N := Z.to_nat (n c)) in *.
  assert (HN : (3 <= N)%nat) by (unfold N; lia).
  destruct (placa_inicial_exacta c N eq_refl HN Href) as (Hm & Hc & Hac & Hz).
  match type of Hi with _ = Ok ?e => set (e0 := e) in * end.
  exists e0. split; [exact Hi|].
  change (u e0) with (bordes_fijos c (replicate N (replicate N cero))) in *.
  split.
  { apply (media_interior_nula N); [lia | exact Hm |].
    intros i j Hi' Hj'. rewrite (Hz i j Hi' Hj'). reflexivity. }
  intros k.
  assert (Hr : r e0 == factor_seguridad_cfl c * (1 # 4)).
  { unfold e0. cbn [r]. field. split; lra. }
  destruct (pasos_acotados k e0 N HN Hm Href) as (ek & Hk & Hu & Hb & Hp).
  { rewrite Hr. lra. }
  { rewrite Hr. lra. }
  { exact Hc. }
  { exact Hac. }
  exists ek. split; [exact Hk|]. split; [exact Hb|].
  intros Hk1. apply (media_interior_positiva N); auto.
Qed.

(** *** The level of a cell *)

(** Over the rationals the level computation returns for every argument, is 0
    when max <= min, is the quotient clamped to [0, 1] otherwise, and always
    lies within [0, 1]. *)
Lemma nivel_exacto (temp t_min t_max : Q) :
  exists nv, nivel temp t_min t_max = Ok nv /\
    (t_max <= t_min -> nv = 0) /\
    (t_min < t_max ->
       let q := (temp - t_min) / (t_max - t_min) in
       (q <= 0 -> nv == 0) /\ (0 <= q <= 1 -> nv == q) /\ (1 <= q -> nv == 1)) /\
    0 <= nv <= 1.
Proof.
  unfold nivel. cbn [menor_igual exacto].
  destruct (Qle_bool t_max t_min) eqn:Hle.
  - apply Qle_bool_iff in Hle. exists 0. split; [reflexivity|].
    split; [reflexivity|]. split; [intros; lra|]. lra.
  - assert (Hlt : t_min < t_max).
    { apply Qnot_le_lt. intros Hc. apply Qle_bool_iff in Hc. congruence. }
    rewrite py_div_exacto by (cbn [resta exacto]; lra).
    cbn [mbind resultado_bind resta divi exacto].
    set (q := (temp - t_min) / (t_max - t_min)).
    unfold np_clip. cbn [es_nan menor lit exacto].
    assert (H01 : Qle_bool (1 # 1) (0 # 1) = false) by reflexivity.
    destruct (Qle_bool q (0 # 1)) eqn:H0; cbn [negb].
    + apply Qle_bool_iff in H0. rewrite H01. cbn [negb].
      exists (0 # 1). split; [reflexivity|]. split; [intros; lra|].
      split; [|lra]. intros _. repeat split; intros; lra.
    + assert (Hq0 : 0 < q).
      { apply Qnot_le_lt. intros Hc. apply Qle_bool_iff in Hc. congruence. }
      destruct (Qle_bool (1 # 1) q) eqn:H1; cbn [negb].
      * apply Qle_bool_iff in H1.
        exists (1 # 1). split; [reflexivity|]. split; [intros; lra|].
        split; [|lra]. intros _. repeat split; intros; lra.
      * assert (Hq1 : q < 1).
        { apply Qnot_le_lt. intros Hc. apply Qle_bool_iff in Hc. congruence. }
        exists q. split; [reflexivity|]. split; [intros; lra|].
        split; [|lra]. intros _. repeat split; intros; lra.
Qed.

End Exacto.

(** ** binary64 arithmetic *)

(** *** Rounding never produces a zero from a non-zero value *)

Section Redondeo.

Lemma digits2_pos_size m : digits2_pos m = Pos.size m.
Proof. induction m; simpl; congruence. Qed.

Lemma digits2_cotas m :
  2 ^ (Zpos (digits2_pos m) - 1) <= Zpos m < 2 ^ Zpos (digits2_pos m).
Proof.
  rewrite digits2_pos_size.
  pose proof (Pos.size_gt m) as Hg. pose proof (Pos.size_le m) as Hl.
  apply Pos2Z.pos_lt_pos in Hg. apply Pos2Z.pos_le_pos in Hl.
  rewrite Pos2Z.inj_pow in Hg, Hl. change (Zpos m~0) with (2 * Zpos m) in Hl.
  split; [|exact Hg].
  replace (Zpos (Pos.size m)) with (Zpos (Pos.size m) - 1 + 1) in Hl by lia.
  rewrite Z.pow_add_r, Z.pow_1_r in Hl by lia. lia.
Qed.

Lemma shr_m_shr_1 mrs : 0 <= shr_m mrs -> shr_m (shr_1 mrs) = shr_m mrs / 2.
Proof.
  destruct mrs as [m r0 s0]. simpl. intros Hm.
  destruct m as [|[p|p|]|]; cbn [shr_m]; try lia; try reflexivity.
  - apply (Z.div_unique _ _ _ 1); lia.
  - apply (Z.div_unique _ _ _ 0); lia.
Qed.

Lemma shr_m_iter p mrs :
  0 <= shr_m mrs -> shr_m (SpecFloat.iter_pos shr_1 p mrs) = shr_m mrs / 2 ^ Zpos p.
Proof.
  revert mrs. induction p as [p IH|p IH|]; intros mrs Hm; simpl SpecFloat.iter_pos.
  - assert (H1 : 0 <= shr_m (shr_1 mrs)).
    { rewrite shr_m_shr_1 by exact Hm. apply Z.div_pos; lia. }
    assert (H2 : 0 <= shr_m (SpecFloat.iter_pos shr_1 p (shr_1 mrs))).
    { rewrite IH by exact H1. apply Z.div_pos; [exact H1|]. apply Z.pow_pos_nonneg; lia. }
    rewrite IH by exact H2. rewrite IH by exact H1. rewrite shr_m_shr_1 by exact Hm.
    rewrite !Z.div_div by (try apply Z.pow_pos_nonneg; lia).
    f_equal. replace (Zpos p~1) with (1 + Zpos p + Zpos p) by lia.
    rewrite !Z.pow_add_r, Z.pow_1_r by lia. lia.
  - assert (H2 : 0 <= shr_m (SpecFloat.iter_pos shr_1 p mrs)).
    { rewrite IH by exact Hm. apply Z.div_pos; [exact Hm|]. apply Z.pow_pos_nonneg; lia. }
    rewrite IH by exact H2. rewrite IH by exact Hm.
    rewrite !Z.div_div by (try apply Z.pow_pos_nonneg; lia).
    f_equal. replace (Zpos p~0) with (Zpos p + Zpos p) by lia.
    rewrite !Z.pow_add_r by lia. lia.
  - rewrite shr_m_shr_1 by exact Hm. reflexivity.
Qed.

Lemma shr_m_record_of_loc m l : shr_m (shr_record_of_loc m l) = m.
Proof. destruct l as [|[]]; reflexivity. Qed.

Lemma shr_fexp_positivo m e l :
  0 < m -> emin <= e ->
  0 < shr_m (fst (shr_fexp prec emax m e l)) /\ emin <= snd (shr_fexp prec emax m e l).
Proof.
  intros Hm He. unfold shr_fexp, shr.
  destruct m as [|p|p]; try lia. cbn [Zdigits2].
  pose proof (digits2_cotas p) as [Hlo Hhi].
  set (d := Zpos (digits2_pos p)) in *.
  destruct (fexp prec emax (d + e) - e) as [|q|q] eqn:En; cbn [fst snd];
    rewrite ?shr_m_record_of_loc; try (split; [lia | exact He]).
  unfold fexp, SpecFloat.emin, prec, emax in En, He |- *.
  split; [|lia].
  rewrite shr_m_iter by (rewrite shr_m_record_of_loc; lia).
  rewrite shr_m_record_of_loc.
  assert (Hq : Zpos q <= d - 1) by lia.
  assert (2 ^ Zpos q <= 2 ^ (d - 1)) by (apply Z.pow_le_mono_r; lia).
  assert (0 < 2 ^ Zpos q) by (apply Z.pow_pos_nonneg; lia).
  apply Z.div_str_pos. lia.
Qed.

Lemma round_nearest_even_positivo m l : 0 < m -> 0 < round_nearest_even m l.
Proof.
  intros Hm. destruct l as [|[]]; simpl; try lia.
  destruct (Z.even m); lia.
Qed.

Lemma binary_round_aux_no_cero s m e l s0 :
  0 < m -> emin <= e -> binary_round_aux prec emax s m e l <> S754_zero s0.
Proof.
  intros Hm He. unfold binary_round_aux.
  pose proof (shr_fexp_positivo m e l Hm He) as [H1 H2].
  destruct (shr_fexp prec emax m e l) as [mrs' e']. cbn [fst snd] in H1, H2.
  pose proof (round_nearest_even_positivo (shr_m mrs') (loc_of_shr_record mrs') H1) as H3.
  pose proof (shr_fexp_positivo _ e' loc_Exact H3 H2) as [H4 H5].
  destruct (shr_fexp prec emax _ e' loc_Exact) as [mrs'' e'']. cbn [fst snd] in H4, H5.
  destruct (shr_m mrs'') as [|q|q]; try lia.
  destruct (e'' <=? emax - prec); discriminate.
Qed.

Lemma shl_align_valor mx ex ez :
  ez <= ex -> Zpos (fst (shl_align mx ex ez)) = Zpos mx * 2 ^ (ex - ez)
              /\ snd (shl_align mx ex ez) = ez.
Proof.
  intros Hz. unfold shl_align.
  destruct (ez - ex) as [|d|d] eqn:Ed; try lia; cbn [fst snd].
  - replace (ex - ez) with 0 by lia. split; lia.
  - replace (ex - ez) with (Zpos d) by lia. split; [|reflexivity].
    clear. induction d as [|d IH] using Pos.peano_ind.
    + simpl. lia.
    + rewrite Pos.iter_succ, Pos2Z.inj_xO, IH, Pos2Z.inj_succ, Z.pow_succ_r by lia. lia.
Qed.

Lemma shl_align_exponente mx ex ex' :
  emin <= ex -> emin <= ex' -> emin <= snd (shl_align mx ex ex').
Proof.
  intros H1 H2. unfold shl_align. destruct (ex' - ex); cbn [snd]; assumption.
Qed.

Lemma binary_normalize_no_cero z e sz s0 :
  z <> 0 -> emin <= e -> binary_normalize prec emax z e sz <> S754_zero s0.
Proof.
  intros Hz He. unfold binary_normalize, binary_round.
  destruct z as [|p|p]; [contradiction| |].
  all: match goal with
       | |- context [shl_align ?a ?b ?c] =>
           pose proof (shl_align_exponente a b c He) as Hs;
           destruct (shl_align a b c) as [mz ez]
       end.
  all: cbn [snd] in Hs; apply binary_round_aux_no_cero; [lia|].
  all: apply Hs; unfold fexp, SpecFloat.emin, prec, emax; lia.
Qed.

Lemma bounded_cotas m e :
  bounded prec emax m e = true ->
  emin <= e /\ Zpos (digits2_pos m) <= 53 /\ (emin < e -> Zpos (digits2_pos m) = 53).
Proof.
  unfold bounded, canonical_mantissa, fexp, SpecFloat.emin, prec, emax.
  intros Hb. apply andb_prop in Hb as [Hc _]. apply Z.eqb_eq in Hc. lia.
Qed.

(** Two valid finite numbers with equal aligned mantissas are the same. *)
Lemma alineadas_iguales mx ex my ey :
  bounded prec emax mx ex = true -> bounded prec emax my ey = true ->
  Zpos mx * 2 ^ (ex - Z.min ex ey) = Zpos my * 2 ^ (ey - Z.min ex ey) ->
  ex = ey /\ mx = my.
Proof.
  intros Bx By Heq.
  destruct (bounded_cotas mx ex Bx) as (Ex & Dx & Nx).
  destruct (bounded_cotas my ey By) as (Ey & Dy & Ny).
  pose proof (digits2_cotas mx) as [Lx Hx]. pose proof (digits2_cotas my) as [Ly Hy].
  assert (H53 : forall d, d <= 53 -> 2 ^ d <= 2 ^ 53)
    by (intros; apply Z.pow_le_mono_r; lia).
  destruct (Z.lt_trichotomy ex ey) as [Hlt|[->|Hgt]].
  - exfalso. rewrite Z.min_l in Heq by lia.
    replace (ex - ex) with 0 in Heq by lia. rewrite Z.pow_0_r, Z.mul_1_r in Heq.
    rewrite (Ny ltac:(lia)) in Ly.
    assert (2 ^ 1 <= 2 ^ (ey - ex)) by (apply Z.pow_le_mono_r; lia).
    rewrite Z.pow_1_r in *. specialize (H53 _ Dx).
    change (2 ^ (53 - 1)) with 4503599627370496 in Ly.
    change (2 ^ 53) with 9007199254740992 in H53. nia.
  - rewrite Z.min_id, Z.sub_diag, Z.pow_0_r, !Z.mul_1_r in Heq.
    split; [reflexivity|]. congruence.
  - exfalso. rewrite Z.min_r in Heq by lia.
    replace (ey - ey) with 0 in Heq by lia. rewrite Z.pow_0_r, Z.mul_1_r in Heq.
    rewrite (Nx ltac:(lia)) in Lx.
    assert (2 ^ 1 <= 2 ^ (ex - ey)) by (apply Z.pow_le_mono_r; lia).
    rewrite Z.pow_1_r in *. specialize (H53 _ Dy).
    change (2 ^ (53 - 1)) with 4503599627370496 in Lx.
    change (2 ^ 53) with 9007199254740992 in H53. nia.
Qed.

(** A difference is a zero only for operands that compare equal. *)
Lemma SFsub_no_cero x y s0 :
  valid_binary x = true -> valid_binary y = true ->
  SFleb x y = false -> SFsub prec emax x y <> S754_zero s0.
Proof.
  intros Vx Vy Hle.
  destruct x as [sx|sx| |sx mx ex], y as [sy|sy| |sy my ey];
    try (destruct sx, sy; discriminate); try discriminate.
  cbn [SFsub]. cbn [SpecFloat.valid_binary] in Vx, Vy.
  destruct (bounded_cotas mx ex Vx) as (Ex & _). destruct (bounded_cotas my ey Vy) as (Ey & _).
  apply binary_normalize_no_cero; [|lia].
  destruct (shl_align_valor mx ex (Z.min ex ey) ltac:(lia)) as [Ax _].
  destruct (shl_align_valor my ey (Z.min ex ey) ltac:(lia)) as [Ay _].
  intros Hz.
  assert (Hs : sx = sy /\
    Zpos mx * 2 ^ (ex - Z.min ex ey) = Zpos my * 2 ^ (ey - Z.min ex ey)).
  { rewrite <- Ax, <- Ay. destruct sx, sy; cbn [cond_Zopp] in Hz; split; try reflexivity; lia. }
  destruct Hs as [-> Hm].
  destruct (alineadas_iguales mx ex my ey Vx Vy Hm) as [-> ->].
  pose proof (Z.compare_refl ey) as E1.
  pose proof (Pos.compare_cont_refl my Eq) as E2.
  unfold SFleb, SFcompare in Hle. revert Hle.
  destruct sy; rewrite E1, E2; discriminate.
Qed.

(** On binary64, [b - a] is not a zero unless [b <= a]. *)
Lemma resta_no_nula (a b : float) :
  PrimFloat.leb b a = false -> PrimFloat.eqb (PrimFloat.sub b a) 0%float = false.
Proof.
  intros Hle. rewrite FloatAxioms.leb_spec in Hle.
  rewrite FloatAxioms.eqb_spec, FloatAxioms.sub_spec.
  pose proof (SFsub_no_cero (Prim2SF b) (Prim2SF a)) as Hz.
  specialize (fun s0 => Hz s0 (Prim2SF_valid b) (Prim2SF_valid a) Hle).
  change (Prim2SF 0%float) with (S754_zero false).
  unfold SF64sub. destruct (SFsub prec emax (Prim2SF b) (Prim2SF a)) as [s| | |s m e].
  - exfalso. exact (Hz s eq_refl).
  - destruct s; reflexivity.
  - reflexivity.
  - destruct s; reflexivity.
Qed.

End Redondeo.

Section Binario64.
Local Open Scope float_scope.

(** Against C2 as stated, on binary64.  With alpha = 1.01, dx = 1.5 and
    safety factor 1, all accepted by the validation, the constructor stores
    r = 0.25000000000000006: the rounded quotient exceeds s / 4 = 1 / 4 by
    one unit in the last place. *)
Lemma cfl_excedido_binario64 :
  exists c e,
    parsear_argumentos argv_cfl_uno = Ok c /\ __init__ c = Ok e /\
    r e = 0x1.0000000000001p-2 /\
    menor_igual (r e) (divi (factor_seguridad_cfl c) (lit 4 1)) = false /\
    menor_igual (divi (factor_seguridad_cfl c) (lit 4 1)) (lit 1 4) = true /\
    menor_igual (r e) (lit 1 4) = false.
Proof.
  eexists. eexists.
  split; [vm_compute; reflexivity|].
  split; [vm_compute; reflexivity|].
  repeat split; vm_compute; reflexivity.
Qed.

(** With a step that is too small to square, the constructor raises before
    any diffusion number exists. *)
Lemma dx_diminuto_binario64 :
  (c ← parsear_argumentos [("--dx", VReal 0x1p-600)]%string; __init__ (T:=float) c)
    = Lanza ZeroDivisionError.
Proof. vm_compute. reflexivity. Qed.

(** The scenario of the default configuration on a 5 x 5 grid:
    dt = r = 0.2375 (the binary64 value of 0.95 / 4), and after the first
    step the cell (1, 1) holds r * (0 + 100 + 0 + 30) = 30.875. *)
Lemma escenario_5x5_binario64 :
  exists c e e1,
    parsear_argumentos [("--n", VEntero 5)]%string = Ok c /\
    __init__ c = Ok e /\ dt e = lit 2375 10000 /\ r e = lit 2375 10000 /\
    actualizar_paso e = Ok e1 /\ celda (u e1) 1 1 = Some 30.875 /\
    celda (u e1) 0 0 = Some 30 /\ celda (u e1) 0 1 = Some 100.
Proof.
  eexists. eexists. eexists.
  split; [vm_compute; reflexivity|].
  split; [vm_compute; reflexivity|].
  split; [vm_compute; reflexivity|].
  split; [vm_compute; reflexivity|].
  split; [vm_compute; reflexivity|].
  repeat split; vm_compute; reflexivity.
Qed.

Lemma motor_alpha_enorme_init :
  (c ← parsear_argumentos argv_alpha_enorme; __init__ c) = Ok motor_alpha_enorme.
Proof. vm_compute. reflexivity. Qed.

Lemma paso_estatico (it : Z) :
  actualizar_paso (con_iteracion motor_alpha_enorme it)
    = Ok (con_iteracion motor_alpha_enorme (it + 1)).
Proof.
  assert (Hg : _aplicar_contornos (cfg motor_alpha_enorme)
                 (asignar_sub b1 bm1 b1 bm1
                    (interior_nuevo (r motor_alpha_enorme) (u motor_alpha_enorme))
                    (u motor_alpha_enorme)) = Ok (u motor_alpha_enorme))
    by (vm_compute; reflexivity).
  unfold actualizar_paso.
  change (u (con_iteracion motor_alpha_enorme it)) with (u motor_alpha_enorme).
  change (r (con_iteracion motor_alpha_enorme it)) with (r motor_alpha_enorme).
  change (cfg (con_iteracion motor_alpha_enorme it)) with (cfg motor_alpha_enorme).
  rewrite Hg. reflexivity.
Qed.

Lemma pasos_estaticos (k : nat) (it : Z) :
  pasos_sucesivos k (con_iteracion motor_alpha_enorme it)
    = Ok (con_iteracion motor_alpha_enorme (it + Z.of_nat k)).
Proof.
  revert it. induction k as [|k IH]; intros it.
  - simpl. rewrite Z.add_0_r. reflexivity.
  - cbn [pasos_sucesivos]. rewrite paso_estatico. cbn [mbind resultado_bind].
    rewrite IH. do 2 f_equal. lia.
Qed.

(** Against C4 as stated, on binary64.  With alpha = 2^1022, accepted by the
    validation, r is 0 and the grid never changes: after every number of
    steps the mean of the interior (one cell, for n = 3) is still 0. *)
Lemma media_interior_estancada_binario64 :
  exists c e0,
    parsear_argumentos argv_alpha_enorme = Ok c /\ __init__ c = Ok e0 /\
    r e0 = 0 /\
    forall k : nat, exists ek,
      pasos_sucesivos k e0 = Ok ek /\
      media_interior (u ek) = 0 /\
      menor (lit 0 1) (media_interior (u ek)) = false.
Proof.
  eexists. exists motor_alpha_enorme.
  split; [vm_compute; reflexivity|].
  split; [vm_compute; reflexivity|].
  split; [reflexivity|].
  intros k. exists (con_iteracion motor_alpha_enorme (0 + Z.of_nat k)).
  split; [exact (pasos_estaticos k 0)|].
  split; vm_compute; reflexivity.
Qed.

(** The default run on binary64 (n = 20, 500 steps), with either backend:
    every cell lies within [0, 100] initially and after each step, and the
    interior mean ends positive. *)
Lemma corrida_por_defecto_binario64 :
  exists e0 ef tr,
    __init__ config_por_defecto = Ok e0 /\
    ejecutar true e0 = Ok (ef, tr) /\ ejecutar false e0 = Ok (ef, tr) /\
    iteracion ef = 500%Z /\
    siempre_acotada 500 e0 = true /\
    PrimFloat.ltb 0 (media_interior (u ef)) = true.
Proof.
  eexists. eexists. eexists.
  split; [vm_compute; reflexivity|].
  split; [vm_compute; reflexivity|].
  split; [vm_compute; reflexivity|].
  repeat split; vm_compute; reflexivity.
Qed.

(** Against C5 as stated, on binary64.  [--n 3 --pasos 10 --pausa -1] is
    accepted (the pause is not validated), pasos and cada_render are
    positive and the constructor returns; the frame of iteration 1 is drawn
    and [time.sleep (-1)] raises ValueError, with either backend: the run
    ends there instead of making its 10 steps and drawing its 4 frames. *)
Lemma pausa_negativa_binario64 :
  exists c e0 e1 cuadro,
    parsear_argumentos argv_pausa_negativa = Ok c /\
    (0 < pasos c)%Z /\ (0 < cada_render c)%Z /\
    __init__ c = Ok e0 /\ iteracion e0 = 0%Z /\
    actualizar_paso e0 = Ok e1 /\ iteracion e1 = 1%Z /\
    renderizar_terminal true e1 = Ok cuadro /\
    time_sleep (pausa c) = Lanza ValueError /\
    ejecutar true e0 = Lanza ValueError /\
    ejecutar false e0 = Lanza ValueError /\
    main true argv_pausa_negativa = Lanza ValueError /\
    main false argv_pausa_negativa = Lanza ValueError.
Proof.
  eexists. eexists. eexists. eexists.
  split; [vm_compute; reflexivity|].
  split; [reflexivity|]. split; [reflexivity|].
  split; [vm_compute; reflexivity|]. split; [reflexivity|].
  split; [vm_compute; reflexivity|]. split; [reflexivity|].
  split; [vm_compute; reflexivity|].
  repeat split; vm_compute; reflexivity.
Qed.

(** *** The level of a cell *)

Lemma ltb_leb (x y : float) : PrimFloat.ltb x y = true -> PrimFloat.leb x y = true.
Proof.
  rewrite FloatAxioms.ltb_spec, FloatAxioms.leb_spec. unfold SFltb, SFleb.
  destruct (SFcompare (Prim2SF x) (Prim2SF y)) as [[]|]; congruence.
Qed.

(** [np.clip(x, 0, 1)] is [x] itself for a NaN and lies within [0, 1]
    otherwise. *)
Lemma np_clip_binario64 (x : float) :
  (is_nan x = true -> np_clip x (lit 0 1) (lit 1 1) = x) /\
  (is_nan x = false ->
     is_nan (np_clip x (lit 0 1) (lit 1 1)) = false /\
     PrimFloat.leb 0 (np_clip x (lit 0 1) (lit 1 1)) = true /\
     PrimFloat.leb (np_clip x (lit 0 1) (lit 1 1)) 1 = true).
Proof.
  unfold np_clip. cbn [es_nan menor binario64].
  change (lit (T:=float) 0 1) with 0. change (lit (T:=float) 1 1) with 1.
  split; intros Hx; rewrite Hx.
  - rewrite Hx. reflexivity.
  - destruct (PrimFloat.ltb 0 x) eqn:H0.
    + rewrite Hx. destruct (PrimFloat.ltb x 1) eqn:H1.
      * split; [exact Hx|]. split; apply ltb_leb; assumption.
      * repeat split; reflexivity.
    + change (is_nan 0) with false. change (PrimFloat.ltb 0 1) with true.
      repeat split; reflexivity.
Qed.

(** C9 (as binary64 has it).  The level computation returns for every
    temperature and every (min, max): it never divides by zero.  If
    max <= min the level is 0; otherwise max - min is not zero and the level
    is np.clip ((temp - min) / (max - min), 0, 1).  The level lies within
    [0, 1] unless it is NaN, and it is NaN exactly when max <= min fails and
    the quotient is NaN. *)
Theorem nivel_binario64 (temp t_min t_max : float) :
  exists nv, nivel temp t_min t_max = Ok nv /\
    (PrimFloat.leb t_max t_min = true -> nv = 0) /\
    (PrimFloat.leb t_max t_min = false ->
       PrimFloat.eqb (t_max - t_min) 0 = false /\
       nv = np_clip ((temp - t_min) / (t_max - t_min)) (lit 0 1) (lit 1 1)) /\
    (is_nan nv = false -> PrimFloat.leb 0 nv = true /\ PrimFloat.leb nv 1 = true) /\
    (is_nan nv = true <->
       PrimFloat.leb t_max t_min = false /\
       is_nan ((temp - t_min) / (t_max - t_min)) = true).
Proof.
  unfold nivel, py_div. cbn [menor_igual igual resta divi binario64].
  change (cero (T:=float)) with 0.
  destruct (PrimFloat.leb t_max t_min) eqn:Hle.
  - exists (lit 0 1). split; [reflexivity|].
    change (lit (T:=float) 0 1) with 0.
    split; [reflexivity|]. split; [discriminate|].
    split; [intros _; split; reflexivity|].
    split; [discriminate | intros [? _]; discriminate].
  - rewrite (resta_no_nula t_min t_max Hle). cbn [mbind resultado_bind].
    set (q := (temp - t_min) / (t_max - t_min)).
    exists (np_clip q (lit 0 1) (lit 1 1)). split; [reflexivity|].
    split; [discriminate|]. split; [intros _; split; reflexivity|].
    destruct (np_clip_binario64 q) as [Hn Hf].
    destruct (is_nan q) eqn:Hq.
    + rewrite (Hn eq_refl). rewrite Hq. split; [discriminate|].
      split; [intros _; split; reflexivity | reflexivity].
    + destruct (Hf eq_refl) as (H1 & H2 & H3). rewrite H1.
      split; [intros _; split; assumption|].
      split; [discriminate | intros [_ ?]; discriminate].
Qed.

(** Against C9 as stated, on binary64.  With temp = max = 2^1023 and
    min = -2^1023 both differences overflow, the quotient is inf / inf, and
    the level is NaN: neither 0 <= level nor level <= 1 holds.  The grey-scale
    backend then raises on [int]. *)
Lemma nivel_nan_binario64 :
  exists nv, nivel 0x1p1023 (-0x1p1023) 0x1p1023 = Ok nv /\
    is_nan nv = true /\
    menor_igual (lit 0 1) nv = false /\ menor_igual nv (lit 1 1) = false /\
    _bloque_por_temperatura false 0x1p1023 (-0x1p1023) 0x1p1023 = Lanza ValueError.
Proof.
  eexists. split; [vm_compute; reflexivity|].
  repeat split; vm_compute; reflexivity.
Qed.

(** *** The command line on binary64 *)

Lemma parsear_sin_argumentos_binario64 :
  parsear_argumentos (T:=float) [] = Ok config_por_defecto.
Proof. vm_compute. reflexivity. Qed.

Lemma cien_no_es_cincuenta : lit (T:=float) 100 1 <> 50.
Proof.
  intros E.
  assert (Hb : PrimFloat.eqb (lit 100 1) 50 = PrimFloat.eqb 50 50) by (rewrite E; reflexivity).
  vm_compute in Hb. discriminate.
Qed.

(** Against C6 as stated.  An invocation that supplies the four border
    temperatures is turned down by the parser, and no invocation at all
    yields a configuration whose top temperature is the supplied 50. *)
Lemma contornos_no_configurables :
  parsear_argumentos (T:=float)
    [("--t-arriba", VReal 50); ("--t-abajo", VReal 10);
     ("--t-izquierda", VReal 20); ("--t-derecha", VReal 40)]%string
    = Lanza SystemExit /\
  ~ exists argv c, parsear_argumentos (T:=float) argv = Ok c /\ t_arriba c = 50.
Proof.
  split; [vm_compute; reflexivity|].
  intros (argv & c & Hc & Ht).
  destruct (parsear_argumentos_defectos argv c Hc) as (Ha & _).
  rewrite Ht in Ha. symmetry in Ha. exact (cien_no_es_cincuenta Ha).
Qed.

End Binario64.

(** ** Concrete runs *)

Section Testigos.
Local Open Scope float_scope.

(** [motor_3x3] is the engine the constructor builds from [config_3x3]. *)
Lemma motor_3x3_init : __init__ config_3x3 = Ok motor_3x3.
Proof. vm_compute. reflexivity. Qed.

Lemma motor_3x3_malla : es_malla 3 (u motor_3x3).
Proof. split; [reflexivity | repeat constructor]. Defined.

(** Every state of the run of [motor_3x3] is drawn by the grey-scale
    backend: each of the eleven states, evaluated. *)
Lemma motor_3x3_dibujable : cuadros_dibujables false motor_3x3.
Proof.
  intros j ej Hj _ Hs.
  do 11 (destruct j as [|j];
         [vm_compute in Hs; injection Hs as <-; eexists; vm_compute; reflexivity|]).
  simpl in Hj. lia.
Defined.

(** The step on the 3 x 3 plate: the one interior cell becomes
    0 + 0.2375 * (0 + 100 + 30 + 30 - 4 * 0) = 38. *)
Lemma actualizar_paso_plantilla_testigo :
  (3 <= 3)%nat /\ es_malla 3 (u motor_3x3) /\
  exists e', actualizar_paso motor_3x3 = Ok e' /\
    celda (u e') 1 1 = Some 38 /\ iteracion e' = 1%Z.
Proof.
  split; [lia|]. split; [exact motor_3x3_malla|].
  destruct (actualizar_paso_plantilla motor_3x3 3 ltac:(lia) motor_3x3_malla)
    as (e' & Hp & _ & Hc & Hi).
  exists e'. split; [exact Hp|]. split; [|exact Hi].
  rewrite (Hc 1%nat 1%nat) by lia. vm_compute. reflexivity.
Defined.

(** The 3 x 3 plate keeps its borders through 7 steps, here with dt = 0.5
    and r = 0.125. *)
Lemma contornos_invariantes_testigo :
  (3 <= n config_3x3)%Z /\
  exists g0, inicializar_placa config_3x3 = Ok g0 /\
    celda g0 1 1 = Some 0 /\
    exists ek,
      pasos_sucesivos 7 {| cfg := config_3x3; dt := 0.5; r := 0.125; u := g0;
                           iteracion := 0 |} = Ok ek /\
      contornos_puestos config_3x3 3 (u ek).
Proof.
  split; [simpl; lia|].
  destruct (contornos_invariantes config_3x3 ltac:(simpl; lia))
    as (g0 & Hg & _ & Hz & Hk).
  exists g0. split; [exact Hg|]. split; [apply (Hz 1%nat 1%nat); simpl; lia|].
  destruct (Hk 0.5 0.125 7%nat) as (ek & He & _ & Hc).
  exists ek. split; [exact He | exact Hc].
Defined.

(** The run of 10 steps with a frame every 5 and a pause of 0.03 s draws
    at the iterations 1, 5, 10 and once more at 10. *)
Lemma ejecutar_traza_testigo :
  (3 <= 3)%nat /\ es_malla 3 (u motor_3x3) /\ iteracion motor_3x3 = 0%Z /\
  (0 < pasos (cfg motor_3x3))%Z /\ (0 < cada_render (cfg motor_3x3))%Z /\
  time_sleep (pausa (cfg motor_3x3)) = Ok tt /\
  cuadros_dibujables false motor_3x3 /\
  exists e' tr, ejecutar false motor_3x3 = Ok (e', tr) /\
    iteracion e' = 10%Z /\ renders tr = [1; 5; 10; 10]%Z.
Proof.
  assert (Hsl : time_sleep (pausa (cfg motor_3x3)) = Ok tt) by (vm_compute; reflexivity).
  pose proof motor_3x3_dibujable as Hd.
  split; [lia|]. split; [exact motor_3x3_malla|]. split; [reflexivity|].
  split; [simpl; lia|]. split; [simpl; lia|]. split; [exact Hsl|]. split; [exact Hd|].
  destruct (ejecutar_traza false motor_3x3 3 ltac:(lia) motor_3x3_malla eq_refl
              ltac:(simpl; lia) ltac:(simpl; lia) Hsl Hd)
    as (e' & tr & He & _ & Hi & _ & Hr).
  exists e', tr. split; [exact He|]. split; [exact Hi|].
  rewrite Hr. vm_compute. reflexivity.
Defined.

(** The border writes on a 3 x 3 array of other values. *)
Lemma aplicar_contornos_esquinas_testigo :
  (2 <= 3)%nat /\ es_malla 3 [[1; 2; 3]; [4; 5; 6]; [7; 8; 9]] /\
  exists m', _aplicar_contornos config_3x3 [[1; 2; 3]; [4; 5; 6]; [7; 8; 9]] = Ok m' /\
    celda m' 0 0 = Some 30 /\ celda m' 2 2 = Some 30 /\ celda m' 0 1 = Some 100.
Proof.
  assert (Hm : es_malla 3 [[1; 2; 3]; [4; 5; 6]; [7; 8; 9]])
    by (split; [reflexivity | repeat constructor]).
  split; [lia|]. split; [exact Hm|].
  destruct (aplicar_contornos_esquinas config_3x3 _ 3 ltac:(lia) Hm)
    as (m' & Ha & _ & H00 & _ & _ & H22).
  exists m'. split; [exact Ha|]. split; [exact H00|]. split; [exact H22|].
  vm_compute in Ha. injection Ha as <-. vm_compute. reflexivity.
Defined.

(** Three steps of the 3 x 3 plate leave dt and r at 0.2375. *)
Lemma actualizar_paso_marco_testigo :
  actualizar_paso motor_3x3 = Ok (siguiente motor_3x3) /\
  pasos_sucesivos 2 (siguiente motor_3x3)
    = Ok (siguiente (siguiente (siguiente motor_3x3))) /\
  r (siguiente (siguiente (siguiente motor_3x3))) = lit 2375 10000 /\
  dt (siguiente (siguiente (siguiente motor_3x3))) = lit 2375 10000.
Proof.
  assert (H1 : actualizar_paso motor_3x3 = Ok (siguiente motor_3x3))
    by (vm_compute; reflexivity).
  assert (H2 : pasos_sucesivos 2 (siguiente motor_3x3)
                 = Ok (siguiente (siguiente (siguiente motor_3x3))))
    by (vm_compute; reflexivity).
  split; [exact H1|]. split; [exact H2|].
  destruct (actualizar_paso_marco motor_3x3 _ _ 2 H1 H2) as [_ (_ & Hd & Hr)].
  rewrite Hr, Hd. split; reflexivity.
Defined.

(** Over the rationals, alpha = dx = 1 and s = 95/100 give dt = r = 19/80. *)
Lemma dt_estable_exacto_testigo :
  config_valida config_3x3_exacta /\
  exists e0, __init__ config_3x3_exacta = Ok e0 /\
    (dt e0 == 19 # 80)%Q /\ (r e0 == 19 # 80)%Q.
Proof.
  assert (Hv : config_valida config_3x3_exacta).
  { unfold config_valida, Qlt, Qle. simpl. lia. }
  split; [exact Hv|].
  destruct (dt_estable_exacto config_3x3_exacta Hv) as (e0 & Hi & _ & Hd & _ & Hr & _).
  exists e0. split; [exact Hi|].
  split; [rewrite Hd | rewrite Hr]; reflexivity.
Defined.

(** Over the rationals, four steps of the 3 x 3 plate. *)
Lemma principio_del_maximo_exacto_testigo :
  config_valida config_3x3_exacta /\ contornos_de_referencia config_3x3_exacta /\
  exists e0 e4, __init__ config_3x3_exacta = Ok e0 /\
    pasos_sucesivos 4 e0 = Ok e4 /\
    (0 <= cel (u e4) 1 1)%Q /\ (cel (u e4) 1 1 <= 100)%Q /\
    (0 < media_interior (u e4))%Q.
Proof.
  assert (Hv : config_valida config_3x3_exacta).
  { unfold config_valida, Qlt, Qle. simpl. lia. }
  assert (Hr : contornos_de_referencia config_3x3_exacta).
  { unfold contornos_de_referencia. simpl. repeat split; reflexivity. }
  split; [exact Hv|]. split; [exact Hr|].
  destruct (principio_del_maximo_exacto config_3x3_exacta Hv Hr) as (e0 & Hi & _ & Hk).
  destruct (Hk 4%nat) as (e4 & He & Hb & Hm).
  exists e0, e4. split; [exact Hi|]. split; [exact He|].
  destruct (Hb 1%nat 1%nat ltac:(simpl; lia) ltac:(simpl; lia)) as [H0 H1].
  split; [exact H0|]. split; [exact H1|]. apply Hm. lia.
Defined.

(** [--n 7 --pau 0.5]: the abbreviation is resolved, the borders are the
    defaults. *)
Lemma parsear_argumentos_contornos_fijos_testigo :
  exists c, parsear_argumentos (T:=float) [("--n", VEntero 7); ("--pau", VReal 0.5)]%string = Ok c /\
    n c = 7%Z /\ t_arriba c = 100 /\ t_derecha c = 30.
Proof.
  destruct (parsear_argumentos_contornos_fijos (T:=float)
              [("--n", VEntero 7); ("--pau", VReal 0.5)]%string) as [Hd _].
  eexists. split; [vm_compute; reflexivity|]. split; [reflexivity|].
  match goal with
  | |- t_arriba ?c = _ /\ _ =>
      destruct (Hd c ltac:(vm_compute; reflexivity)) as (Ha & _ & _ & Hr)
  end.
  rewrite Ha, Hr. split; vm_compute; reflexivity.
Defined.

End Testigos.

(** * Further properties *)

(** ** Edge cases of the arrays and of the step *)

Section Bordes.
Context {T : Type} `{Numerico T}.

(** X2.  [_aplicar_contornos] raises exactly on an array without rows or
    without columns, and what it raises is IndexError; on every other array it
    returns an array with as many rows and columns. *)
Theorem aplicar_contornos_error (c : @ConfiguracionSimulacion T) (m : malla T) :
  (_aplicar_contornos c m = Lanza IndexError <->
     (filas m = 0 \/ columnas m = 0)%nat) /\
  (forall ex, _aplicar_contornos c m = Lanza ex -> ex = IndexError) /\
  (forall m', _aplicar_contornos c m = Ok m' ->
     filas m' = filas m /\ columnas m' = columnas m).
Proof.
  rewrite aplicar_contornos_explicito.
  case_decide as Hm.
  - split; [split; [discriminate | lia]|].
    split; [discriminate|].
    intros m' Hm'. injection Hm' as <-.
    split; [apply filas_bordes_fijos | apply columnas_bordes_fijos].
  - split; [split; [lia | reflexivity]|].
    split; [|discriminate].
    intros ex Hex. injection Hex as <-. reflexivity.
Qed.

(** X3.  On a p x q array with at least one row and one column (square or
    not) [_aplicar_contornos] returns an array of the same shape in which
    every cell off the four edges is the cell it was, and every edge cell
    holds a configured temperature: the right column wins over the left one,
    the columns over the rows, the bottom row over the top one. *)
Theorem aplicar_contornos_marco (c : @ConfiguracionSimulacion T) (m : malla T) (p q : nat) :
  forma p q m -> (1 <= p)%nat -> (1 <= q)%nat ->
  exists m', _aplicar_contornos c m = Ok m' /\ forma p q m' /\
    (forall i j : nat, (0 < i < p - 1)%nat -> (0 < j < q - 1)%nat ->
       celda m' i j = celda m i j) /\
    (forall i j : nat, (i < p)%nat -> (j < q)%nat ->
       (j = (q - 1)%nat -> celda m' i j = Some (t_derecha c)) /\
       (j = 0%nat -> j <> (q - 1)%nat -> celda m' i j = Some (t_izquierda c)) /\
       ((0 < j < q - 1)%nat -> i = (p - 1)%nat -> celda m' i j = Some (t_abajo c)) /\
       ((0 < j < q - 1)%nat -> i = 0%nat -> i <> (p - 1)%nat ->
          celda m' i j = Some (t_arriba c))).
Proof.
  intros Hm Hp Hq. exists (bordes_fijos c m).
  split; [exact (aplicar_contornos_forma c p q m Hm Hp Hq)|].
  split; [exact (forma_bordes_fijos c p q m Hm)|]. split.
  - intros i j Hi Hj.
    rewrite (celda_bordes_fijos c p q m i j Hm) by lia.
    rewrite (celda_forma p q m i j Hm) by lia.
    unfold valor_borde. repeat (case_decide; [lia|]). reflexivity.
  - intros i j Hi Hj.
    rewrite (celda_bordes_fijos c p q m i j Hm Hi Hj). unfold valor_borde.
    repeat split; intros; repeat case_decide; try reflexivity; lia.
Qed.

(** X1.  The smallest plates.  [inicializar_placa] raises ValueError for a
    negative n and IndexError for n = 0 (the array is created, the first
    border write fails); for n = 1 the plate is the single cell at the right
    temperature, for n = 2 it is two rows of left and right temperature: no
    top or bottom temperature is left on either. *)
Theorem inicializar_placa_casos (c : @ConfiguracionSimulacion T) :
  (n c < 0 -> inicializar_placa c = Lanza ValueError) /\
  (n c = 0 -> inicializar_placa c = Lanza IndexError) /\
  (n c = 1 -> inicializar_placa c = Ok [[t_derecha c]]) /\
  (n c = 2 -> inicializar_placa c =
                Ok [[t_izquierda c; t_derecha c]; [t_izquierda c; t_derecha c]]).
Proof.
  split; [|split; [|split]].
  - intros Hn. unfold inicializar_placa, np_zeros.
    destruct (Z.ltb_spec (n c) 0); [reflexivity | lia].
  - intros Hn. unfold inicializar_placa, np_zeros. rewrite Hn. reflexivity.
  - intros Hn. unfold inicializar_placa, np_zeros. rewrite Hn. reflexivity.
  - intros Hn. unfold inicializar_placa, np_zeros. rewrite Hn. reflexivity.
Qed.

End Bordes.

Section SinInterior.
Context {T : Type} `{Numerico T}.

Lemma malla_1 (m : malla T) : es_malla 1 m -> exists x, m = [[x]].
Proof.
  intros [Lm Fm]. destruct m as [|f [|? ?]]; try discriminate.
  apply Forall_inv in Fm. destruct f as [|x [|? ?]]; try discriminate.
  exists x. reflexivity.
Qed.

Lemma malla_2 (m : malla T) : es_malla 2 m -> exists a b c d, m = [[a; b]; [c; d]].
Proof.
  intros [Lm Fm]. destruct m as [|f [|g [|? ?]]]; try discriminate.
  pose proof (Forall_inv Fm) as Lf.
  pose proof (Forall_inv (Forall_inv_tail Fm)) as Lg. simpl in Lf, Lg.
  destruct f as [|a [|b [|? ?]]]; try discriminate.
  destruct g as [|c0 [|d [|? ?]]]; try discriminate.
  exists a, b, c0, d. reflexivity.
Qed.

(** X4.  A grid without interior.  On an empty grid [actualizar_paso] raises
    IndexError.  On a 1 x 1 or 2 x 2 grid, whatever it holds, the step
    returns, advances the counter by one, and leaves the plate
    [inicializar_placa] builds for that size: the single cell at the right
    temperature, or two rows of left and right temperature. *)
Theorem actualizar_paso_sin_interior (e : @DifusionCalor2D T) :
  (u e = [] -> actualizar_paso e = Lanza IndexError) /\
  (es_malla 1 (u e) ->
     actualizar_paso e =
       Ok {| cfg := cfg e; dt := dt e; r := r e;
             u := [[t_derecha (cfg e)]];
             iteracion := iteracion e + 1 |}) /\
  (es_malla 2 (u e) ->
     actualizar_paso e =
       Ok {| cfg := cfg e; dt := dt e; r := r e;
             u := [[t_izquierda (cfg e); t_derecha (cfg e)];
                   [t_izquierda (cfg e); t_derecha (cfg e)]];
             iteracion := iteracion e + 1 |}).
Proof.
  unfold actualizar_paso. split; [|split].
  - intros ->. reflexivity.
  - intros Hm. destruct (malla_1 _ Hm) as (x & ->). reflexivity.
  - intros Hm. destruct (malla_2 _ Hm) as (a & b & c0 & d & ->). reflexivity.
Qed.

End SinInterior.

Section Esquinas.
Context {T : Type} `{Numerico T}.

(** Two arrays of one shape with the same cells are the same array. *)
Lemma malla_ext p q (a b : malla T) :
  forma p q a -> forma p q b ->
  (forall i j : nat, (i < p)%nat -> (j < q)%nat -> celda a i j = celda b i j) ->
  a = b.
Proof.
  intros Ha Hb Hc. pose proof Ha as [La Fa]. pose proof Hb as [Lb Fb].
  apply (list_eq_same_length a b p); [congruence.. |].
  intros i fa fb Hi Hfa Hfb.
  pose proof (forma_fila _ _ _ _ _ Ha Hfa) as Lfa.
  pose proof (forma_fila _ _ _ _ _ Hb Hfb) as Lfb.
  apply (list_eq_same_length fa fb q); [congruence.. |].
  intros j x y Hj Hx Hy.
  specialize (Hc i j Hi Hj). unfold celda in Hc.
  rewrite Hfa, Hfb in Hc. simpl in Hc. congruence.
Qed.

(** X5.  The step never reads the four corner cells: two engines with the
    same configuration and diffusion number whose N x N grids agree
    everywhere except possibly at the corners are taken by [actualizar_paso]
    to the same grid. *)
Theorem esquinas_no_leidas (e1 e2 : @DifusionCalor2D T) (N : nat) :
  (2 <= N)%nat -> es_malla N (u e1) -> es_malla N (u e2) ->
  cfg e1 = cfg e2 -> r e1 = r e2 ->
  (forall i j : nat, (i < N)%nat -> (j < N)%nat ->
     ~ ((i = 0 \/ i = N - 1) /\ (j = 0 \/ j = N - 1))%nat ->
     celda (u e1) i j = celda (u e2) i j) ->
  exists e1' e2', actualizar_paso e1 = Ok e1' /\ actualizar_paso e2 = Ok e2' /\
    u e1' = u e2'.
Proof.
  intros HN H1 H2 Hc Hr Hig.
  destruct (actualizar_paso_siguiente e1 N HN H1) as [Hp1 Hs1].
  destruct (actualizar_paso_siguiente e2 N HN H2) as [Hp2 Hs2].
  exists (siguiente e1), (siguiente e2). split; [exact Hp1|]. split; [exact Hp2|].
  apply (malla_ext N N); [exact Hs1 | exact Hs2 |].
  intros i j Hi Hj.
  rewrite (celda_siguiente e1 N i j HN H1 Hi Hj), (celda_siguiente e2 N i j HN H2 Hi Hj).
  rewrite Hc, Hr. f_equal. unfold valor_borde.
  repeat (case_decide; [reflexivity|]).
  assert (Hcel : forall a b : nat, (a < N)%nat -> (b < N)%nat ->
            ~ ((a = 0 \/ a = N - 1) /\ (b = 0 \/ b = N - 1))%nat ->
            cel (u e1) a b = cel (u e2) a b).
  { intros a b Ha Hb Hne. unfold cel. rewrite (Hig a b Ha Hb Hne). reflexivity. }
  unfold plantilla.
  rewrite (Hcel i j), (Hcel (i + 1)%nat j), (Hcel (i - 1)%nat j),
          (Hcel i (j + 1)%nat), (Hcel i (j - 1)%nat) by lia.
  reflexivity.
Qed.

End Esquinas.

(** ** Edge cases of the run loop *)

Section Bucle.
Context {T : Type} `{Numerico T}.

(** The run that returns: the state, the counter and the trace. *)
Lemma ejecutar_general (colorama : bool) (e : @DifusionCalor2D T) (N : nat) :
  (2 <= N)%nat -> es_malla N (u e) -> cada_render (cfg e) <> 0 ->
  time_sleep (pausa (cfg e)) = Ok tt -> cuadros_dibujables colorama e ->
  exists e', pasos_sucesivos (Z.to_nat (pasos (cfg e))) e = Ok e' /\
    iteracion e' = iteracion e + Z.max 0 (pasos (cfg e)) /\
    cfg e' = cfg e /\ es_malla N (u e') /\
    ejecutar colorama e =
      Ok (e', eventos_bucle (cfg e) (seqZ (iteracion e + 1) (pasos (cfg e)))
              ++ [Render (iteracion e'); Fin]).
Proof.
  intros HN Hu Hcr Hsl Hdib.
  destruct (bucle_ok colorama (Z.to_nat (pasos (cfg e))) e N [] HN Hu Hcr Hsl)
    as (e' & He' & Hb).
  { intros j ej Hj Ht Hs. apply (Hdib j ej); [lia | left; split; [lia | exact Ht] | exact Hs]. }
  destruct (pasos_sucesivos_ok (Z.to_nat (pasos (cfg e))) e N HN Hu)
    as (e'' & He'' & Hm & Hc & _ & _ & Hi & _).
  rewrite He' in He''. injection He'' as <-.
  destruct (Hdib (Z.to_nat (pasos (cfg e))) e' ltac:(lia) ltac:(right; reflexivity) He')
    as [f Hf].
  assert (Hseq : seqZ (iteracion e + 1) (Z.of_nat (Z.to_nat (pasos (cfg e))))
                 = seqZ (iteracion e + 1) (pasos (cfg e))).
  { destruct (Z.le_gt_cases 0 (pasos (cfg e))).
    - rewrite Z2Nat.id by lia. reflexivity.
    - rewrite !seqZ_nil by lia. reflexivity. }
  rewrite Hseq in Hb. simpl in Hb.
  exists e'. split; [exact He'|]. split; [lia|]. split; [exact Hc|]. split; [exact Hm|].
  unfold ejecutar. rewrite Hb. cbn [mbind resultado_bind]. rewrite Hf. reflexivity.
Qed.

(** X6.  With a step budget that is zero or negative [ejecutar] makes no
    step at all: the run is the final frame alone.  It returns the engine
    unchanged with exactly one frame when [renderizar_terminal] returns on
    it, and raises what [renderizar_terminal] raises otherwise; on a grid
    without cells that is ValueError. *)
Theorem ejecutar_sin_pasos (colorama : bool) (e : @DifusionCalor2D T) :
  pasos (cfg e) <= 0 ->
  ejecutar colorama e =
    (_ ← renderizar_terminal colorama e; Ok (e, [Render (iteracion e); Fin])) /\
  (concat (u e) = [] -> ejecutar colorama e = Lanza ValueError).
Proof.
  intros Hp. unfold ejecutar.
  replace (Z.to_nat (pasos (cfg e))) with 0%nat by lia.
  split; [reflexivity|].
  intros Hv. cbn [bucle mbind resultado_bind].
  unfold renderizar_terminal, np_min. rewrite Hv. reflexivity.
Qed.

(** X7.  With cada_render = 0 and at least one step to make, [ejecutar] on
    an N x N grid (N >= 2) raises ZeroDivisionError, with either backend,
    whatever the pause and whatever the cells hold. *)
Theorem ejecutar_cada_render_cero (colorama : bool) (e : @DifusionCalor2D T) (N : nat) :
  (2 <= N)%nat -> es_malla N (u e) ->
  0 < pasos (cfg e) -> cada_render (cfg e) = 0 ->
  ejecutar colorama e = Lanza ZeroDivisionError.
Proof.
  intros HN Hu Hp Hc. unfold ejecutar.
  destruct (Z.to_nat (pasos (cfg e))) as [|q] eqn:Eq; [lia|].
  cbn [bucle]. destruct (actualizar_paso_siguiente e N HN Hu) as [Hs _].
  rewrite Hs. cbn [mbind resultado_bind].
  change (cfg (siguiente e)) with (cfg e). rewrite Hc. reflexivity.
Qed.

(** X9.  [ejecutar] from any iteration.  On an engine whose counter is i
    (not only 0), with any step budget and any non-zero cada_render (a
    negative one counts as its absolute value), provided that [time.sleep]
    accepts the pause and that every frame of the run can be drawn,
    [ejecutar] makes max(pasos, 0) steps, draws a frame with its pause after
    each iteration k of i+1 .. i+pasos with k % cada_render == 0 or k == 1,
    and draws the final frame.  When i >= 1 the clause k == 1 never applies:
    the frames of the loop are exactly the multiples of cada_render. *)
Theorem ejecutar_desde (colorama : bool) (e : @DifusionCalor2D T) (N : nat) :
  (2 <= N)%nat -> es_malla N (u e) -> cada_render (cfg e) <> 0 ->
  time_sleep (pausa (cfg e)) = Ok tt -> cuadros_dibujables colorama e ->
  exists e' tr, ejecutar colorama e = Ok (e', tr) /\
    pasos_sucesivos (Z.to_nat (pasos (cfg e))) e = Ok e' /\
    iteracion e' = iteracion e + Z.max 0 (pasos (cfg e)) /\
    tr = eventos_bucle (cfg e) (seqZ (iteracion e + 1) (pasos (cfg e)))
         ++ [Render (iteracion e'); Fin] /\
    (1 <= iteracion e ->
       renders tr =
         List.filter (fun k => k mod Z.abs (cada_render (cfg e)) =? 0)
                     (seqZ (iteracion e + 1) (pasos (cfg e)))
         ++ [iteracion e']).
Proof.
  intros HN Hu Hcr Hsl Hdib.
  destruct (ejecutar_general colorama e N HN Hu Hcr Hsl Hdib)
    as (e' & He' & Hi & _ & _ & Hej).
  exists e', (eventos_bucle (cfg e) (seqZ (iteracion e + 1) (pasos (cfg e)))
              ++ [Render (iteracion e'); Fin]).
  split; [exact Hej|].
  split; [exact He'|]. split; [exact Hi|]. split; [reflexivity|].
  intros H1. rewrite renders_app, renders_eventos_bucle.
  f_equal. apply filter_ext_in_iff. intros k Hk.
  apply list_elem_of_In, elem_of_seqZ in Hk.
  unfold toca_render.
  destruct (Z.eqb_spec k 1) as [->|_]; [lia|]. rewrite orb_false_r.
  destruct (Z.eqb_spec (k mod cada_render (cfg e)) 0) as [E|E];
    destruct (Z.eqb_spec (k mod Z.abs (cada_render (cfg e))) 0) as [E'|E'];
    try reflexivity; exfalso.
  - apply E'. apply Z.mod_divide in E; [|exact Hcr].
    apply Z.mod_divide; [lia|]. apply Z.divide_abs_l. exact E.
  - apply E. apply Z.mod_divide in E'; [|lia].
    apply Z.mod_divide; [exact Hcr|]. apply Z.divide_abs_l. exact E'.
Qed.

End Bucle.

Section Cuadros.
Context {T : Type} `{Numerico T}.

Lemma div_siguiente (p c : Z) :
  0 <= p -> 0 < c ->
  (p + 1) / c = p / c + (if (p + 1) mod c =? 0 then 1 else 0).
Proof.
  intros Hp Hc.
  destruct (Z.eqb_spec ((p + 1) mod c) 0) as [E|E];
    Z.div_mod_to_equations; nia.
Qed.

Lemma cuenta_cuadros (c : Z) (p : nat) :
  0 < c ->
  Z.of_nat (length (List.filter (toca_render c) (seqZ 1 (Z.of_nat p)))) =
    Z.of_nat p / c + (if (c =? 1) || (Z.of_nat p =? 0) then 0 else 1).
Proof.
  intros Hc. induction p as [|p IH].
  - simpl. rewrite Z.div_0_l by lia. rewrite orb_true_r. reflexivity.
  - rewrite seqZ_S, List.filter_app, length_app, Nat2Z.inj_add, IH.
    replace (Z.of_nat (S p)) with (Z.of_nat p + 1) by lia.
    rewrite (div_siguiente (Z.of_nat p) c) by lia.
    cbn [List.filter]. unfold toca_render.
    replace (1 + Z.of_nat p) with (Z.of_nat p + 1) by lia.
    destruct (Z.eqb_spec (Z.of_nat p + 1) 0) as [?|_]; [lia|].
    rewrite orb_false_r.
    destruct (Z.eqb_spec c 1) as [->|Hc1].
    + rewrite Z.mod_1_r. simpl. lia.
    + cbn [orb].
      destruct (Z.eqb_spec (Z.of_nat p) 0) as [E0|E0].
      * rewrite E0. simpl (0 + 1).
        rewrite Z.mod_1_l by lia. simpl. lia.
      * destruct (Z.eqb_spec (Z.of_nat p + 1) 1) as [?|_]; [lia|].
        rewrite orb_false_r.
        destruct ((Z.of_nat p + 1) mod c =? 0); simpl; lia.
Qed.

(** X8.  The number of frames of a run.  From iteration 0, with pasos > 0
    and cada_render > 0, provided that [time.sleep] accepts the pause and
    that every frame of the run can be drawn, [ejecutar] draws
    pasos / cada_render periodic frames (integer division), one more for
    iteration 1 unless cada_render is 1, and the final one. *)
Theorem ejecutar_numero_de_cuadros (colorama : bool) (e : @DifusionCalor2D T) (N : nat) :
  (2 <= N)%nat -> es_malla N (u e) -> iteracion e = 0 ->
  0 < pasos (cfg e) -> 0 < cada_render (cfg e) ->
  time_sleep (pausa (cfg e)) = Ok tt -> cuadros_dibujables colorama e ->
  exists e' tr, ejecutar colorama e = Ok (e', tr) /\
    Z.of_nat (length (renders tr)) =
      pasos (cfg e) / cada_render (cfg e)
      + (if cada_render (cfg e) =? 1 then 0 else 1) + 1.
Proof.
  intros HN Hu Hit Hp Hcr Hsl Hdib.
  destruct (ejecutar_general colorama e N HN Hu ltac:(lia) Hsl Hdib)
    as (e' & _ & _ & _ & _ & Hej).
  rewrite Hit in Hej. simpl in Hej.
  eexists e', _. split; [exact Hej|].
  rewrite renders_app, renders_eventos_bucle, length_app, Nat2Z.inj_add.
  rewrite <- (Z2Nat.id (pasos (cfg e))) at 1 by lia.
  rewrite (cuenta_cuadros _ _ Hcr), Z2Nat.id by lia.
  destruct (Z.eqb_spec (pasos (cfg e)) 0) as [?|_]; [lia|].
  rewrite orb_false_r. reflexivity.
Qed.

End Cuadros.

(** ** The command line and the whole program *)

Section Programa_completo.
Context {T : Type} `{Numerico T}.

Lemma parse_args_app (a1 a2 : list (string * @valor T)) (ns : @Namespace T) :
  parse_args (a1 ++ a2) ns = (ns1 ← parse_args a1 ns; parse_args a2 ns1).
Proof.
  revert ns. induction a1 as [|[s v] a1 IH]; intros ns; [reflexivity|].
  simpl. destruct (buscar_opcion s) as [o|]; [|reflexivity]. simpl.
  destruct (guardar o v ns) as [ns1|]; [|reflexivity]. simpl. apply IH.
Qed.

(** What the validation guarantees about the integer fields. *)
Lemma parsear_argumentos_enteros (argv : list (string * @valor T)) c :
  parsear_argumentos argv = Ok c -> 3 <= n c /\ 0 < pasos c /\ 0 < cada_render c.
Proof.
  unfold parsear_argumentos.
  destruct (parse_args argv ns_defecto) as [a|]; simpl; [|discriminate].
  destruct (Z.ltb_spec (a_n a) 3); [discriminate|].
  destruct (menor_igual (a_alpha a) (lit 0 1)); [discriminate|].
  destruct (menor_igual (a_dx a) (lit 0 1)); [discriminate|].
  destruct (Z.leb_spec (a_pasos a) 0); [discriminate|].
  destruct (Z.leb_spec (a_cada_render a) 0); [discriminate|].
  destruct (negb _); [discriminate|].
  intros E. injection E as <-. simpl. lia.
Qed.

Lemma init_partes (c : @ConfiguracionSimulacion T) e0 :
  __init__ c = Ok e0 ->
  cfg e0 = c /\ iteracion e0 = 0 /\ inicializar_placa c = Ok (u e0) /\
  _calcular_dt_estable c = Ok (dt e0).
Proof.
  unfold __init__.
  destruct (_calcular_dt_estable c) as [dt0|]; simpl; [|discriminate].
  destruct (py_pot2 (dx c)) as [d2|]; simpl; [|discriminate].
  destruct (py_div _ d2) as [r0|]; simpl; [|discriminate].
  destruct (inicializar_placa c) as [u0|]; simpl; [|discriminate].
  intros E. injection E as <-. simpl. repeat split; reflexivity.
Qed.

(** X11.  The pause is never validated: if an argument vector is accepted,
    the same vector followed by [--pausa=x] is accepted for every float x
    (negative, NaN or infinite alike) and gives the same configuration with
    pause x. *)
Theorem pausa_sin_validar (argv : list (string * @valor T)) c (x : T) :
  parsear_argumentos argv = Ok c ->
  parsear_argumentos (argv ++ [("--pausa"%string, VReal x)]) =
    Ok {| n := n c; alpha := alpha c; dx := dx c; pasos := pasos c;
          cada_render := cada_render c; pausa := x;
          factor_seguridad_cfl := factor_seguridad_cfl c;
          t_arriba := t_arriba c; t_abajo := t_abajo c;
          t_izquierda := t_izquierda c; t_derecha := t_derecha c |}.
Proof.
  unfold parsear_argumentos. rewrite parse_args_app.
  destruct (parse_args argv ns_defecto) as [a|]; [|discriminate].
  cbn [mbind resultado_bind]. intros Hc.
  change (parse_args [("--pausa"%string, VReal x)] a)
    with (Ok {| a_n := a_n a; a_alpha := a_alpha a; a_dx := a_dx a;
                a_pasos := a_pasos a; a_cada_render := a_cada_render a;
                a_pausa := x;
                a_factor_seguridad_cfl := a_factor_seguridad_cfl a |}).
  cbn [mbind resultado_bind a_n a_alpha a_dx a_pasos a_cada_render a_pausa
       a_factor_seguridad_cfl].
  repeat match type of Hc with
         | (if ?b then _ else _) = _ => destruct b; [discriminate|]
         end.
  injection Hc as <-. reflexivity.
Qed.

(** X12.  The whole program on an accepted command line.  If
    [parsear_argumentos] returns a configuration, the constructor returns an
    engine for it, [time.sleep] accepts the pause and every frame of the run
    can be drawn, then [main] returns: the engine it leaves is the one
    reached by exactly [pasos] steps from the constructed one, its counter is
    [pasos], its configuration is the parsed one and its grid is n x n; the
    frames are those of iterations k with k % cada_render == 0 or k == 1,
    and the final one. *)
Theorem main_compuesto (colorama : bool) (argv : list (string * @valor T)) c e0 :
  parsear_argumentos argv = Ok c -> __init__ c = Ok e0 ->
  time_sleep (pausa c) = Ok tt -> cuadros_dibujables colorama e0 ->
  exists e' tr, main colorama argv = Ok (e', tr) /\
    pasos_sucesivos (Z.to_nat (pasos c)) e0 = Ok e' /\
    iteracion e' = pasos c /\ cfg e' = c /\
    es_malla (Z.to_nat (n c)) (u e') /\
    renders tr =
      List.filter (fun k => (k mod cada_render c =? 0) || (k =? 1)) (seqZ 1 (pasos c))
      ++ [pasos c].
Proof.
  intros Hc Hi Hsl Hdib.
  destruct (parsear_argumentos_enteros argv c Hc) as (Hn & Hp & Hcr).
  destruct (init_partes c e0 Hi) as (Hcfg & Hit & Hu & _).
  rewrite inicializar_placa_ok in Hu by lia. injection Hu as Hu.
  assert (Hm : es_malla (Z.to_nat (n c)) (u e0)).
  { rewrite <- Hu. apply forma_bordes_fijos, forma_ceros. }
  assert (HN : (2 <= Z.to_nat (n c))%nat) by lia.
  destruct (ejecutar_general colorama e0 _ HN Hm ltac:(rewrite Hcfg; lia)
              ltac:(rewrite Hcfg; exact Hsl) Hdib)
    as (e' & He' & Hi' & Hc' & Hm' & Hej).
  rewrite Hit, Hcfg in *. simpl in Hej.
  eexists e', _. split.
  { unfold main. rewrite Hc. cbn [mbind resultado_bind]. rewrite Hi.
    cbn [mbind resultado_bind]. exact Hej. }
  split; [exact He'|]. split; [lia|]. split; [exact Hc'|]. split; [exact Hm'|].
  rewrite renders_app, renders_eventos_bucle. unfold renders at 1. simpl.
  f_equal. f_equal. lia.
Qed.

End Programa_completo.

(** ** binary64: validation and the temperature blocks *)

Section Bloques.

Lemma es_nan_Prim2SF (x : float) : Prim2SF x = S754_nan <-> is_nan x = true.
Proof.
  unfold Prim2SF. destruct (is_nan x); [tauto|].
  split; [|discriminate].
  destruct (is_zero x); [discriminate|].
  destruct (is_infinity x); [discriminate|].
  destruct (Z.frexp x) as [r0 e0].
  destruct (shr_fexp _ _ _ _ _) as [s0 e1].
  destruct (shr_m s0); discriminate.
Qed.

(** What [x <= 0] being false leaves: a positive number or a NaN. *)
Lemma no_leb_cero (x : float) :
  PrimFloat.leb x 0 = false -> PrimFloat.ltb 0 x = true \/ is_nan x = true.
Proof.
  rewrite FloatAxioms.leb_spec, FloatAxioms.ltb_spec.
  change (Prim2SF 0) with (S754_zero false).
  destruct (Prim2SF x) as [s|s| |s m e] eqn:Ex.
  - discriminate.
  - destruct s; [discriminate | left; reflexivity].
  - intros _. right. apply es_nan_Prim2SF. exact Ex.
  - destruct s; [discriminate | left; reflexivity].
Qed.

Lemma ltb_no_nan (x y : float) : PrimFloat.ltb x y = true -> is_nan y = false.
Proof.
  rewrite FloatAxioms.ltb_spec. intros Hl.
  destruct (is_nan y) eqn:Hn; [|reflexivity].
  apply es_nan_Prim2SF in Hn. rewrite Hn in Hl.
  destruct (Prim2SF x) as [| | |[] ? ?]; discriminate.
Qed.

(** X10.  What the validation of [parsear_argumentos] guarantees on binary64.
    An accepted configuration has n >= 3, pasos > 0, cada_render > 0 and a
    safety factor that is a number in (0, 1]; alpha and dx are only known
    not to satisfy [<= 0]: each is positive or NaN, because a comparison with
    NaN is false. *)
Theorem validacion_binario64 (argv : list (string * @valor float)) c :
  parsear_argumentos argv = Ok c ->
  3 <= n c /\ 0 < pasos c /\ 0 < cada_render c /\
  (PrimFloat.ltb 0 (alpha c) = true \/ is_nan (alpha c) = true) /\
  (PrimFloat.ltb 0 (dx c) = true \/ is_nan (dx c) = true) /\
  PrimFloat.ltb 0 (factor_seguridad_cfl c) = true /\
  PrimFloat.leb (factor_seguridad_cfl c) 1 = true /\
  is_nan (factor_seguridad_cfl c) = false.
Proof.
  unfold parsear_argumentos.
  destruct (parse_args argv ns_defecto) as [a|]; cbn [mbind resultado_bind]; [|discriminate].
  cbn [menor menor_igual binario64].
  change (lit (T:=float) 0 1) with 0%float. change (lit (T:=float) 1 1) with 1%float.
  destruct (Z.ltb_spec (a_n a) 3); [discriminate|].
  destruct (PrimFloat.leb (a_alpha a) 0) eqn:Ha; [discriminate|].
  destruct (PrimFloat.leb (a_dx a) 0) eqn:Hd; [discriminate|].
  destruct (Z.leb_spec (a_pasos a) 0); [discriminate|].
  destruct (Z.leb_spec (a_cada_render a) 0); [discriminate|].
  destruct (PrimFloat.ltb 0 (a_factor_seguridad_cfl a)) eqn:Hs; [|discriminate].
  destruct (PrimFloat.leb (a_factor_seguridad_cfl a) 1) eqn:Hs1; [|discriminate].
  intros E. injection E as <-. cbn [n pasos cada_render alpha dx factor_seguridad_cfl].
  repeat (split; [first [lia | apply no_leb_cero; assumption | assumption]|]).
  exact (ltb_no_nan _ _ Hs).
Qed.

(** A NaN diffusion coefficient passes the validation. *)
Lemma validacion_binario64_testigo :
  exists c, parsear_argumentos [("--alpha"%string, VReal nan)] = Ok c /\
    is_nan (alpha c) = true /\ 3 <= n c /\ PrimFloat.leb (factor_seguridad_cfl c) 1 = true.
Proof.
  eexists. split; [vm_compute; reflexivity|].
  split; [vm_compute; reflexivity|].
  pose proof (validacion_binario64 [("--alpha"%string, VReal nan)] _
                ltac:(vm_compute; reflexivity)) as (H1 & _ & _ & _ & _ & _ & H2 & _).
  split; [exact H1 | exact H2].
Defined.

(** The level in closed form. *)
Lemma nivel_valor (temp t_min t_max : float) :
  nivel temp t_min t_max =
    Ok (if PrimFloat.leb t_max t_min then 0%float
        else np_clip ((temp - t_min) / (t_max - t_min))%float 0%float 1%float).
Proof.
  unfold nivel, py_div. cbn [menor_igual igual resta divi binario64].
  change (cero (T:=float)) with 0%float.
  destruct (PrimFloat.leb t_max t_min) eqn:Hle; [reflexivity|].
  rewrite (resta_no_nula t_min t_max Hle). reflexivity.
Qed.

Lemma ltb_nan_l (x y : float) : is_nan x = true -> PrimFloat.ltb x y = false.
Proof.
  intros Hn. apply es_nan_Prim2SF in Hn.
  rewrite FloatAxioms.ltb_spec, Hn. reflexivity.
Qed.

(** X13.  The colour backend of [_bloque_por_temperatura] on binary64.  For
    every temperature and every (min, max), infinities and NaN included, it
    returns a colour block and never raises.  When max <= min (a uniform
    grid) the block is blue; when the level is NaN (the comparison
    max <= min fails and the quotient is NaN) every threshold test fails and
    the block is red, the colour of the hottest cells. *)
Theorem bloque_color_binario64 (temp t_min t_max : float) :
  (exists c, _bloque_por_temperatura true temp t_min t_max = Ok (Bloque c)) /\
  (PrimFloat.leb t_max t_min = true ->
     _bloque_por_temperatura true temp t_min t_max = Ok (Bloque BLUE)) /\
  (PrimFloat.leb t_max t_min = false ->
     is_nan ((temp - t_min) / (t_max - t_min))%float = true ->
     _bloque_por_temperatura true temp t_min t_max = Ok (Bloque RED)).
Proof.
  unfold _bloque_por_temperatura. rewrite nivel_valor.
  cbn [mbind resultado_bind negb menor binario64].
  split; [|split].
  - repeat match goal with
           | |- context [if PrimFloat.ltb ?a ?b then _ else _] =>
               destruct (PrimFloat.ltb a b)
           end; eexists; reflexivity.
  - intros ->. vm_compute. reflexivity.
  - intros -> Hq.
    destruct (np_clip_binario64 ((temp - t_min) / (t_max - t_min))%float) as [Hn _].
    change (lit (T:=float) 0 1) with 0%float in Hn.
    change (lit (T:=float) 1 1) with 1%float in Hn.
    rewrite (Hn Hq). rewrite !(ltb_nan_l _ _ Hq). reflexivity.
Qed.

End Bloques.

Section Gris.

Lemma shr_fexp_cotas m e l :
  0 <= m ->
  0 <= shr_m (fst (shr_fexp prec emax m e l)) <= m /\
  snd (shr_fexp prec emax m e l) = Z.max e (fexp prec emax (Zdigits2 m + e)).
Proof.
  intros Hm. unfold shr_fexp, shr.
  destruct (fexp prec emax (Zdigits2 m + e) - e) as [|q|q] eqn:En; cbn [fst snd];
    rewrite ?shr_m_record_of_loc; try (split; lia).
  rewrite shr_m_iter by (rewrite shr_m_record_of_loc; lia).
  rewrite shr_m_record_of_loc.
  assert (0 < 2 ^ Zpos q) by (apply Z.pow_pos_nonneg; lia).
  split; [|lia]. split; [apply Z.div_pos; lia|].
  apply Z.div_le_upper_bound; nia.
Qed.

Lemma redondeo_cota m l : 0 <= m -> 0 <= round_nearest_even m l <= m + 1.
Proof.
  intros Hm. destruct l as [|[]]; simpl; try lia.
  destruct (Z.even m); lia.
Qed.

Lemma Zdigits2_cota m k : 0 <= m -> 0 <= k -> m < 2 ^ k -> Zdigits2 m <= k.
Proof.
  intros Hm Hk Hlt. destruct m as [|p|p]; simpl; try lia.
  pose proof (digits2_cotas p) as [Hlo _].
  destruct (Z_le_gt_dec (Zpos (digits2_pos p)) k) as [|Hgt]; [assumption|].
  assert (2 ^ k <= 2 ^ (Zpos (digits2_pos p) - 1)) by (apply Z.pow_le_mono_r; lia).
  lia.
Qed.

(** A product of two 53-bit mantissas with a small exponent rounds to a
    finite number or a zero of the same sign. *)
Lemma binary_round_aux_finito s m e l :
  0 < m < 2 ^ 106 -> e <= -101 ->
  binary_round_aux prec emax s m e l = S754_zero s \/
  exists m' e', binary_round_aux prec emax s m e l = S754_finite s m' e'.
Proof.
  intros Hm He. unfold binary_round_aux.
  pose proof (shr_fexp_cotas m e l ltac:(lia)) as [H1 H2].
  pose proof (Zdigits2_cota m 106 ltac:(lia) ltac:(lia) ltac:(lia)) as Hd.
  destruct (shr_fexp prec emax m e l) as [mrs' e']. cbn [fst snd] in H1, H2.
  pose proof (redondeo_cota (shr_m mrs') (loc_of_shr_record mrs') ltac:(lia)) as H3.
  set (m2 := round_nearest_even (shr_m mrs') (loc_of_shr_record mrs')) in *.
  pose proof (shr_fexp_cotas m2 e' loc_Exact ltac:(lia)) as [H4 H5].
  assert (Hm2 : m2 < 2 ^ 107).
  { change (2 ^ 107) with (2 * 2 ^ 106). lia. }
  pose proof (Zdigits2_cota m2 107 ltac:(lia) ltac:(lia) Hm2) as Hd2.
  destruct (shr_fexp prec emax m2 e' loc_Exact) as [mrs'' e'']. cbn [fst snd] in H4, H5.
  unfold fexp, SpecFloat.emin, prec, emax in H2, H5.
  destruct (shr_m mrs'') as [|q|q]; [left; reflexivity| |lia].
  right. destruct (Z.leb_spec e'' (emax - prec)) as [|Hgt].
  - eexists _, _. reflexivity.
  - unfold emax, prec in Hgt. lia.
Qed.

(** [int (nv * 9)] for a level within [0, 1]. *)
Lemma truncar_por_nueve (nv : float) :
  PrimFloat.leb 0 nv = true -> PrimFloat.leb nv 1 = true ->
  exists idx, float_a_Z (nv * 9)%float = Some idx /\ 0 <= idx.
Proof.
  rewrite !FloatAxioms.leb_spec. unfold float_a_Z. rewrite FloatAxioms.mul_spec.
  change (Prim2SF 0) with (S754_zero false).
  change (Prim2SF 1) with (S754_finite false 4503599627370496 (-52)).
  change (Prim2SF 9) with (S754_finite false 5066549580791808 (-49)).
  pose proof (Prim2SF_valid nv) as Hv.
  destruct (Prim2SF nv) as [s|s| |s m e]; cbn [SF64mul SFmul].
  - intros _ _. exists 0. split; [reflexivity | lia].
  - destruct s; discriminate.
  - discriminate.
  - destruct s; [discriminate|]. intros _ H1.
    assert (He : e <= -52).
    { unfold SFleb, SFcompare in H1.
      destruct (Z.compare_spec e (-52)); [lia | lia | discriminate]. }
    apply bounded_cotas in Hv as (_ & Hd & _).
    pose proof (digits2_cotas m) as [_ Hhi].
    assert (Hm : Zpos m < 2 ^ 53).
    { eapply Z.lt_le_trans; [exact Hhi|]. apply Z.pow_le_mono_r; lia. }
    assert (Hp : 0 < Zpos (m * 5066549580791808) < 2 ^ 106).
    { rewrite Pos2Z.inj_mul. change (2 ^ 106) with (2 ^ 53 * 2 ^ 53).
      assert (Zpos 5066549580791808 < 2 ^ 53) by reflexivity. nia. }
    destruct (binary_round_aux_finito (xorb false false) _ (e + -49) loc_Exact Hp
                ltac:(lia)) as [Hz | (m' & e' & Hf)].
    + rewrite Hz. exists 0. split; [reflexivity | lia].
    + rewrite Hf. cbn [xorb]. eexists. split; [reflexivity|].
      destruct (0 <=? e'); [apply Z.shiftl_nonneg | apply Z.shiftr_nonneg]; lia.
Qed.

(** X14.  The grey-scale backend of [_bloque_por_temperatura] (colorama
    missing) on binary64.  When max <= min the index into the ten-character
    scale is 0.  Otherwise, if the quotient (temp - min) / (max - min) is
    NaN, [int] raises ValueError; if it is not, the backend returns an index
    between 0 and 9.  It raises nothing else: OverflowError from [int]
    cannot occur, and the index is never negative (which Python would read
    from the end of the scale). *)
Theorem bloque_gris_binario64 (temp t_min t_max : float) :
  (PrimFloat.leb t_max t_min = true ->
     _bloque_por_temperatura false temp t_min t_max = Ok (Gris 0)) /\
  (PrimFloat.leb t_max t_min = false ->
     is_nan ((temp - t_min) / (t_max - t_min))%float = true ->
     _bloque_por_temperatura false temp t_min t_max = Lanza ValueError) /\
  (PrimFloat.leb t_max t_min = false ->
     is_nan ((temp - t_min) / (t_max - t_min))%float = false ->
     exists idx, _bloque_por_temperatura false temp t_min t_max = Ok (Gris idx) /\
       0 <= idx <= 9).
Proof.
  unfold _bloque_por_temperatura. rewrite nivel_valor.
  cbn [mbind resultado_bind negb]. unfold py_int. cbn [mult truncar es_nan binario64].
  change (lit (T:=float) 9 1) with 9%float.
  destruct (np_clip_binario64 ((temp - t_min) / (t_max - t_min))%float) as [Hn Hf].
  change (lit (T:=float) 0 1) with 0%float in Hn, Hf.
  change (lit (T:=float) 1 1) with 1%float in Hn, Hf.
  split; [|split].
  - intros ->. vm_compute. reflexivity.
  - intros -> Hq. rewrite (Hn Hq).
    set (q := ((temp - t_min) / (t_max - t_min))%float) in *.
    assert (Hp : Prim2SF (q * 9) = S754_nan).
    { rewrite FloatAxioms.mul_spec. apply es_nan_Prim2SF in Hq. rewrite Hq. reflexivity. }
    unfold float_a_Z. rewrite Hp. apply es_nan_Prim2SF in Hp. rewrite Hp. reflexivity.
  - intros -> Hq. destruct (Hf Hq) as (_ & H0 & H1).
    destruct (truncar_por_nueve _ H0 H1) as (idx & Hi & Hpos).
    rewrite Hi. cbn [mbind resultado_bind]. exists (Z.min idx 9).
    split; [reflexivity | lia].
Qed.

End Gris.

Section Minimo.

Lemma SFltb_no_SFleb x y : SFltb x y = true -> SFleb y x = false.
Proof.
  unfold SFltb, SFleb.
  destruct x as [sx|sx| |sx mx ex], y as [sy|sy| |sy my ey]; cbn [SFcompare].
  16:{ rewrite (Z.compare_antisym ex ey).
       rewrite !Pos.compare_cont_spec. cbn [Pos.switch_Eq].
       rewrite (Pos.compare_antisym mx my).
       destruct sx, sy; try discriminate; try reflexivity;
         destruct (ex ?= ey); cbn [CompOpp]; try discriminate; try reflexivity;
         destruct (mx ?= my)%positive; cbn [CompOpp]; discriminate || reflexivity. }
  all: try discriminate.
  all: try (destruct sx; discriminate || reflexivity).
  all: try (destruct sy; discriminate || reflexivity).
  all: destruct sx, sy; discriminate || reflexivity.
Qed.

Lemma binary_round_aux_no_nan s m e l :
  0 <= m -> binary_round_aux prec emax s m e l <> S754_nan.
Proof.
  intros Hm. unfold binary_round_aux.
  pose proof (shr_fexp_cotas m e l Hm) as [H1 _].
  destruct (shr_fexp prec emax m e l) as [mrs' e']. cbn [fst] in H1.
  pose proof (redondeo_cota (shr_m mrs') (loc_of_shr_record mrs') ltac:(lia)) as H3.
  pose proof (shr_fexp_cotas _ e' loc_Exact ltac:(apply H3)) as [H4 _].
  destruct (shr_fexp prec emax _ e' loc_Exact) as [mrs'' e'']. cbn [fst] in H4.
  destruct (shr_m mrs'') as [|q|q]; [discriminate| |lia].
  destruct (e'' <=? emax - prec); discriminate.
Qed.

Lemma binary_normalize_no_nan z e sz : binary_normalize prec emax z e sz <> S754_nan.
Proof.
  unfold binary_normalize, binary_round.
  destruct z as [|p|p]; [discriminate| |].
  all: match goal with
       | |- context [shl_align ?a ?b ?c] => destruct (shl_align a b c) as [mz ez]
       end.
  all: apply binary_round_aux_no_nan; lia.
Qed.

(** A number that is neither NaN nor infinite is a zero or a finite value. *)
Lemma finito_Prim2SF (x : float) :
  is_nan x = false -> is_infinity x = false ->
  (exists s, Prim2SF x = S754_zero s) \/ (exists s m e, Prim2SF x = S754_finite s m e).
Proof.
  intros Hn Hi. unfold Prim2SF. rewrite Hn, Hi.
  destruct (is_zero x); [left; eexists; reflexivity|].
  destruct (Z.frexp x) as [r0 e0].
  destruct (shr_fexp _ _ _ _ _) as [s0 e1].
  destruct (shr_m s0); [left | right | left]; repeat eexists.
Qed.

(** The level of the coldest cell. *)
Lemma cociente_del_minimo (t_min t_max : float) :
  PrimFloat.ltb t_min t_max = true -> is_infinity t_min = false ->
  PrimFloat.leb t_max t_min = false /\
  exists s, Prim2SF ((t_min - t_min) / (t_max - t_min))%float = S754_zero s.
Proof.
  intros Hlt Hi.
  assert (Hn : is_nan t_min = false).
  { destruct (is_nan t_min) eqn:E; [|reflexivity].
    rewrite (ltb_nan_l _ _ E) in Hlt. discriminate. }
  pose proof (resta_no_nula t_min t_max) as Hz.
  rewrite FloatAxioms.ltb_spec in Hlt.
  assert (Hle : PrimFloat.leb t_max t_min = false).
  { rewrite FloatAxioms.leb_spec. apply SFltb_no_SFleb. exact Hlt. }
  split; [exact Hle|]. specialize (Hz Hle).
  rewrite FloatAxioms.eqb_spec in Hz.
  rewrite FloatAxioms.div_spec, !FloatAxioms.sub_spec. rewrite FloatAxioms.sub_spec in Hz.
  change (Prim2SF 0) with (S754_zero false) in Hz.
  pose proof (Prim2SF_valid t_min) as Vx.
  unfold SF64div, SF64sub in *.
  assert (H0 : SFsub prec emax (Prim2SF t_min) (Prim2SF t_min) = S754_zero false).
  { destruct (finito_Prim2SF t_min Hn Hi) as [[s ->] | (s & m & e & ->)].
    - destruct s; reflexivity.
    - cbn [SFsub]. rewrite Z.sub_diag. reflexivity. }
  rewrite H0.
  assert (Hd : SFsub prec emax (Prim2SF t_max) (Prim2SF t_min) <> S754_nan).
  { destruct (finito_Prim2SF t_min Hn Hi) as [[s E] | (s & m & e & E)]; rewrite E in *;
      destruct (Prim2SF t_max) as [sy|sy| |sy my ey]; cbn [SFsub];
      try discriminate; try (destruct sy, s; discriminate).
    apply binary_normalize_no_nan. }
  destruct (SFsub prec emax (Prim2SF t_max) (Prim2SF t_min)) as [s|s| |s m e].
  - destruct s; discriminate.
  - eexists. reflexivity.
  - contradiction.
  - eexists. reflexivity.
Qed.

(** X15.  The coldest cell.  On binary64, if min < max and min is not
    infinite, the level of a cell at the minimum is exactly 0: min - min is
    +0 and max - min is neither zero nor NaN.  The cell is drawn blue by the
    colour backend and with the first character of the scale by the
    grey-scale one. *)
Theorem nivel_del_minimo_binario64 (t_min t_max : float) :
  PrimFloat.ltb t_min t_max = true -> is_infinity t_min = false ->
  nivel t_min t_min t_max = Ok 0%float /\
  _bloque_por_temperatura true t_min t_min t_max = Ok (Bloque BLUE) /\
  _bloque_por_temperatura false t_min t_min t_max = Ok (Gris 0).
Proof.
  intros Hlt Hi.
  destruct (cociente_del_minimo t_min t_max Hlt Hi) as (Hle & s & Hq).
  assert (Hnv : nivel t_min t_min t_max = Ok 0%float).
  { rewrite nivel_valor, Hle. f_equal.
    set (q := ((t_min - t_min) / (t_max - t_min))%float) in *.
    unfold np_clip. cbn [es_nan menor binario64].
    assert (Hn : is_nan q = false).
    { destruct (is_nan q) eqn:E; [|reflexivity].
      apply es_nan_Prim2SF in E. congruence. }
    assert (Hl : PrimFloat.ltb 0 q = false).
    { rewrite FloatAxioms.ltb_spec, Hq. reflexivity. }
    rewrite Hn, Hl. reflexivity. }
  split; [exact Hnv|].
  unfold _bloque_por_temperatura. rewrite Hnv. split; vm_compute; reflexivity.
Qed.

Lemma nivel_del_minimo_binario64_testigo :
  PrimFloat.ltb 0 100 = true /\ is_infinity 0 = false /\
  _bloque_por_temperatura true 0%float 0%float 100%float = Ok (Bloque BLUE).
Proof.
  split; [reflexivity|]. split; [reflexivity|].
  exact (proj1 (proj2 (nivel_del_minimo_binario64 0 100 eq_refl eq_refl))).
Defined.

End Minimo.

Section Construccion.

Lemma shr_fexp_positivo_gen m e l :
  0 < m -> emin <= e + Zdigits2 m - 1 ->
  0 < shr_m (fst (shr_fexp prec emax m e l)) /\ emin <= snd (shr_fexp prec emax m e l).
Proof.
  intros Hm He.
  pose proof (shr_fexp_cotas m e l ltac:(lia)) as [_ Hs].
  split; [|rewrite Hs; unfold fexp; lia].
  unfold shr_fexp, shr.
  destruct m as [|p|p]; try lia. cbn [Zdigits2] in *.
  pose proof (digits2_cotas p) as [Hlo Hhi].
  set (d := Zpos (digits2_pos p)) in *.
  destruct (fexp prec emax (d + e) - e) as [|q|q] eqn:En; cbn [fst];
    rewrite ?shr_m_record_of_loc; try lia.
  unfold fexp, SpecFloat.emin, prec, emax in En, He.
  rewrite shr_m_iter by (rewrite shr_m_record_of_loc; lia).
  rewrite shr_m_record_of_loc.
  assert (Hq : Zpos q <= d - 1) by lia.
  assert (2 ^ Zpos q <= 2 ^ (d - 1)) by (apply Z.pow_le_mono_r; lia).
  assert (0 < 2 ^ Zpos q) by (apply Z.pow_pos_nonneg; lia).
  apply Z.div_str_pos. lia.
Qed.

Lemma binary_round_aux_no_cero_gen s m e l s0 :
  0 < m -> emin <= e + Zdigits2 m - 1 ->
  binary_round_aux prec emax s m e l <> S754_zero s0.
Proof.
  intros Hm He. unfold binary_round_aux.
  pose proof (shr_fexp_positivo_gen m e l Hm He) as [H1 H2].
  destruct (shr_fexp prec emax m e l) as [mrs' e']. cbn [fst snd] in H1, H2.
  pose proof (round_nearest_even_positivo (shr_m mrs') (loc_of_shr_record mrs') H1) as H3.
  pose proof (shr_fexp_positivo _ e' loc_Exact H3 H2) as [H4 H5].
  destruct (shr_fexp prec emax _ e' loc_Exact) as [mrs'' e'']. cbn [fst snd] in H4, H5.
  destruct (shr_m mrs'') as [|q|q]; try lia.
  destruct (e'' <=? emax - prec); discriminate.
Qed.

(** [4.0 * alpha] is not zero for an alpha that the validation lets through. *)
Lemma cuatro_alpha_no_nulo (a : float) :
  PrimFloat.leb a 0 = false -> PrimFloat.eqb (4 * a) 0 = false.
Proof.
  rewrite FloatAxioms.leb_spec, FloatAxioms.eqb_spec, FloatAxioms.mul_spec.
  change (Prim2SF 0) with (S754_zero false).
  change (Prim2SF 4) with (S754_finite false 4503599627370496 (-50)).
  pose proof (Prim2SF_valid a) as Hv.
  destruct (Prim2SF a) as [s|s| |s m e]; cbn [SF64mul SFmul xorb].
  - discriminate.
  - destruct s; [discriminate | reflexivity].
  - reflexivity.
  - destruct s; [discriminate|]. intros _.
    apply bounded_cotas in Hv as (He & _).
    pose proof (binary_round_aux_no_cero_gen false
                  (Zpos (4503599627370496 * m)) (-50 + e) loc_Exact) as Hz.
    assert (Hd : 53 <= Zdigits2 (Zpos (4503599627370496 * m))).
    { cbn [Zdigits2].
      pose proof (digits2_cotas (4503599627370496 * m)) as [_ Hhi].
      set (d := Zpos (digits2_pos (4503599627370496 * m))) in *.
      destruct (Z_le_gt_dec 53 d) as [|Hgt]; [assumption|].
      assert (2 ^ d <= 2 ^ 52) by (apply Z.pow_le_mono_r; lia).
      rewrite Pos2Z.inj_mul in Hhi.
      change (Zpos 4503599627370496) with (2 ^ 52) in Hhi. nia. }
    specialize (fun s0 => Hz s0 ltac:(lia)
                            ltac:(unfold SpecFloat.emin, prec, emax in *; lia)).
    destruct (binary_round_aux prec emax false _ _ _) as [s0| | |s0 m0 e0].
    + exfalso. exact (Hz s0 eq_refl).
    + destruct s; reflexivity.
    + reflexivity.
    + destruct s0; reflexivity.
Qed.

(** The instance of the concrete runs is the one with the rounded product. *)
Lemma binario64_producto : binario64 = binario64_con (fun x => x * x)%float.
Proof. reflexivity. Qed.

(** X16.  The constructor on an accepted command line, on binary64,
    whatever the C library returns for dx ** 2.  Once [parsear_argumentos]
    has accepted the arguments, the arithmetic of the constructor can fail in
    two ways only, both through dx ** 2: OverflowError when the power of a
    finite dx is infinite, ZeroDivisionError when it is zero (dx
    underflows); 4 * alpha is never zero.  Otherwise the constructor goes on
    to [inicializar_placa] and returns the engine with that grid,
    dt = s * (dx ** 2 / (4 alpha)), r = alpha * dt / dx ** 2 and counter 0. *)
Theorem init_tras_validacion_binario64 (potencia2 : float -> float)
    (argv : list (string * @valor float)) c :
  parsear_argumentos (H:=binario64_con potencia2) argv = Ok c ->
  (is_infinity (potencia2 (dx c)) && negb (is_infinity (dx c)) = true ->
     __init__ (H:=binario64_con potencia2) c = Lanza OverflowError) /\
  (is_infinity (potencia2 (dx c)) && negb (is_infinity (dx c)) = false ->
   PrimFloat.eqb (potencia2 (dx c)) 0 = true ->
     __init__ (H:=binario64_con potencia2) c = Lanza ZeroDivisionError) /\
  (is_infinity (potencia2 (dx c)) && negb (is_infinity (dx c)) = false ->
   PrimFloat.eqb (potencia2 (dx c)) 0 = false ->
     __init__ (H:=binario64_con potencia2) c =
       (u0 ← inicializar_placa (H:=binario64_con potencia2) c;
        Ok {| cfg := c;
              dt := (factor_seguridad_cfl c * (potencia2 (dx c) / (4 * alpha c)))%float;
              r := (alpha c * (factor_seguridad_cfl c * (potencia2 (dx c) / (4 * alpha c)))
                    / potencia2 (dx c))%float;
              u := u0; iteracion := 0 |})).
Proof.
  intros Hc.
  assert (Ha : PrimFloat.eqb (4 * alpha c) 0 = false).
  { apply cuatro_alpha_no_nulo.
    unfold parsear_argumentos in Hc.
    destruct (parse_args argv ns_defecto) as [a|]; cbn [mbind resultado_bind] in Hc;
      [|discriminate].
    destruct (a_n a <? 3); [discriminate|].
    cbn [menor_igual binario64_con] in Hc.
    change (lit (Numerico:=binario64_con potencia2) 0 1) with 0%float in Hc.
    destruct (PrimFloat.leb (a_alpha a) 0) eqn:E; [discriminate|].
    repeat match type of Hc with
           | (if ?b then _ else _) = _ => destruct b; [discriminate|]
           end.
    injection Hc as <-. exact E. }
  unfold __init__, _calcular_dt_estable, py_pot2, py_div.
  cbn [cuadrado es_inf igual mult divi binario64_con].
  change (cero (H:=binario64_con potencia2)) with 0%float.
  change (lit (Numerico:=binario64_con potencia2) 4 1) with 4%float.
  split; [|split].
  - intros ->. reflexivity.
  - intros -> Hz. cbn [mbind resultado_bind]. rewrite Ha.
    cbn [mbind resultado_bind]. rewrite Hz. reflexivity.
  - intros -> Hz. cbn [mbind resultado_bind]. rewrite Ha.
    cbn [mbind resultado_bind]. rewrite Hz. reflexivity.
Qed.

(** [--dx=1e-200], with the rounded product for the power: the square
    underflows to zero. *)
Lemma init_tras_validacion_binario64_testigo :
  exists c,
    parsear_argumentos (H:=binario64_con (fun x => x * x)%float)
      [("--dx"%string, VReal 0x1p-600%float)] = Ok c /\
    __init__ (H:=binario64_con (fun x => x * x)%float) c = Lanza ZeroDivisionError.
Proof.
  eexists. split; [vm_compute; reflexivity|].
  refine (proj1 (proj2 (init_tras_validacion_binario64 (fun x => x * x)%float
            [("--dx"%string, VReal 0x1p-600%float)] _ _)) _ _);
    vm_compute; reflexivity.
Defined.

End Construccion.

Section CoeficienteNaN.

Lemma nan_mul_l (a b : float) : is_nan a = true -> is_nan (a * b) = true.
Proof.
  intros Ha. apply es_nan_Prim2SF in Ha. apply es_nan_Prim2SF.
  rewrite FloatAxioms.mul_spec, Ha. reflexivity.
Qed.

Lemma nan_mul_r (a b : float) : is_nan b = true -> is_nan (a * b) = true.
Proof.
  intros Hb. apply es_nan_Prim2SF in Hb. apply es_nan_Prim2SF.
  rewrite FloatAxioms.mul_spec, Hb. destruct (Prim2SF a); reflexivity.
Qed.

Lemma nan_div_l (a b : float) : is_nan a = true -> is_nan (a / b) = true.
Proof.
  intros Ha. apply es_nan_Prim2SF in Ha. apply es_nan_Prim2SF.
  rewrite FloatAxioms.div_spec, Ha. reflexivity.
Qed.

Lemma nan_div_r (a b : float) : is_nan b = true -> is_nan (a / b) = true.
Proof.
  intros Hb. apply es_nan_Prim2SF in Hb. apply es_nan_Prim2SF.
  rewrite FloatAxioms.div_spec, Hb. destruct (Prim2SF a); reflexivity.
Qed.

Lemma nan_add_r (a b : float) : is_nan b = true -> is_nan (a + b) = true.
Proof.
  intros Hb. apply es_nan_Prim2SF in Hb. apply es_nan_Prim2SF.
  rewrite FloatAxioms.add_spec, Hb. destruct (Prim2SF a); reflexivity.
Qed.

(** X17.  A NaN diffusion coefficient.  [--alpha nan] passes the validation
    (X10); if the constructor then returns, dt and r are NaN, the first step
    succeeds and leaves NaN in every interior cell, while the borders hold
    their temperatures. *)
Theorem alpha_nan_binario64 (argv : list (string * @valor float)) c e0 :
  parsear_argumentos argv = Ok c -> is_nan (alpha c) = true -> __init__ c = Ok e0 ->
  is_nan (dt e0) = true /\ is_nan (r e0) = true /\
  exists e1, actualizar_paso e0 = Ok e1 /\
    forall i j : nat,
      (i < Z.to_nat (n c))%nat -> (j < Z.to_nat (n c))%nat ->
      exists x, celda (u e1) i j = Some x /\
        ((0 < i < Z.to_nat (n c) - 1)%nat -> (0 < j < Z.to_nat (n c) - 1)%nat ->
           is_nan x = true) /\
        (j = 0%nat -> x = 30%float) /\ (j = (Z.to_nat (n c) - 1)%nat -> x = 30%float).
Proof.
  intros Hc Ha Hi.
  destruct (parsear_argumentos_enteros argv c Hc) as (Hn & _ & _).
  assert (Hb : t_izquierda c = 30%float /\ t_derecha c = 30%float).
  { unfold parsear_argumentos in Hc.
    destruct (parse_args argv ns_defecto) as [a|]; cbn [mbind resultado_bind] in Hc;
      [|discriminate].
    repeat match type of Hc with
           | (if ?b then _ else _) = _ => destruct b; [discriminate|]
           end.
    injection Hc as <-. split; vm_compute; reflexivity. }
  destruct Hb as [Hl Hr].
  assert (Hp : is_nan (dt e0) = true /\ is_nan (r e0) = true /\ cfg e0 = c /\
               es_malla (Z.to_nat (n c)) (u e0)).
  { unfold __init__, _calcular_dt_estable in Hi.
    destruct (py_pot2 (dx c)) as [d2|]; cbn [mbind resultado_bind] in Hi; [|discriminate].
    unfold py_div in Hi. cbn [igual mult divi binario64] in Hi.
    destruct (PrimFloat.eqb (lit 4 1 * alpha c) cero);
      cbn [mbind resultado_bind] in Hi; [discriminate|].
    destruct (PrimFloat.eqb d2 cero); cbn [mbind resultado_bind] in Hi; [discriminate|].
    rewrite (inicializar_placa_ok c ltac:(lia)) in Hi. cbn [mbind resultado_bind] in Hi.
    injection Hi as <-. cbn [dt r cfg u].
    assert (Hd : is_nan (factor_seguridad_cfl c * (d2 / (lit 4 1 * alpha c))) = true).
    { apply nan_mul_r, nan_div_r, nan_mul_r. exact Ha. }
    split; [exact Hd|]. split; [apply nan_div_l, nan_mul_l; exact Ha|].
    split; [reflexivity|]. apply forma_bordes_fijos.
    exact (forma_ceros (T:=float) (Z.to_nat (n c))). }
  destruct Hp as (Hdt & Hrr & Hcfg & Hm).
  split; [exact Hdt|]. split; [exact Hrr|].
  assert (HN : (2 <= Z.to_nat (n c))%nat) by lia.
  destruct (actualizar_paso_siguiente e0 _ HN Hm) as [Hs _].
  exists (siguiente e0). split; [exact Hs|].
  intros i j Hi' Hj'. rewrite (celda_siguiente e0 _ i j HN Hm Hi' Hj').
  eexists. split; [reflexivity|].
  unfold valor_borde. rewrite Hcfg, Hl, Hr.
  split; [|split].
  - intros Hii Hjj. repeat (case_decide; [lia|]).
    unfold plantilla. cbn [suma mult binario64].
    apply nan_add_r, nan_mul_l. exact Hrr.
  - intros ->. case_decide; [reflexivity|]. case_decide; [reflexivity | lia].
  - intros ->. case_decide; [reflexivity | lia].
Qed.

Lemma alpha_nan_binario64_testigo :
  exists c e0,
    parsear_argumentos [("--alpha"%string, VReal nan); ("--n"%string, VEntero 3)] = Ok c /\
    is_nan (alpha c) = true /\ __init__ c = Ok e0 /\ is_nan (r e0) = true.
Proof.
  eexists _, _. split; [vm_compute; reflexivity|].
  split; [vm_compute; reflexivity|]. split; [vm_compute; reflexivity|].
  refine (proj1 (proj2 (alpha_nan_binario64
            [("--alpha"%string, VReal nan); ("--n"%string, VEntero 3)] _ _ _ _ _)));
    vm_compute; reflexivity.
Defined.

End CoeficienteNaN.

(** ** binary64: the frame and the run *)

Section Cuadro.

Lemma mapM_devuelve {A B : Type} (f : A -> resultado B) (l : list A) :
  (forall x, x ∈ l -> exists y, f x = Ok y) ->
  exists l', mapM f l = Ok l' /\ length l' = length l.
Proof.
  induction l as [|x l IH]; intros Hf.
  - exists []. split; reflexivity.
  - destruct (Hf x ltac:(left)) as [y Hy].
    destruct IH as (l' & Hl & Hn); [intros z Hz; apply Hf; right; exact Hz|].
    exists (y :: l'). cbn [mapM]. rewrite Hy. cbn [mbind resultado_bind].
    rewrite Hl. split; [reflexivity | simpl; congruence].
Qed.

Lemma mapM_lanza {A B : Type} (f : A -> resultado B) (l : list A) ex :
  mapM f l = Lanza ex -> exists x, x ∈ l /\ f x = Lanza ex.
Proof.
  induction l as [|x l IH]; cbn [mapM]; [discriminate|].
  destruct (f x) as [y|ex'] eqn:Hx; cbn [mbind resultado_bind].
  - destruct (mapM f l) as [l'|ex'']; cbn [mbind resultado_bind]; [discriminate|].
    intros E. destruct (IH E) as (z & Hz & Hfz).
    exists z. split; [right; exact Hz | exact Hfz].
  - intros E. injection E as <-. exists x. split; [left | exact Hx].
Qed.

Lemma np_min_devuelve (m : malla float) :
  concat m <> [] -> exists t, np_min m = Ok t.
Proof. unfold np_min. destruct (concat m); [contradiction | eexists; reflexivity]. Qed.

Lemma np_max_devuelve (m : malla float) :
  concat m <> [] -> exists t, np_max m = Ok t.
Proof. unfold np_max. destruct (concat m); [contradiction | eexists; reflexivity]. Qed.

Lemma bloque_color_devuelve (temp t_min t_max : float) :
  exists b, _bloque_por_temperatura true temp t_min t_max = Ok b.
Proof.
  unfold _bloque_por_temperatura. rewrite nivel_valor.
  cbn [mbind resultado_bind negb menor binario64].
  repeat match goal with
         | |- context [if PrimFloat.ltb ?a ?b then _ else _] =>
             destruct (PrimFloat.ltb a b)
         end; eexists; reflexivity.
Qed.

Lemma bloque_gris_excepcion (temp t_min t_max : float) ex :
  _bloque_por_temperatura false temp t_min t_max = Lanza ex -> ex = ValueError.
Proof.
  unfold _bloque_por_temperatura. rewrite nivel_valor.
  cbn [mbind resultado_bind negb]. unfold py_int. cbn [mult truncar es_nan binario64].
  change (lit (T:=float) 9 1) with 9%float.
  set (nv := if PrimFloat.leb t_max t_min then 0%float else _).
  destruct (float_a_Z (nv * 9)) as [z|] eqn:Ez; cbn [mbind resultado_bind];
    [discriminate|].
  destruct (is_nan (nv * 9)) eqn:En; [intros E; injection E as <-; reflexivity|].
  exfalso.
  assert (Hnv : is_nan nv = false).
  { destruct (is_nan nv) eqn:E; [|reflexivity].
    rewrite (nan_mul_l nv 9 E) in En. discriminate. }
  assert (Hc : PrimFloat.leb 0 nv = true /\ PrimFloat.leb nv 1 = true).
  { unfold nv in *. destruct (PrimFloat.leb t_max t_min); [split; reflexivity|].
    destruct (np_clip_binario64 ((temp - t_min) / (t_max - t_min))%float) as [Hn Hf].
    change (lit (T:=float) 0 1) with 0%float in Hn, Hf.
    change (lit (T:=float) 1 1) with 1%float in Hn, Hf.
    destruct (is_nan ((temp - t_min) / (t_max - t_min))%float) eqn:Eq.
    - rewrite (Hn eq_refl) in Hnv. congruence.
    - destruct (Hf eq_refl) as (_ & H0 & H1). split; assumption. }
  destruct (truncar_por_nueve nv (proj1 Hc) (proj2 Hc)) as (idx & Hi & _).
  congruence.
Qed.

(** With colorama every frame of a run on an N x N grid can be drawn. *)
Lemma renderizar_color_devuelve (e : @DifusionCalor2D float) :
  concat (u e) <> [] ->
  exists f, renderizar_terminal true e = Ok f /\
    Forall2 (fun fr fila => length fr = length fila) f (u e).
Proof.
  intros Hv. unfold renderizar_terminal.
  destruct (np_min_devuelve (u e) Hv) as [t_min ->].
  destruct (np_max_devuelve (u e) Hv) as [t_max ->].
  cbn [mbind resultado_bind]. clear Hv.
  induction (u e) as [|fila m IH].
  - exists []. split; [reflexivity | constructor].
  - destruct (mapM_devuelve
                (fun temp => _bloque_por_temperatura true temp t_min t_max) fila)
      as (fr & Hfr & Hn); [intros x _; apply bloque_color_devuelve|].
    destruct IH as (f & Hf & Hs).
    exists (fr :: f). cbn [mapM]. rewrite Hfr. cbn [mbind resultado_bind].
    rewrite Hf. split; [reflexivity | constructor; assumption].
Qed.

Lemma malla_con_celdas (N : nat) (m : malla float) :
  (1 <= N)%nat -> es_malla N m -> concat m <> [].
Proof.
  intros HN [Hl Hf]. destruct m as [|[|x fila] m]; simpl in *; try lia; try discriminate.
  apply Forall_cons in Hf as [Hf _]. simpl in Hf. lia.
Qed.

Lemma cuadros_dibujables_color (e : @DifusionCalor2D float) (N : nat) :
  (2 <= N)%nat -> es_malla N (u e) -> cuadros_dibujables true e.
Proof.
  intros HN Hu j ej _ _ Hs.
  destruct (pasos_sucesivos_ok j e N HN Hu) as (e' & He' & Hm & _).
  rewrite Hs in He'. injection He' as <-.
  destruct (renderizar_color_devuelve ej (malla_con_celdas N _ ltac:(lia) Hm)) as (f & Hf & _).
  exists f. exact Hf.
Qed.

(** X18.  [renderizar_terminal] on binary64.  On a grid without cells it
    raises ValueError (from [np.min]) with either backend.  On any other
    grid the colour backend returns, whatever the cells hold (NaN and
    infinities included), with one block per cell; the grey-scale backend
    can raise nothing but ValueError. *)
Theorem renderizar_terminal_binario64 (e : @DifusionCalor2D float) :
  (concat (u e) = [] ->
     forall colorama, renderizar_terminal colorama e = Lanza ValueError) /\
  (concat (u e) <> [] ->
     exists f, renderizar_terminal true e = Ok f /\
       Forall2 (fun fr fila => length fr = length fila) f (u e)) /\
  (forall ex, renderizar_terminal false e = Lanza ex -> ex = ValueError).
Proof.
  split; [|split].
  - intros Hv colorama. unfold renderizar_terminal, np_min. rewrite Hv. reflexivity.
  - apply renderizar_color_devuelve.
  - intros ex. unfold renderizar_terminal, np_min, np_max.
    destruct (concat (u e)) as [|x resto];
      [intros E; injection E as <-; reflexivity|].
    cbn [mbind resultado_bind]. intros E.
    apply mapM_lanza in E as (fila & _ & E).
    apply mapM_lanza in E as (temp & _ & E).
    exact (bloque_gris_excepcion _ _ _ _ E).
Qed.

(** X19.  The run with the colour backend on binary64.  From iteration 0 on
    an N x N grid (N >= 2) with pasos > 0 and cada_render > 0, [ejecutar]
    returns if and only if [time.sleep] accepts the pause.  If it does, the
    run makes its [pasos] steps and draws its frames; if it does not, the
    run raises the exception of [time.sleep] (at the pause after the first
    step). *)
Theorem ejecutar_color_binario64 (e : @DifusionCalor2D float) (N : nat) :
  (2 <= N)%nat -> es_malla N (u e) -> iteracion e = 0 ->
  0 < pasos (cfg e) -> 0 < cada_render (cfg e) ->
  (time_sleep (pausa (cfg e)) = Ok tt ->
     exists e' tr, ejecutar true e = Ok (e', tr) /\
       pasos_sucesivos (Z.to_nat (pasos (cfg e))) e = Ok e' /\
       iteracion e' = pasos (cfg e) /\
       renders tr =
         List.filter (fun k => (k mod cada_render (cfg e) =? 0) || (k =? 1))
                     (seqZ 1 (pasos (cfg e)))
         ++ [pasos (cfg e)]) /\
  (forall ex, time_sleep (pausa (cfg e)) = Lanza ex -> ejecutar true e = Lanza ex).
Proof.
  intros HN Hu Hit Hp Hcr. split.
  - intros Hsl.
    destruct (ejecutar_general true e N HN Hu ltac:(lia) Hsl
                (cuadros_dibujables_color e N HN Hu))
      as (e' & He' & Hi & _ & _ & Hej).
    rewrite Hit in Hej, Hi. simpl in Hej.
    eexists e', _. split; [exact Hej|]. split; [exact He'|]. split; [lia|].
    rewrite renders_app, renders_eventos_bucle. unfold renders at 1. simpl.
    f_equal. f_equal. lia.
  - intros ex Hsl. unfold ejecutar.
    destruct (Z.to_nat (pasos (cfg e))) as [|q] eqn:Eq; [lia|].
    cbn [bucle]. destruct (actualizar_paso_siguiente e N HN Hu) as [Hs Hm].
    rewrite Hs. cbn [mbind resultado_bind]. unfold py_mod.
    change (cfg (siguiente e)) with (cfg e).
    change (iteracion (siguiente e)) with (iteracion e + 1).
    destruct (Z.eqb_spec (cada_render (cfg e)) 0) as [?|_]; [lia|].
    cbn [mbind resultado_bind]. rewrite Hit. change (0 + 1 =? 1) with true.
    rewrite orb_true_r.
    destruct (renderizar_color_devuelve (siguiente e)
                (malla_con_celdas N _ ltac:(lia) Hm)) as (f & Hf & _).
    rewrite Hf. cbn [mbind resultado_bind]. rewrite Hsl. reflexivity.
Qed.

End Cuadro.

(** ** Instances of the further properties *)

Section Instancias.
Local Open Scope float_scope.

(** A single row is top and bottom at once: the bottom write wins, then the
    two columns. *)
Lemma aplicar_contornos_marco_testigo :
  forma 1 3 [[1; 2; 3]] /\ (1 <= 1)%nat /\ (1 <= 3)%nat /\
  exists m', _aplicar_contornos config_3x3 [[1; 2; 3]] = Ok m' /\
    celda m' 0 0 = Some 30 /\ celda m' 0 1 = Some 0 /\ celda m' 0 2 = Some 30.
Proof.
  assert (Hm : forma 1 3 [[1; 2; 3]]) by (split; [reflexivity | repeat constructor]).
  split; [exact Hm|]. split; [lia|]. split; [lia|].
  destruct (aplicar_contornos_marco config_3x3 _ 1 3 Hm ltac:(lia) ltac:(lia))
    as (m' & Ha & _ & _ & Hb).
  exists m'. split; [exact Ha|].
  destruct (Hb 0%nat 0%nat ltac:(lia) ltac:(lia)) as (_ & H0 & _).
  destruct (Hb 0%nat 1%nat ltac:(lia) ltac:(lia)) as (_ & _ & H1 & _).
  destruct (Hb 0%nat 2%nat ltac:(lia) ltac:(lia)) as (H2 & _).
  split; [exact (H0 eq_refl ltac:(lia))|].
  split; [exact (H1 ltac:(lia) eq_refl) | exact (H2 eq_refl)].
Defined.

(** The 3 x 3 plate with other corners steps to the same grid. *)
Lemma esquinas_no_leidas_testigo :
  exists e1' e2',
    actualizar_paso motor_3x3 = Ok e1' /\
    actualizar_paso
      {| cfg := config_3x3; dt := lit 2375 10000; r := lit 2375 10000;
         u := [[7; 100; 8]; [30; 0; 30]; [9; 0; 11]]; iteracion := 0 |} = Ok e2' /\
    u e1' = u e2'.
Proof.
  apply (esquinas_no_leidas motor_3x3 _ 3).
  - lia.
  - exact motor_3x3_malla.
  - split; [reflexivity | repeat constructor].
  - reflexivity.
  - reflexivity.
  - intros i j Hi Hj Hn.
    destruct i as [|[|[|i]]]; [| | |lia]; (destruct j as [|[|[|j]]]; [| | |lia]);
      try reflexivity; exfalso; apply Hn; lia.
Defined.

(** No step to make on the 3 x 3 plate: one frame. *)
Lemma ejecutar_sin_pasos_testigo :
  (pasos (cfg (motor_3x3_con 0 5 0.5)) <= 0)%Z /\
  ejecutar false (motor_3x3_con 0 5 0.5)
    = Ok (motor_3x3_con 0 5 0.5, [Render 0; Fin]).
Proof.
  split; [simpl; lia|].
  rewrite (proj1 (ejecutar_sin_pasos false (motor_3x3_con 0 5 0.5) ltac:(simpl; lia))).
  vm_compute. reflexivity.
Defined.

(** cada_render = 0 on the 3 x 3 plate, with a pause that [time.sleep]
    would refuse. *)
Lemma ejecutar_cada_render_cero_testigo :
  ejecutar false (motor_3x3_con 10 0 (-1)) = Lanza ZeroDivisionError.
Proof.
  apply (ejecutar_cada_render_cero false _ 3).
  - lia.
  - exact motor_3x3_malla.
  - simpl. lia.
  - reflexivity.
Defined.

(** 10 steps with a frame every 5: 10 / 5 + 1 + 1 = 4 frames. *)
Lemma ejecutar_numero_de_cuadros_testigo :
  time_sleep (pausa (cfg motor_3x3)) = Ok tt /\
  exists e' tr, ejecutar false motor_3x3 = Ok (e', tr) /\ length (renders tr) = 4%nat.
Proof.
  assert (Hsl : time_sleep (pausa (cfg motor_3x3)) = Ok tt) by (vm_compute; reflexivity).
  split; [exact Hsl|].
  destruct (ejecutar_numero_de_cuadros false motor_3x3 3 ltac:(lia) motor_3x3_malla eq_refl
              ltac:(simpl; lia) ltac:(simpl; lia) Hsl motor_3x3_dibujable)
    as (e' & tr & He & Hn).
  exists e', tr. split; [exact He|].
  change (pasos (cfg motor_3x3) / cada_render (cfg motor_3x3)
          + (if cada_render (cfg motor_3x3) =? 1 then 0 else 1) + 1)%Z with 4%Z in Hn.
  lia.
Defined.

(** The 3 x 3 plate resumed at iteration 3: the ten iterations 4 .. 13 draw
    at 5 and 10, and the final frame is that of 13. *)
Lemma ejecutar_desde_testigo :
  time_sleep (pausa (cfg (con_iteracion motor_3x3 3))) = Ok tt /\
  cuadros_dibujables false (con_iteracion motor_3x3 3) /\
  exists e' tr, ejecutar false (con_iteracion motor_3x3 3) = Ok (e', tr) /\
    iteracion e' = 13%Z /\ renders tr = [5; 10; 13]%Z.
Proof.
  assert (Hsl : time_sleep (pausa (cfg (con_iteracion motor_3x3 3))) = Ok tt)
    by (vm_compute; reflexivity).
  assert (Hd : cuadros_dibujables false (con_iteracion motor_3x3 3)).
  { intros j ej Hj _ Hs.
    do 11 (destruct j as [|j];
           [vm_compute in Hs; injection Hs as <-; eexists; vm_compute; reflexivity|]).
    simpl in Hj. lia. }
  split; [exact Hsl|]. split; [exact Hd|].
  destruct (ejecutar_desde false (con_iteracion motor_3x3 3) 3 ltac:(lia) motor_3x3_malla
              ltac:(simpl; lia) Hsl Hd) as (e' & tr & He & _ & Hi & _ & Hr).
  exists e', tr. split; [exact He|]. split; [exact Hi|].
  rewrite (Hr ltac:(simpl; lia)), Hi. vm_compute. reflexivity.
Defined.

(** [--pausa=-1] after no other argument. *)
Lemma pausa_sin_validar_testigo :
  exists c, parsear_argumentos [("--pausa"%string, VReal (-1))] = Ok c /\
    pausa c = (-1) /\ n c = 20%Z.
Proof.
  eassert (Hc : parsear_argumentos (T:=float) [] = Ok _) by (vm_compute; reflexivity).
  pose proof (pausa_sin_validar [] _ (-1) Hc) as Hp.
  eexists. split; [exact Hp|]. split; reflexivity.
Defined.

(** [--n=3 --pasos=10] from the command line to the last frame. *)
Lemma main_compuesto_testigo :
  parsear_argumentos [("--n", VEntero 3); ("--pasos", VEntero 10)]%string = Ok config_3x3 /\
  __init__ config_3x3 = Ok motor_3x3 /\
  time_sleep (pausa config_3x3) = Ok tt /\
  exists e' tr,
    main (T:=float) false [("--n", VEntero 3); ("--pasos", VEntero 10)]%string
      = Ok (e', tr) /\
    iteracion e' = 10%Z /\ renders tr = [1; 5; 10; 10]%Z.
Proof.
  assert (Hc : parsear_argumentos [("--n", VEntero 3); ("--pasos", VEntero 10)]%string
               = Ok config_3x3) by (vm_compute; reflexivity).
  assert (Hi : __init__ config_3x3 = Ok motor_3x3) by (vm_compute; reflexivity).
  assert (Hsl : time_sleep (pausa config_3x3) = Ok tt) by (vm_compute; reflexivity).
  split; [exact Hc|]. split; [exact Hi|]. split; [exact Hsl|].
  destruct (main_compuesto false _ _ _ Hc Hi Hsl motor_3x3_dibujable)
    as (e' & tr & Hm & _ & Hit & _ & _ & Hr).
  exists e', tr. split; [exact Hm|]. split; [exact Hit|].
  rewrite Hr. vm_compute. reflexivity.
Defined.

(** The 3 x 3 plate with a pause of -1 s and the colour backend: the run
    raises what [time.sleep] raises. *)
Lemma ejecutar_color_binario64_testigo :
  time_sleep (pausa (cfg (motor_3x3_con 10 5 (-1)))) = Lanza ValueError /\
  ejecutar true (motor_3x3_con 10 5 (-1)) = Lanza ValueError.
Proof.
  assert (Hsl : time_sleep (pausa (cfg (motor_3x3_con 10 5 (-1)))) = Lanza ValueError)
    by (vm_compute; reflexivity).
  split; [exact Hsl|].
  exact (proj2 (ejecutar_color_binario64 (motor_3x3_con 10 5 (-1)) 3 ltac:(lia)
                  motor_3x3_malla eq_refl ltac:(simpl; lia) ltac:(simpl; lia)) _ Hsl).
Defined.

End Instancias.
